(** * Shapelet discovery: a shallow embedding of [find_shapelets_simpilified.py]

    The development follows the class [ShapeletFinder]: window generation,
    the classifier comparison and the best-so-far loop, the estimate of
    [sigma_min], extrema pruning, the pre-computation of best-matching
    distances, [build_classifier] and the driver [findingshapelets].

    Conventions.
    - Python integers are [Z]; [/] on two integers is Python 2 floor
      division, which is [Z.div].
    - Finite floating point values are rationals ([Q]); only their order and
      equality are used, and both are exact on finite floats.
    - A Python [dict] is a [gmap]; a NumPy array is a list (of lists).
    - A raised exception is the [Raise] result of the error monad [py]. *)

From Stdlib Require Import ZArith QArith List Sorted Lia.
From stdpp Require Import base option list gmap strings.

Local Open Scope Z_scope.

(** ** Python results *)

Inductive exn : Type :=
  | ValueError
  | IndexError
  | KeyError
  | AttributeError.

Inductive py (A : Type) : Type :=
  | Ok (a : A)
  | Raise (e : exn).
Arguments Ok {A} a.
Arguments Raise {A} e.

#[global] Instance py_ret : MRet py := fun A a => Ok a.

#[global] Instance py_bind : MBind py := fun A B k m =>
  match m with
  | Ok a => k a
  | Raise e => Raise e
  end.

(** [range(a, b)] *)
Definition py_range (a b : Z) : list Z :=
  map (fun k => a + Z.of_nat k) (seq 0 (Z.to_nat (b - a))).

(** ** [ShapeletFinder.calc_windows] *)

Definition calc_windows (sl_max N_max : Z) : list Z :=
  map (fun i => (sl_max * i) / N_max) (py_range 1 (N_max + 1)).

Definition strictly_increasing (l : list Z) : Prop :=
  forall (i j : nat) (x y : Z),
    l !! i = Some x -> l !! j = Some y -> (i < j)%nat -> x < y.

Lemma py_range_length a b : length (py_range a b) = Z.to_nat (b - a).
Proof. unfold py_range. now rewrite length_map, length_seq. Qed.

Lemma py_range_lookup a b (i : nat) :
  (i < Z.to_nat (b - a))%nat -> py_range a b !! i = Some (a + Z.of_nat i).
Proof.
  intros Hi. unfold py_range.
  rewrite list_lookup_fmap, lookup_seq_lt by exact Hi. reflexivity.
Qed.

Lemma calc_windows_length sl_max N_max :
  length (calc_windows sl_max N_max) = Z.to_nat N_max.
Proof.
  unfold calc_windows. rewrite length_map, py_range_length.
  f_equal. lia.
Qed.

Lemma calc_windows_lookup sl_max N_max (i : nat) w :
  calc_windows sl_max N_max !! i = Some w ->
  (i < Z.to_nat N_max)%nat /\ w = (sl_max * (1 + Z.of_nat i)) / N_max.
Proof.
  intros H.
  assert (Hlt : (i < Z.to_nat N_max)%nat).
  { apply lookup_lt_Some in H. now rewrite calc_windows_length in H. }
  split; [exact Hlt|].
  unfold calc_windows in H. rewrite list_lookup_fmap in H.
  rewrite py_range_lookup in H by (replace (N_max + 1 - 1) with N_max by lia; exact Hlt).
  simpl in H. congruence.
Qed.

(** Floor division by a positive [n] grows by at least one when the
    numerator grows by at least [n]. *)
Lemma div_step_lt a b n : 0 < n -> a + n <= b -> a / n < b / n.
Proof.
  intros Hn Hab.
  assert (H1 : a / n + 1 = (a + n) / n).
  { replace (a + n) with (a + 1 * n) by lia. rewrite Z.div_add by lia. lia. }
  assert (H2 : (a + n) / n <= b / n) by (apply Z.div_le_mono; lia).
  lia.
Qed.

Example calc_windows_default : calc_windows 50 3 = [16; 33; 50].
Proof. reflexivity. Qed.

Example calc_windows_short : calc_windows 1 3 = [0; 0; 1].
Proof. reflexivity. Qed.

Example calc_windows_negative : calc_windows 50 (-2) = [].
Proof. reflexivity. Qed.

(** C3, as stated, fails: with [sl_max = 1] and [N_max = 3] floor division
    yields [0; 0; 1], which repeats a value and contains [0]. *)
Lemma calc_windows_claim_fails :
  ~ (strictly_increasing (calc_windows 1 3)
     /\ Z.of_nat (length (calc_windows 1 3)) = 3
     /\ Forall (fun w => 0 < w <= 1) (calc_windows 1 3)).
Proof.
  intros (Hinc & _ & _).
  specialize (Hinc 0%nat 1%nat 0 0 eq_refl eq_refl). lia.
Qed.

Lemma calc_windows_first sl_max N_max :
  1 <= N_max -> calc_windows sl_max N_max !! 0%nat = Some (sl_max / N_max).
Proof.
  intros H. unfold calc_windows. rewrite list_lookup_fmap.
  rewrite py_range_lookup by lia. cbn. do 2 f_equal. lia.
Qed.

(** C3 (amended): the window sequence has exactly [N_max] elements, is
    strictly increasing and has all its elements in [(0, sl_max]] if, and
    only if, [N_max = 0] or [1 <= N_max <= sl_max]. *)
Theorem calc_windows_spec sl_max N_max :
  (Z.of_nat (length (calc_windows sl_max N_max)) = N_max
   /\ strictly_increasing (calc_windows sl_max N_max)
   /\ Forall (fun w => 0 < w <= sl_max) (calc_windows sl_max N_max))
  <-> (N_max = 0 \/ 1 <= N_max <= sl_max).
Proof.
  split.
  - intros (Hlen & _ & Hrange). rewrite calc_windows_length in Hlen.
    destruct (Z.eq_dec N_max 0) as [->|Hne]; [now left|]. right.
    assert (HN : 1 <= N_max) by lia. split; [exact HN|].
    rewrite Forall_forall in Hrange.
    assert (Hfirst : 0 < sl_max / N_max <= sl_max).
    { apply Hrange. eapply list_elem_of_lookup_2. now apply calc_windows_first. }
    destruct (Z.lt_ge_cases sl_max N_max) as [Hlt|Hge]; [|exact Hge].
    destruct (Z.lt_ge_cases sl_max 0) as [Hneg|Hpos].
    + pose proof (Z.div_pos sl_max N_max) as Hd.
      assert (sl_max / N_max < 0); [|lia].
      apply Z.div_lt_upper_bound; lia.
    + rewrite Z.div_small in Hfirst by lia. lia.
  - intros HN.
    assert (HN0 : 0 <= N_max) by lia.
    split; [|split].
    + rewrite calc_windows_length. lia.
    + intros i j x y Hi Hj Hij.
      apply calc_windows_lookup in Hi as [Hi ->].
      apply calc_windows_lookup in Hj as [Hj ->].
      apply div_step_lt; nia.
    + apply Forall_forall. intros w Hw.
      apply list_elem_of_lookup in Hw as [i Hi].
      apply calc_windows_lookup in Hi as [Hi ->].
      assert (HNpos : 0 < N_max) by lia.
      split.
      * apply Z.div_str_pos. nia.
      * apply Z.div_le_upper_bound; nia.
Qed.

Lemma calc_windows_spec_witness :
  Z.of_nat (length (calc_windows 50 3)) = 3
  /\ strictly_increasing (calc_windows 50 3)
  /\ Forall (fun w => 0 < w <= 50) (calc_windows 50 3).
Proof. apply (proj2 (calc_windows_spec 50 3)). right. lia. Defined.

(** ** Floating point comparisons

    [x > y], [x < y] and [x == y] on finite floats, as booleans. *)

Definition Qltb (x y : Q) : bool :=
  match (x ?= y)%Q with Lt => true | _ => false end.

Definition Qgtb (x y : Q) : bool := Qltb y x.

Definition Qeqb (x y : Q) : bool :=
  match (x ?= y)%Q with Eq => true | _ => false end.

Lemma Qltb_lt x y : Qltb x y = true <-> (x < y)%Q.
Proof. unfold Qltb. rewrite Qlt_alt. destruct (x ?= y)%Q; intuition congruence. Qed.

Lemma Qgtb_gt x y : Qgtb x y = true <-> (y < x)%Q.
Proof. apply Qltb_lt. Qed.

Lemma Qeqb_eq x y : Qeqb x y = true <-> (x == y)%Q.
Proof. unfold Qeqb. rewrite Qeq_alt. destruct (x ?= y)%Q; intuition congruence. Qed.

Lemma Qltb_ge x y : Qltb x y = false <-> (y <= x)%Q.
Proof.
  rewrite <- not_true_iff_false, Qltb_lt. split.
  - apply Qnot_lt_le.
  - intros H1 H2. exact (Qle_not_lt _ _ H1 H2).
Qed.

(** ** Classifiers *)

(** Modelled from the spec: the class [ShapeletClassifier] of the module
    [classifier] is not part of the sources.  A classifier holds the
    shapelet values, the dimension subset, the decision threshold [delta],
    the information gain and the margin [f_c_delta]; the finder reads the
    attributes [information_gain] and [f_c_delta]. *)

Record ShapeletClassifier : Type := {
  shapelet : list (list Q);
  dim_s : list nat;
  delta : Q;
  information_gain : Q;
  f_c_delta : Q
}.

(** [ShapeletFinder.cmp_classifier].  Either argument may be [None] (the
    default of [bsf_classifier]); reading an attribute of [None] raises
    [AttributeError]. *)
Definition cmp_classifier (classifier1 classifier2 : option ShapeletClassifier) : py Z :=
  match classifier1, classifier2 with
  | Some c1, Some c2 =>
      let gain_x := information_gain c1 in
      let gain_y := information_gain c2 in
      let f_c_delta1 := f_c_delta c1 in
      let f_c_delta2 := f_c_delta c2 in
      if Qgtb gain_x gain_y || (Qeqb gain_x gain_y && Qltb f_c_delta1 f_c_delta2)
      then Ok (-1)
      else Ok 1
  | _, _ => Raise AttributeError
  end.

(** The body of the innermost loop of [findingshapelets]:
<<
    try:
        if self.cmp_classifier(bsf_classifier[label], classifier) > 0:
            bsf_classifier[label] = classifier
    except AttributeError:
        bsf_classifier[label] = classifier
>> *)
Definition bsf_step (bsf : option ShapeletClassifier) (classifier : ShapeletClassifier)
  : py (option ShapeletClassifier) :=
  match cmp_classifier bsf (Some classifier) with
  | Ok r => if r >? 0 then Ok (Some classifier) else Ok bsf
  | Raise AttributeError => Ok (Some classifier)
  | Raise e => Raise e
  end.

(** [for c_i, classifier in enumerate(classifier_candidates): ...] *)
Fixpoint bsf_loop (bsf : option ShapeletClassifier) (candidates : list ShapeletClassifier)
  : py (option ShapeletClassifier) :=
  match candidates with
  | [] => Ok bsf
  | classifier :: rest =>
      bsf' ← bsf_step bsf classifier; bsf_loop bsf' rest
  end.

(** The comparison rule in the words of the specification: [A] beats [B]. *)
Definition beats (A B : ShapeletClassifier) : Prop :=
  (information_gain A > information_gain B)%Q
  \/ ((information_gain A == information_gain B)%Q /\ (f_c_delta A < f_c_delta B)%Q).

Lemma cmp_classifier_beats A B :
  cmp_classifier (Some A) (Some B) = Ok (-1) <-> beats A B.
Proof.
  unfold cmp_classifier, beats; cbn zeta.
  destruct (Qgtb _ _ || _) eqn:E.
  - split; [intros _|reflexivity].
    apply orb_true_iff in E as [E|E].
    + left. now apply Qgtb_gt.
    + right. apply andb_true_iff in E as [E1 E2].
      split; [now apply Qeqb_eq | now apply Qltb_lt].
  - split; [discriminate|]. intros H. exfalso.
    apply orb_false_iff in E as [E1 E2].
    destruct H as [H|[H1 H2]].
    + apply Qgtb_gt in H. congruence.
    + apply Qeqb_eq in H1. apply Qltb_lt in H2. rewrite H1, H2 in E2. discriminate.
Qed.

Lemma cmp_classifier_values A B :
  cmp_classifier (Some A) (Some B) = Ok (-1) \/ cmp_classifier (Some A) (Some B) = Ok 1.
Proof. unfold cmp_classifier; cbn zeta. destruct (Qgtb _ _ || _); auto. Qed.

Lemma cmp_classifier_not_beats A B :
  cmp_classifier (Some A) (Some B) = Ok 1 <-> ~ beats A B.
Proof.
  rewrite <- cmp_classifier_beats.
  destruct (cmp_classifier_values A B) as [H|H]; rewrite H; split; congruence.
Qed.

Lemma beats_irrefl A : ~ beats A A.
Proof. intros [H|[_ H]]; exact (Qlt_irrefl _ H). Qed.

Lemma beats_asym A B : beats A B -> ~ beats B A.
Proof.
  intros [H|[H1 H2]] [H'|[H1' H2']].
  - exact (Qlt_irrefl _ (Qlt_trans _ _ _ H H')).
  - rewrite H1' in H. exact (Qlt_irrefl _ H).
  - rewrite H1 in H'. exact (Qlt_irrefl _ H').
  - exact (Qlt_irrefl _ (Qlt_trans _ _ _ H2 H2')).
Qed.

Lemma beats_trans A B C : beats A B -> beats B C -> beats A C.
Proof.
  intros [H|[H1 H2]] [H'|[H1' H2']].
  - left. exact (Qlt_trans _ _ _ H' H).
  - left. now rewrite <- H1'.
  - left. now rewrite H1.
  - right. split; [now rewrite H1 | exact (Qlt_trans _ _ _ H2 H2')].
Qed.

Lemma bsf_step_keeps A B : beats A B -> bsf_step (Some A) B = Ok (Some A).
Proof.
  intros H. apply cmp_classifier_beats in H. unfold bsf_step. now rewrite H.
Qed.

Lemma bsf_step_replaces A B : ~ beats B A -> bsf_step (Some B) A = Ok (Some A).
Proof.
  intros H. apply cmp_classifier_not_beats in H. unfold bsf_step. now rewrite H.
Qed.

Lemma bsf_step_first A : bsf_step None A = Ok (Some A).
Proof. reflexivity. Qed.

(** Not being beaten is transitive: the rule is a strict weak ordering. *)
Lemma beats_neg_trans A B C : ~ beats A B -> ~ beats B C -> ~ beats A C.
Proof.
  unfold beats. intros HAB HBC HAC.
  destruct (Q_dec (information_gain A) (information_gain B)) as [[Hlt|Hgt]|Heq];
    [|tauto|].
  - destruct (Q_dec (information_gain B) (information_gain C)) as [[Hlt'|Hgt']|Heq'];
      [|tauto|].
    + destruct HAC as [H|[H _]].
      * exact (Qlt_irrefl _ (Qlt_trans _ _ _ H (Qlt_trans _ _ _ Hlt Hlt'))).
      * rewrite H in Hlt. exact (Qlt_irrefl _ (Qlt_trans _ _ _ Hlt Hlt')).
    + destruct HAC as [H|[H _]].
      * rewrite <- Heq' in H. exact (Qlt_irrefl _ (Qlt_trans _ _ _ H Hlt)).
      * rewrite H, Heq' in Hlt. exact (Qlt_irrefl _ Hlt).
  - destruct (Q_dec (information_gain B) (information_gain C)) as [[Hlt'|Hgt']|Heq'];
      [|tauto|].
    + destruct HAC as [H|[H _]].
      * rewrite Heq in H. exact (Qlt_irrefl _ (Qlt_trans _ _ _ H Hlt')).
      * rewrite <- Heq, H in Hlt'. exact (Qlt_irrefl _ Hlt').
    + destruct HAC as [H|[_ H]].
      * rewrite Heq, Heq' in H. exact (Qlt_irrefl _ H).
      * destruct (Qlt_le_dec (f_c_delta A) (f_c_delta B)) as [H1|H1]; [tauto|].
        destruct (Qlt_le_dec (f_c_delta B) (f_c_delta C)) as [H2|H2]; [tauto|].
        exact (Qlt_irrefl _ (Qlt_le_trans _ _ _ H (Qle_trans _ _ _ H2 H1))).
Qed.

(** The loop keeps a candidate that none of the candidates beats. *)
Lemma bsf_loop_not_beaten candidates :
  forall bsf,
    exists best,
      bsf_loop bsf candidates = Ok best
      /\ (best = bsf \/ exists c, best = Some c /\ c ∈ candidates)
      /\ (candidates <> [] -> best <> None)
      /\ forall b, best = Some b ->
           (forall x, x ∈ candidates -> ~ beats x b)
           /\ (forall b0, bsf = Some b0 -> b = b0 \/ ~ beats b0 b).
Proof.
  induction candidates as [|c rest IH]; intros bsf.
  - exists bsf. split; [reflexivity|]. split; [now left|]. split; [congruence|].
    intros b ->. split; [intros x Hx; inversion Hx|]. intros b0 [= ->]. now left.
  - cbn [bsf_loop].
    assert (Hstep : exists b1, bsf_step bsf c = Ok (Some b1)
                               /\ (b1 = c \/ (bsf = Some b1 /\ beats b1 c))
                               /\ forall b0, bsf = Some b0 -> b1 = b0 \/ ~ beats b0 b1).
    { destruct bsf as [b0|].
      - destruct (cmp_classifier_values b0 c) as [H|H].
        + exists b0. unfold bsf_step. rewrite H. split; [reflexivity|].
          split; [right; split; [reflexivity | now apply cmp_classifier_beats]|].
          intros b [= ->]. now left.
        + exists c. unfold bsf_step. rewrite H. split; [reflexivity|].
          split; [now left|]. intros b [= ->]. right.
          now apply cmp_classifier_not_beats.
      - exists c. split; [reflexivity|]. split; [now left|]. discriminate. }
    destruct Hstep as (b1 & -> & Hb1 & Hprev). cbn [mbind py_bind].
    destruct (IH (Some b1)) as (best & Hrun & Hin & Hne & Hbest).
    exists best. split; [exact Hrun|]. split; [|split].
    + destruct Hin as [->|(x & -> & Hx)].
      * destruct Hb1 as [->|[-> _]]; [right; exists c; split; [reflexivity|constructor]
                                     | now left].
      * right. exists x. split; [reflexivity | now constructor].
    + intros _. destruct Hin as [->|(x & -> & _)]; discriminate.
    + intros b ->. destruct (Hbest b eq_refl) as [Hrest Hb].
      assert (Hb1b : ~ beats b1 b).
      { destruct (Hb b1 eq_refl) as [->|H]; [apply beats_irrefl | exact H]. }
      assert (Hcb : ~ beats c b).
      { destruct Hb1 as [->|[_ Hbc]]; [exact Hb1b|].
        apply (beats_neg_trans c b1 b); [now apply beats_asym | exact Hb1b]. }
      split.
      * intros x Hx. apply elem_of_cons in Hx as [->|Hx]; [exact Hcb | now apply Hrest].
      * intros b0 Hb0. destruct (Hprev b0 Hb0) as [->|H0].
        -- destruct (Hb b0 eq_refl) as [->|H]; [now left | now right].
        -- right. apply (beats_neg_trans b0 b1 b); assumption.
Qed.

Example cmp_classifier_none B : cmp_classifier None (Some B) = Raise AttributeError.
Proof. reflexivity. Qed.

(** C1: [cmp_classifier] answers [-1] exactly when the first classifier
    beats the second, that is when its gain is larger, or the gains are
    equal and its [f_c_delta] is smaller.  A classifier that beats the other
    is the one kept by the best-so-far step in whichever order the two are
    met, so a larger gain wins whatever the margins are; the rule is one
    strict ordering: it is asymmetric and transitive; and the best-so-far
    loop over any candidates ends with one of them that no candidate
    beats. *)
Theorem cmp_classifier_strict_order (A B : ShapeletClassifier) :
  (cmp_classifier (Some A) (Some B) = Ok (-1) <-> beats A B)
  /\ (beats A B ->
      bsf_step (Some A) B = Ok (Some A) /\ bsf_step (Some B) A = Ok (Some A))
  /\ ((information_gain A > information_gain B)%Q ->
      bsf_loop None [A; B] = Ok (Some A) /\ bsf_loop None [B; A] = Ok (Some A))
  /\ ((information_gain A == information_gain B)%Q -> (f_c_delta A < f_c_delta B)%Q ->
      bsf_loop None [A; B] = Ok (Some A) /\ bsf_loop None [B; A] = Ok (Some A))
  /\ (beats A B -> ~ beats B A)
  /\ (forall C, beats A B -> beats B C -> beats A C)
  /\ (forall candidates, A ∈ candidates ->
      exists best, bsf_loop None candidates = Ok (Some best)
                   /\ best ∈ candidates /\ ~ beats A best).
Proof.
  assert (Hsel : beats A B ->
    bsf_step (Some A) B = Ok (Some A) /\ bsf_step (Some B) A = Ok (Some A)).
  { intros H. split; [now apply bsf_step_keeps|].
    apply bsf_step_replaces. now apply beats_asym. }
  assert (Hloop : beats A B ->
    bsf_loop None [A; B] = Ok (Some A) /\ bsf_loop None [B; A] = Ok (Some A)).
  { intros H. destruct (Hsel H) as [H1 H2].
    cbn [bsf_loop]. rewrite !bsf_step_first. cbn [mbind py_bind].
    now rewrite H1, H2. }
  split; [apply cmp_classifier_beats|].
  split; [exact Hsel|].
  split; [intros H; apply Hloop; now left|].
  split; [intros H1 H2; apply Hloop; now right|].
  split; [apply beats_asym|].
  split; [intros C; apply beats_trans|].
  intros candidates HA.
  destruct (bsf_loop_not_beaten candidates None)
    as (best & Hrun & Hin & Hne & Hbest).
  destruct best as [best|].
  - exists best. split; [exact Hrun|].
    destruct Hin as [Hin|(c & [= ->] & Hc)]; [discriminate|].
    split; [exact Hc|]. now apply (Hbest c eq_refl).
  - exfalso. apply Hne; [|reflexivity]. intros ->. inversion HA.
Qed.

Definition mk_classifier (gain margin : Q) : ShapeletClassifier :=
  {| shapelet := []; dim_s := [0%nat]; delta := 0;
     information_gain := gain; f_c_delta := margin |}.

Lemma cmp_classifier_strict_order_witness :
  bsf_loop None [mk_classifier 1 5; mk_classifier (1 # 2) 0] = Ok (Some (mk_classifier 1 5))
  /\ bsf_loop None [mk_classifier (1 # 2) 0; mk_classifier 1 5] = Ok (Some (mk_classifier 1 5)).
Proof.
  destruct (cmp_classifier_strict_order (mk_classifier 1 5) (mk_classifier (1 # 2) 0))
    as (_ & _ & H & _ & _ & _ & _).
  apply H. reflexivity.
Defined.



(** ** Built-ins and NumPy reductions *)

(** [max(a, b)] keeps [a] unless [b > a]. *)
Definition py_max2 (a b : Q) : Q := if Qltb a b then b else a.

(** [min(a, b)] keeps [a] unless [b < a]. *)
Definition py_min2 (a b : Q) : Q := if Qltb b a then b else a.

(** [min(l)] on a list of integers; [ValueError] on the empty list. *)
Definition py_min (l : list Z) : py Z :=
  match l with
  | [] => Raise ValueError
  | x :: rest => Ok (fold_left Z.min rest x)
  end.

(** [a.max()] and [a.min()] on a flat array; [ValueError] on size zero. *)
Definition np_max (a : list Q) : py Q :=
  match a with
  | [] => Raise ValueError
  | x :: rest => Ok (fold_left py_max2 rest x)
  end.

Definition np_min (a : list Q) : py Q :=
  match a with
  | [] => Raise ValueError
  | x :: rest => Ok (fold_left py_min2 rest x)
  end.

Lemma py_max2_cases a b :
  (py_max2 a b = a /\ (b <= a)%Q) \/ (py_max2 a b = b /\ (a < b)%Q).
Proof.
  unfold py_max2. destruct (Qltb a b) eqn:E.
  - right. split; [reflexivity | now apply Qltb_lt].
  - left. split; [reflexivity | now apply Qltb_ge].
Qed.

Lemma py_min2_cases a b :
  (py_min2 a b = a /\ (a <= b)%Q) \/ (py_min2 a b = b /\ (b < a)%Q).
Proof.
  unfold py_min2. destruct (Qltb b a) eqn:E.
  - right. split; [reflexivity | now apply Qltb_lt].
  - left. split; [reflexivity | now apply Qltb_ge].
Qed.

Lemma fold_py_max2_spec l x :
  let m := fold_left py_max2 l x in
  (m = x \/ m ∈ l) /\ (x <= m)%Q /\ (forall v, v ∈ l -> (v <= m)%Q).
Proof.
  revert x. induction l as [|y l IH]; intros x; cbn.
  - split; [now left|]. split; [apply Qle_refl|]. intros v Hv. inversion Hv.
  - destruct (IH (py_max2 x y)) as (Hin & Hle & Hall).
    destruct (py_max2_cases x y) as [[E Hxy]|[E Hxy]]; rewrite E in *.
    + split; [destruct Hin; [now left | right; now constructor]|].
      split; [exact Hle|].
      intros v Hv. apply elem_of_cons in Hv as [->|Hv]; [|now apply Hall].
      exact (Qle_trans _ _ _ Hxy Hle).
    + split; [right; destruct Hin as [->|Hin]; [constructor | now constructor]|].
      split; [exact (Qle_trans _ _ _ (Qlt_le_weak _ _ Hxy) Hle)|].
      intros v Hv. apply elem_of_cons in Hv as [->|Hv]; [exact Hle | now apply Hall].
Qed.

Lemma fold_py_min2_spec l x :
  let m := fold_left py_min2 l x in
  (m = x \/ m ∈ l) /\ (m <= x)%Q /\ (forall v, v ∈ l -> (m <= v)%Q).
Proof.
  revert x. induction l as [|y l IH]; intros x; cbn.
  - split; [now left|]. split; [apply Qle_refl|]. intros v Hv. inversion Hv.
  - destruct (IH (py_min2 x y)) as (Hin & Hle & Hall).
    destruct (py_min2_cases x y) as [[E Hxy]|[E Hxy]]; rewrite E in *.
    + split; [destruct Hin; [now left | right; now constructor]|].
      split; [exact Hle|].
      intros v Hv. apply elem_of_cons in Hv as [->|Hv]; [|now apply Hall].
      exact (Qle_trans _ _ _ Hle Hxy).
    + split; [right; destruct Hin as [->|Hin]; [constructor | now constructor]|].
      split; [exact (Qle_trans _ _ _ Hle (Qlt_le_weak _ _ Hxy))|].
      intros v Hv. apply elem_of_cons in Hv as [->|Hv]; [exact Hle | now apply Hall].
Qed.

Lemma np_max_spec a m :
  np_max a = Ok m -> m ∈ a /\ (forall v, v ∈ a -> (v <= m)%Q).
Proof.
  destruct a as [|x l]; [discriminate|]. cbn. intros [= <-].
  destruct (fold_py_max2_spec l x) as (Hin & Hle & Hall).
  split.
  - destruct Hin as [->|Hin]; [constructor | now constructor].
  - intros v Hv. apply elem_of_cons in Hv as [->|Hv]; [exact Hle | now apply Hall].
Qed.

Lemma np_min_spec a m :
  np_min a = Ok m -> m ∈ a /\ (forall v, v ∈ a -> (m <= v)%Q).
Proof.
  destruct a as [|x l]; [discriminate|]. cbn. intros [= <-].
  destruct (fold_py_min2_spec l x) as (Hin & Hle & Hall).
  split.
  - destruct Hin as [->|Hin]; [constructor | now constructor].
  - intros v Hv. apply elem_of_cons in Hv as [->|Hv]; [exact Hle | now apply Hall].
Qed.

Lemma np_max_nonempty a : a <> [] -> exists m, np_max a = Ok m.
Proof. destruct a; [congruence|]. intros _. eexists. reflexivity. Qed.

Lemma np_min_nonempty a : a <> [] -> exists m, np_min a = Ok m.
Proof. destruct a; [congruence|]. intros _. eexists. reflexivity. Qed.

Lemma fold_left_Zmin_spec (l : list Z) (x : Z) :
  (fold_left Z.min l x = x \/ fold_left Z.min l x ∈ l)
  /\ fold_left Z.min l x <= x
  /\ forall y, y ∈ l -> fold_left Z.min l x <= y.
Proof.
  revert x. induction l as [|z l IH]; intros x; cbn.
  - split; [now left|]. split; [lia|]. intros y Hy. inversion Hy.
  - destruct (IH (Z.min x z)) as (Hin & Hle & Hall). split; [|split].
    + destruct Hin as [->|Hin]; [|right; now constructor].
      destruct (Z.min_spec x z) as [[_ ->]|[_ ->]]; [now left | right; constructor].
    + lia.
    + intros y Hy. apply elem_of_cons in Hy as [->|Hy]; [lia | now apply Hall].
Qed.

(** [min(l)] is the least element of [l]. *)
Lemma py_min_least (l : list Z) (w : Z) :
  w ∈ l -> (forall w', w' ∈ l -> w <= w') -> py_min l = Ok w.
Proof.
  intros Hin Hleast. destruct l as [|x l]; [inversion Hin|]. cbn. f_equal.
  destruct (fold_left_Zmin_spec l x) as (Hm & Hle & Hall).
  assert (Hmin : fold_left Z.min l x ∈ x :: l).
  { destruct Hm as [->|Hm]; [constructor | now constructor]. }
  apply Z.le_antisymm; [|now apply Hleast].
  apply elem_of_cons in Hin as [->|Hin]; [exact Hle | now apply Hall].
Qed.

(** ** Data model *)

(** An event label. *)
Abbreviation label := string (only parsing).

(** A time series [data[i]]: rows are samples, columns are axes.  All rows
    of one series have as many entries as the series has axes. *)
Definition series : Type := list (list Q).

(** A subsequence of a series, and hence a shapelet: window length times
    number of axes. *)
Definition subseq : Type := list (list Q).

(** [ts.shape[0]] and [ts.shape[1]] *)
Definition shape0 {A} (a : list A) : Z := Z.of_nat (length a).
Definition shape1 (ts : series) : nat := length (hd [] ts).

(** [ts[:, axis]] *)
Definition column (axis : nat) (ts : list (list Q)) : list Q :=
  map (fun row => nth axis row 0%Q) ts.

(** [np.diff(x)] *)
Fixpoint np_diff (x : list Q) : list Q :=
  match x with
  | a :: (b :: _) as rest => (b - a)%Q :: np_diff rest
  | _ => []
  end.

(** [np.concatenate(arrays)] along the first axis; NumPy refuses an empty
    sequence of arrays with [ValueError]. *)
Definition np_concatenate {A} (arrays : list (list A)) : py (list A) :=
  match arrays with
  | [] => Raise ValueError
  | _ => Ok (concat arrays)
  end.

(** [np.concatenate([a[:, :, d][..., None] for d in dim_s], axis=-1)]:
    the sub-array of a stack of subsequences on the axes [dim_s].  The axes
    are drawn from [range(data[0].shape[1])] and exist in every series. *)
Definition select_axes (dim_s : list nat) (a : list subseq) : py (list subseq) :=
  match dim_s with
  | [] => Raise ValueError
  | _ => Ok (map (fun s => map (fun row => map (fun d => nth d row 0%Q) dim_s) s) a)
  end.

(** [a[ids]] with an integer index array: an index [i] with
    [-len <= i < 0] counts from the end, anything outside [[-len, len)]
    raises [IndexError]. *)
Definition np_getitem {A} (a : list A) (i : Z) : py A :=
  let n := shape0 a in
  let j := if i <? 0 then i + n else i in
  if (j <? 0) || (n <=? j) then Raise IndexError
  else match a !! Z.to_nat j with
       | Some x => Ok x
       | None => Raise IndexError
       end.

Fixpoint np_take {A} (a : list A) (ids : list Z) : py (list A) :=
  match ids with
  | [] => Ok []
  | i :: rest =>
      x ← np_getitem a i;
      xs ← np_take a rest;
      Ok (x :: xs)
  end.

(** [np.unique(ids)]: the sorted distinct values. *)
Fixpoint insert_unique (x : Z) (l : list Z) : list Z :=
  match l with
  | [] => [x]
  | y :: rest =>
      if x <? y then x :: l
      else if x =? y then l
      else y :: insert_unique x rest
  end.

Definition np_unique (ids : list Z) : list Z := fold_right insert_unique [] ids.

(** [d[key]] on a plain [dict]. *)
Definition dict_get `{Countable K} {V} (d : gmap K V) (key : K) : py V :=
  match d !! key with
  | Some v => Ok v
  | None => Raise KeyError
  end.

(** [l[i]] on a list. *)
Definition list_get {A} (l : list A) (i : nat) : py A :=
  match l !! i with
  | Some x => Ok x
  | None => Raise IndexError
  end.

(** [for x in xs: acc = body(acc, x)] where the body may raise. *)
Fixpoint py_foldl {A B} (body : B -> A -> py B) (xs : list A) (acc : B) : py B :=
  match xs with
  | [] => Ok acc
  | x :: rest => acc' ← body acc x; py_foldl body rest acc'
  end.

(** [[f(x) for x in xs]] where [f] may raise. *)
Fixpoint py_map {A B} (f : A -> py B) (xs : list A) : py (list B) :=
  match xs with
  | [] => Ok []
  | x :: rest => y ← f x; ys ← py_map f rest; Ok (y :: ys)
  end.

(** [enumerate(xs, start)] and [enumerate(xs)] *)
Fixpoint enumerate_from {A} (start : nat) (xs : list A) : list (nat * A) :=
  match xs with
  | [] => []
  | x :: rest => (start, x) :: enumerate_from (S start) rest
  end.

Definition enumerate {A} (xs : list A) : list (nat * A) := enumerate_from 0 xs.

Lemma enumerate_from_ge {A} (xs : list A) (start k : nat) (x : A) :
  (k, x) ∈ enumerate_from start xs -> (start <= k)%nat.
Proof.
  revert start. induction xs as [|y xs IH]; intros start; cbn.
  - inversion 1.
  - intros Hin. apply elem_of_cons in Hin as [Heq|Hin].
    + injection Heq as -> _. lia.
    + specialize (IH _ Hin). lia.
Qed.

Lemma elem_of_enumerate_from {A} (xs : list A) (start i : nat) (x : A) :
  ((start + i)%nat, x) ∈ enumerate_from start xs <-> xs !! i = Some x.
Proof.
  revert start i. induction xs as [|y xs IH]; intros start i; cbn.
  - rewrite elem_of_nil, lookup_nil. split; [contradiction | discriminate].
  - rewrite elem_of_cons. destruct i as [|i]; cbn.
    + rewrite Nat.add_0_r. split.
      * intros [Heq|H]; [now injection Heq as ->|].
        apply enumerate_from_ge in H. lia.
      * intros [= ->]. now left.
    + replace (start + S i)%nat with (S start + i)%nat by lia.
      rewrite IH. split; [|now right].
      intros [Heq|H]; [|exact H]. injection Heq as Heq _. lia.
Qed.

Lemma elem_of_enumerate {A} (xs : list A) (i : nat) (x : A) :
  (i, x) ∈ enumerate xs <-> xs !! i = Some x.
Proof. exact (elem_of_enumerate_from xs 0 i x). Qed.

(** [itertools.combinations(s, r)] *)
Fixpoint combinations {A} (r : nat) (s : list A) : list (list A) :=
  match r, s with
  | O, _ => [[]]
  | S _, [] => []
  | S r', x :: rest => map (cons x) (combinations r' rest) ++ combinations r rest
  end.

(** Modelled from the spec: [utilities.powerset] is not part of the
    sources; the dimension subsets range over the power set of the axis
    indices, of which the finder drops the first element, the empty subset.
    This is the itertools recipe
    [chain.from_iterable(combinations(s, r) for r in range(len(s) + 1))]:
    subsets by increasing size, each in the order of [s]. *)
Definition powerset {A} (s : list A) : list (list A) :=
  concat (map (fun r => combinations r s) (seq 0 (S (length s)))).

Example powerset_3 :
  powerset [0; 1; 2] = [[]; [0]; [1]; [2]; [0; 1]; [0; 2]; [1; 2]; [0; 1; 2]].
Proof. reflexivity. Qed.

(** Modelled from the spec: [utilities.keydefaultdict] is not part of the
    sources; extrema are memoised per (series id, axis) key, the entry
    being computed from the key by the factory and stored on first access.
    A factory that raises stores nothing. *)
Definition keydefaultdict_get `{Countable K} {V} (factory : K -> py V)
    (d : gmap K V) (key : K) : py (V * gmap K V) :=
  match d !! key with
  | Some v => Ok (v, d)
  | None => v ← factory key; Ok (v, <[key := v]> d)
  end.

(** ** The finder *)

(** The four extrema caches created by [ShapeletFinder.reset], keyed by
    (series id, axis). *)
Record extrema : Type := {
  minima : gmap (nat * nat) (list Z);
  maxima : gmap (nat * nat) (list Z);
  derivative_minima : gmap (nat * nat) (list Z);
  derivative_maxima : gmap (nat * nat) (list Z)
}.

(** The attributes of a [ShapeletFinder] that outlive a call of
    [findingshapelets].  The attributes that every call assigns afresh before
    it reads them ([data], [target], [windows], [unique_labels],
    [shapelets], [dimensions_subsets], [z_data], [dist_shapelet_ts]) are
    passed as arguments instead.  A call that raises returns no finder:
    what it leaves in the object is not modelled. *)
Record ShapeletFinder : Type := {
  d_max : Q;
  N_max : Z;
  w_ext : Z;
  sigma_min : option Q;
  sl_max : Z;
  caches : extrema
}.

(** [ShapeletFinder.reset] *)
Definition reset_caches : extrema :=
  {| minima := ∅; maxima := ∅; derivative_minima := ∅; derivative_maxima := ∅ |}.

Definition reset (self : ShapeletFinder) : ShapeletFinder :=
  {| d_max := d_max self; N_max := N_max self; w_ext := w_ext self;
     sigma_min := sigma_min self; sl_max := sl_max self;
     caches := reset_caches |}.

(** [ShapeletFinder.__init__]: the five options are stored as they come and
    the caches are created; nothing is checked and nothing can be raised. *)
Definition init (d_max : Q) (N_max w_ext : Z) (sigma_min : option Q) (sl_max : Z)
  : py ShapeletFinder :=
  Ok (reset {| d_max := d_max; N_max := N_max; w_ext := w_ext;
               sigma_min := sigma_min; sl_max := sl_max;
               caches := reset_caches |}).

(** [ShapeletFinder.get_unique_targets] *)
Definition get_unique_targets (target : list (list label)) : gset label :=
  fold_left (fun labels row => fold_left (fun labels l => labels ∪ {[ l ]}) row labels)
            target ∅.

(** [np.array([int(label in x) for x in target])] *)
Definition binary_target (l : label) (target : list (list label)) : list Z :=
  map (fun x => if decide (l ∈ x) then 1 else 0) target.

(** The result of [findingshapelets]: the best classifier found for each
    label ([None] when there was none) with the binary target of the label. *)
Abbreviation result := (gmap label (option ShapeletClassifier * list Z)) (only parsing).

(** Keys of [self.shapelets], [self.z_data] and [self.dist_shapelet_ts]. *)
Abbreviation shapelets_dict := (gmap (label * list nat * Z) (list subseq)) (only parsing).
Abbreviation z_data_dict := (gmap (nat * Z) (list subseq)) (only parsing).
Abbreviation dist_dict := (gmap (nat * nat * label * Z * list nat) Q) (only parsing).

Section Finder.

Set Default Proof Using "Type".

(** *** Collaborators outside the sources *)

(** [scipy.signal.argrelmin(x, order=w)[0]] and [argrelmax]. *)
Variables argrelmin argrelmax : list Q -> Z -> list Z.

(** [a.std(axis=1)] on a stack of subsequences: one row per subsequence,
    one column per axis. *)
Variable std_axis1 : list subseq -> list (list Q).

(** [shapelet_utils.subsequences(ts, w)] and
    [shapelet_utils.z_normalize(subs)]; the latter reads the module
    variable [shapelet_utils.sigma_min], here its first argument. *)
Variable subsequences : series -> Z -> list subseq.
Variable z_normalize : Q -> list subseq -> list subseq.

(** The distance between two equal-length subsequences that
    [shapelet_utils.distance_matrix3D] tabulates. *)
Variable distance : subseq -> subseq -> Q.

(** [Clustering(d_max).fit(shapelets)] followed by [nn_centers()]. *)
Variable nn_centers : Q -> list subseq -> list subseq.

(** [ShapeletClassifier(shapelet, dim_s)] followed by
    [fit_precomputed(dist_X, target)]. *)
Variable fit_precomputed : subseq -> list nat -> list Q -> list Z -> ShapeletClassifier.

(** The progress display [utilities.Counter]: [Counter(total, prefix)]
    creates a counter and [c.printProgress(iteration)] prints the
    progress.  Either call may raise; what is printed is not modelled. *)
Variable counter : Type.
Variable Counter : Z -> string -> py counter.
Variable printProgress : counter -> Z -> py ().

(** The progress display for [total] steps under [prefix] returns: the
    counter is created and prints every progress. *)
Definition progress_returns (total : Z) (prefix : string) : Prop :=
  exists c, Counter total prefix = Ok c
            /\ forall iteration, printProgress c iteration = Ok ().

(** The progress display never raises. *)
Definition quiet_progress : Prop :=
  forall total prefix, progress_returns total prefix.

(** [tauto] takes the collaborators, whose types are arrows, for
    implications; they are cleared first, so that no lemma depends on a
    collaborator that its statement does not mention. *)
Local Ltac tauto :=
  try clear printProgress; try clear Counter; try clear counter;
  try clear fit_precomputed; try clear nn_centers; try clear distance;
  try clear z_normalize; try clear subsequences; try clear std_axis1;
  try clear argrelmax; try clear argrelmin;
  Corelib.Init.Tauto.tauto.

(** Modelled from the spec: [shapelet_utils.distance_matrix3D] is not part
    of the sources; entry [(i, j)] is the distance of shapelet [i] to
    subsequence [j] of the series. *)
Definition distance_matrix3D (muh ts : list subseq) : list (list Q) :=
  map (fun s => map (fun t => distance s t) ts) muh.

(** [m.min(axis=1)] on a matrix with [n_cols] columns. *)
Definition min_axis1 (m : list (list Q)) (n_cols : nat) : py (list Q) :=
  match n_cols with
  | O => Raise ValueError
  | S _ => py_map np_min m
  end.

(** *** [estimate_sigma_min] *)

(** The loop over [enumerate(self.target)], from series [id] on. *)
Fixpoint estimate_sigma_min_loop (data : list series) (windows : list Z)
    (id : nat) (target : list (list label)) (sigma_min : Q) : py Q :=
  match target with
  | [] => Ok sigma_min
  | labels :: rest =>
      if (length labels =? 0)%nat then
        ts ← list_get data id;
        w ← py_min windows;
        m ← np_max (concat (std_axis1 (subsequences ts w)));
        estimate_sigma_min_loop data windows (S id) rest (py_max2 sigma_min m)
      else estimate_sigma_min_loop data windows (S id) rest sigma_min
  end.

(** The new value of [self.sigma_min], which is also the value assigned
    to [shapelet_utils.sigma_min]. *)
Definition estimate_sigma_min (self : ShapeletFinder) (data : list series)
    (target : list (list label)) (windows : list Z) : py Q :=
  match sigma_min self with
  | None => estimate_sigma_min_loop data windows 0 target 0%Q
  | Some s => Ok s
  end.

(** The standard deviations that enter the estimate: those of the
    subsequences of length [w] of the series that carry no label. *)
Definition unlabeled_std (data : list series) (target : list (list label))
    (w : Z) (v : Q) : Prop :=
  exists (id : nat) (ts : series),
    target !! id = Some [] /\ data !! id = Some ts
    /\ v ∈ concat (std_axis1 (subsequences ts w)).

Lemma estimate_sigma_min_loop_labeled data windows target id acc :
  Forall (fun labels => labels <> []) target ->
  estimate_sigma_min_loop data windows id target acc = Ok acc.
Proof.
  intros H. revert id. induction H as [|labels rest Hne _ IH]; intros id; cbn.
  - reflexivity.
  - destruct labels; [congruence|]. cbn. apply IH.
Qed.

Lemma estimate_sigma_min_loop_spec data windows w target :
  py_min windows = Ok w ->
  forall id acc,
    (forall k, target !! k = Some [] ->
       exists ts, data !! (id + k)%nat = Some ts
                  /\ concat (std_axis1 (subsequences ts w)) <> []) ->
    exists s,
      estimate_sigma_min_loop data windows id target acc = Ok s
      /\ (acc <= s)%Q
      /\ (forall k ts v, target !! k = Some [] -> data !! (id + k)%nat = Some ts ->
            v ∈ concat (std_axis1 (subsequences ts w)) -> (v <= s)%Q)
      /\ (s = acc \/
          exists k ts, target !! k = Some [] /\ data !! (id + k)%nat = Some ts
                       /\ s ∈ concat (std_axis1 (subsequences ts w))).
Proof.
  intros Hw. induction target as [|labels rest IH]; intros id acc Hdata; cbn.
  - exists acc. split; [reflexivity|]. split; [apply Qle_refl|].
    split; [|now left]. intros k ts v Hk. rewrite lookup_nil in Hk. discriminate.
  - assert (Hrest : forall k, rest !! k = Some [] ->
              exists ts, data !! (S id + k)%nat = Some ts
                         /\ concat (std_axis1 (subsequences ts w)) <> []).
    { intros k Hk. destruct (Hdata (S k) Hk) as (ts & Hts & Hne).
      exists ts. split; [|exact Hne]. rewrite <- Hts. f_equal. lia. }
    destruct labels as [|l labels]; cbn.
    + destruct (Hdata 0%nat eq_refl) as (ts & Hts & Hne).
      rewrite Nat.add_0_r in Hts.
      unfold list_get. rewrite Hts, Hw. cbn.
      destruct (np_max_nonempty _ Hne) as [m Hm]. rewrite Hm. cbn.
      destruct (np_max_spec _ _ Hm) as [Hmin Hmall].
      destruct (IH (S id) (py_max2 acc m) Hrest) as (s & Hs & Hle & Hall & Hatt).
      exists s. split; [exact Hs|].
      assert (Hacc : (acc <= py_max2 acc m)%Q /\ (m <= py_max2 acc m)%Q).
      { destruct (py_max2_cases acc m) as [[-> H]|[-> H]].
        - split; [apply Qle_refl | exact H].
        - split; [now apply Qlt_le_weak | apply Qle_refl]. }
      destruct Hacc as [Hacc Hm'].
      split; [exact (Qle_trans _ _ _ Hacc Hle)|]. split.
      * intros [|k] ts' v Hk Hts' Hv.
        -- rewrite Nat.add_0_r in Hts'. assert (ts' = ts) as -> by congruence.
           exact (Qle_trans _ _ _ (Hmall v Hv) (Qle_trans _ _ _ Hm' Hle)).
        -- apply (Hall k ts' v Hk); [|exact Hv].
           rewrite <- Hts'. f_equal. lia.
      * destruct Hatt as [->|(k & ts' & Hk & Hts' & Hin)].
        -- destruct (py_max2_cases acc m) as [[-> _]|[-> _]]; [now left|].
           right. exists 0%nat, ts. rewrite Nat.add_0_r. auto.
        -- right. exists (S k), ts'. split; [exact Hk|]. split; [|exact Hin].
           rewrite <- Hts'. f_equal. lia.
    + destruct (IH (S id) acc Hrest) as (s & Hs & Hle & Hall & Hatt).
      exists s. split; [exact Hs|]. split; [exact Hle|]. split.
      * intros [|k] ts' v Hk Hts' Hv; [discriminate|].
        apply (Hall k ts' v Hk); [|exact Hv]. rewrite <- Hts'. f_equal. lia.
      * destruct Hatt as [->|(k & ts' & Hk & Hts' & Hin)]; [now left|].
        right. exists (S k), ts'. split; [exact Hk|]. split; [|exact Hin].
        rewrite <- Hts'. f_equal. lia.
Qed.

(** C5: a supplied [sigma_min] is kept.  When none is supplied and no
    series is unlabeled, the estimate is [0], whatever the windows are.
    When none is supplied and [w] is the smallest of the window lengths to
    test, the estimate is an upper bound of the standard deviations of all
    subsequences of length [w] of all series without label, and it is one
    of them as soon as there is one: it is their maximum. *)
Theorem estimate_sigma_min_spec (self : ShapeletFinder) (data : list series)
    (target : list (list label)) (windows : list Z) :
  (forall s0, sigma_min self = Some s0 ->
     estimate_sigma_min self data target windows = Ok s0)
  /\ (sigma_min self = None ->
      Forall (fun labels => labels <> []) target ->
      estimate_sigma_min self data target windows = Ok 0%Q)
  /\ (forall w,
      sigma_min self = None ->
      w ∈ windows -> (forall w', w' ∈ windows -> w <= w') ->
      length data = length target ->
      (forall id ts v, target !! id = Some [] -> data !! id = Some ts ->
         concat (std_axis1 (subsequences ts w)) <> []
         /\ (v ∈ concat (std_axis1 (subsequences ts w)) -> (0 <= v)%Q)) ->
      exists s,
        estimate_sigma_min self data target windows = Ok s
        /\ (forall v, unlabeled_std data target w v -> (v <= s)%Q)
        /\ ((exists id, target !! id = Some []) ->
            exists v, unlabeled_std data target w v /\ (v == s)%Q)).
Proof.
  unfold estimate_sigma_min. split; [|split].
  - intros s0 ->. reflexivity.
  - intros -> H. now apply estimate_sigma_min_loop_labeled.
  - intros w -> Hwin Hleast Hlen Hstd.
    pose proof (py_min_least windows w Hwin Hleast) as Hw.
    destruct (estimate_sigma_min_loop_spec data windows w target Hw 0%nat 0%Q)
      as (s & Hs & Hle & Hall & Hatt).
    { intros k Hk. cbn.
      destruct (lookup_lt_is_Some_2 data k) as [ts Hts].
      { rewrite Hlen. now apply lookup_lt_Some in Hk. }
      exists ts. split; [exact Hts|]. exact (proj1 (Hstd k ts 0%Q Hk Hts)). }
    exists s. split; [exact Hs|]. split.
    + intros v (id & ts & Hid & Hts & Hv). exact (Hall id ts v Hid Hts Hv).
    + intros [id Hid].
      destruct Hatt as [->|(k & ts & Hk & Hts & Hin)].
      * destruct (lookup_lt_is_Some_2 data id) as [ts Hts].
        { rewrite Hlen. now apply lookup_lt_Some in Hid. }
        destruct (Hstd id ts 0%Q Hid Hts) as [Hne _].
        destruct (concat (std_axis1 (subsequences ts w))) as [|v l] eqn:E;
          [congruence|].
        assert (Hv : v ∈ concat (std_axis1 (subsequences ts w))).
        { rewrite E. constructor. }
        exists v. split; [now exists id, ts|].
        apply Qle_antisym.
        -- exact (Hall id ts v Hid Hts Hv).
        -- exact (proj2 (Hstd id ts v Hid Hts) Hv).
      * exists s. split; [now exists k, ts | reflexivity].
Qed.

(** *** Extrema caches *)

(** [self.data[key][:, axis]] *)
Definition axis_signal (data : list series) (key : nat * nat) : py (list Q) :=
  ts ← list_get data key.1;
  if (key.2 <? shape1 ts)%nat then Ok (column key.2 ts) else Raise IndexError.

(** The factories of the four dictionaries of [reset]; they read
    [self.data] and [self.w_ext] when a missing key is looked up. *)
Definition minima_factory (w_ext : Z) (data : list series) (key : nat * nat)
  : py (list Z) :=
  x ← axis_signal data key; Ok (argrelmin x w_ext).

Definition maxima_factory (w_ext : Z) (data : list series) (key : nat * nat)
  : py (list Z) :=
  x ← axis_signal data key; Ok (argrelmax x w_ext).

Definition derivative_minima_factory (w_ext : Z) (data : list series)
    (key : nat * nat) : py (list Z) :=
  x ← axis_signal data key; Ok (argrelmin (np_diff x) w_ext).

Definition derivative_maxima_factory (w_ext : Z) (data : list series)
    (key : nat * nat) : py (list Z) :=
  x ← axis_signal data key; Ok (argrelmax (np_diff x) w_ext).

(** [[self.minima[ts_id, a], self.maxima[ts_id, a],
      self.derivative_minima[ts_id, a], self.derivative_maxima[ts_id, a]]] *)
Definition axis_extrema (w_ext : Z) (data : list series) (ts_id a : nat)
    (c : extrema) : py (list (list Z) * extrema) :=
  '(mi, d1) ← keydefaultdict_get (minima_factory w_ext data) (minima c) (ts_id, a);
  '(ma, d2) ← keydefaultdict_get (maxima_factory w_ext data) (maxima c) (ts_id, a);
  '(dmi, d3) ← keydefaultdict_get (derivative_minima_factory w_ext data)
                                  (derivative_minima c) (ts_id, a);
  '(dma, d4) ← keydefaultdict_get (derivative_maxima_factory w_ext data)
                                  (derivative_maxima c) (ts_id, a);
  Ok ([mi; ma; dmi; dma],
      {| minima := d1; maxima := d2;
         derivative_minima := d3; derivative_maxima := d4 |}).

(** [ids = []; for a in dim_s: ids.extend([...])] *)
Definition collect_ids (w_ext : Z) (data : list series) (ts_id : nat)
    (dim_s : list nat) (c : extrema) : py (list (list Z) * extrema) :=
  py_foldl (fun '(ids, c) a =>
              '(four, c') ← axis_extrema w_ext data ts_id a c;
              Ok (ids ++ four, c'))
           dim_s ([], c).

(** *** [prune_shapelet_candidates] *)

(** Lines 242 to 247: from the collected index arrays to the start
    offsets, for a series of [n] samples.
<<
  ids = np.concatenate([x for x in ids if len(x) > 0])
  ids = ids - shapelet_length // 2
  ids[ids < 0] = 0
  ids[ids > ts.shape[0] - shapelet_length] = ts.shape[0] - shapelet_length
  ids = np.unique(ids)
>> *)
Definition candidate_offsets (ids : list (list Z)) (shapelet_length n : Z)
  : py (list Z) :=
  ids ← np_concatenate (List.filter (fun x => (0 <? length x)%nat) ids);
  let ids := map (fun i => i - shapelet_length / 2) ids in
  let ids := map (fun i => if i <? 0 then 0 else i) ids in
  let ids := map (fun i => if i >? n - shapelet_length
                           then n - shapelet_length else i) ids in
  Ok (np_unique ids).

(** [all_shapelets[label] = np.vstack((all_shapelets[label], shapelets))],
    where stacking onto the default [None] raises [ValueError] and the
    handler stores [shapelets] alone. *)
Definition add_candidates (shapelets : list subseq)
    (all_shapelets : gmap label (list subseq)) (l : label)
  : gmap label (list subseq) :=
  match all_shapelets !! l with
  | Some old => <[l := old ++ shapelets]> all_shapelets
  | None => <[l := shapelets]> all_shapelets
  end.

(** Lines 242 to 258 of the loop over [enumerate(self.data)], once the
    index arrays [ids] of the series are collected.  The counter
    [max_candidates] is written and never read, and is left out. *)
Definition add_series_candidates (target : list (list label))
    (z_data : z_data_dict) (shapelet_length : Z) (dim_s : list nat)
    (all_shapelets : gmap label (list subseq)) (ts_id : nat) (ts : series)
    (ids : list (list Z)) : py (gmap label (list subseq)) :=
  ids ← candidate_offsets ids shapelet_length (shape0 ts);
  z ← dict_get z_data (ts_id, shapelet_length);
  shapelets ← select_axes dim_s z;
  labels ← list_get target ts_id;
  shapelets ← np_take shapelets ids;
  Ok (fold_left (add_candidates shapelets) labels all_shapelets).

(** The body of the loop over [enumerate(self.data)]. *)
Definition prune_series (w_ext : Z) (data : list series)
    (target : list (list label)) (z_data : z_data_dict)
    (shapelet_length : Z) (dim_s : list nat)
    (st : gmap label (list subseq) * extrema) (it : nat * series)
  : py (gmap label (list subseq) * extrema) :=
  r ← collect_ids w_ext data it.1 dim_s st.2;
  all_shapelets ← add_series_candidates target z_data shapelet_length dim_s
                                        st.1 it.1 it.2 r.1;
  Ok (all_shapelets, r.2).

Definition prune_shapelet_candidates (self : ShapeletFinder) (data : list series)
    (target : list (list label)) (z_data : z_data_dict)
    (shapelet_length : Z) (dim_s : list nat) (c : extrema)
  : py (gmap label (list subseq) * extrema) :=
  r ← py_foldl (prune_series (w_ext self) data target z_data shapelet_length dim_s)
               (enumerate data) (∅, c);
  Ok (fmap (M := gmap label) (nn_centers (d_max self)) r.1, r.2).

(** *** [precompute_z_norm] *)

Definition precompute_z_norm (sigma : Q) (data : list series) (windows : list Z)
  : z_data_dict :=
  fold_left (fun z w =>
               fold_left (fun z '(ts_id, ts) =>
                            <[(ts_id, w) := z_normalize sigma (subsequences ts w)]> z)
                         (enumerate data) z)
            windows ∅.

(** *** [precompute_bmd] *)

(** The loop over [enumerate(self.shapelets[key])] for one label: the
    distance of shapelet [shapelet_id] of the label is read at the running
    position [i] of [d_m]. *)
Definition bmd_store_label (shapelets : shapelets_dict) (d_m : list Q)
    (ts_id : nat) (axis : list nat) (shapelet_length : Z)
    (st : dist_dict * nat) (l : label) : py (dist_dict * nat) :=
  pool ← dict_get shapelets (l, axis, shapelet_length);
  py_foldl (fun '(dist, i) '(shapelet_id, _) =>
              v ← list_get d_m i;
              Ok (<[(ts_id, shapelet_id, l, shapelet_length, axis) := v]> dist, S i))
           (enumerate pool) st.

(** The body of the innermost loop, for one series, one dimension subset
    and one window length. *)
Definition bmd_block (shapelets : shapelets_dict) (z_data : z_data_dict)
    (unique_labels : list label) (ts_id : nat) (axis : list nat)
    (dist : dist_dict) (shapelet_length : Z) : py dist_dict :=
  pools ← py_map (fun l => dict_get shapelets (l, axis, shapelet_length)) unique_labels;
  muh ← np_concatenate pools;
  z ← dict_get z_data (ts_id, shapelet_length);
  ts ← select_axes axis z;
  d_m ← min_axis1 (distance_matrix3D muh ts) (length ts);
  r ← py_foldl (bmd_store_label shapelets d_m ts_id axis shapelet_length)
               unique_labels (dist, 0%nat);
  Ok r.1.

(** The loops over the dimension subsets and the window lengths for one
    series. *)
Definition bmd_series (shapelets : shapelets_dict) (z_data : z_data_dict)
    (unique_labels : list label) (dimensions_subsets : list (list nat))
    (windows : list Z) (dist : dist_dict) (ts_id : nat) : py dist_dict :=
  py_foldl (fun dist axis =>
    py_foldl (bmd_block shapelets z_data unique_labels ts_id axis) windows dist)
    dimensions_subsets dist.

Definition precompute_bmd (data : list series) (shapelets : shapelets_dict)
    (z_data : z_data_dict) (unique_labels : list label)
    (dimensions_subsets : list (list nat)) (windows : list Z) : py dist_dict :=
  c ← Counter (shape0 data) "calculating min dist";
  _ ← printProgress c 0;
  py_foldl (fun dist ts_id =>
    dist' ← bmd_series shapelets z_data unique_labels dimensions_subsets windows
                       dist ts_id;
    _ ← printProgress c (Z.of_nat ts_id + 1);
    Ok dist')
    (seq 0 (length data)) ∅.

(** *** [build_classifier] *)

Definition build_classifier (data : list series) (dist : dist_dict)
    (shapelets : list subseq) (target : list Z) (l : label) (dim_s : list nat)
  : py (list ShapeletClassifier) :=
  first ← list_get shapelets 0;
  let shapelet_length := shape0 first in
  py_map (fun '(shapelet_id, shapelet) =>
            dist_X ← py_map (fun ts_id =>
                               dict_get dist (ts_id, shapelet_id, l, shapelet_length, dim_s))
                            (seq 0 (length data));
            Ok (fit_precomputed shapelet dim_s dist_X target))
         (enumerate shapelets).

(** *** [findingshapelets] *)

(** The pools of one pruning stored into [self.shapelets]. *)
Definition store_pools (dimension_subset : list nat) (window : Z)
    (shapelets : shapelets_dict) (pools : gmap label (list subseq)) : shapelets_dict :=
  map_fold (fun l pool (sh : shapelets_dict) =>
              <[(l, dimension_subset, window) := pool]> sh)
           shapelets pools.

(** The counter "generating shapelets" and the first pair of loops:
    pruning for every dimension subset and window length, filling
    [self.shapelets], with the progress printed after every pruning. *)
Definition generate_shapelets (self : ShapeletFinder) (data : list series)
    (target : list (list label)) (z_data : z_data_dict)
    (dimensions_subsets : list (list nat)) (windows : list Z)
  : py (shapelets_dict * extrema) :=
  c ← Counter (shape0 dimensions_subsets * shape0 windows) "generating shapelets";
  py_foldl (fun st '(i, dimension_subset) =>
    match dimension_subset with
    | [] => Ok st
    | _ =>
      py_foldl (fun st '(j, window) =>
        r ← prune_shapelet_candidates self data target z_data window
                                      dimension_subset st.2;
        _ ← printProgress c (Z.of_nat j + Z.of_nat i * shape0 windows + 1);
        Ok (store_pools dimension_subset window st.1 r.1, r.2))
        (enumerate windows) st
    end)
    (enumerate dimensions_subsets) (∅, caches self).

(** The search for one combination of a dimension subset and a window
    length: the candidates are built and run through the best-so-far
    loop. *)
Definition search_combination (data : list series) (dist : dist_dict)
    (shapelets : shapelets_dict) (l : label) (binary : list Z)
    (bsf : option ShapeletClassifier) (dimension_subset : list nat) (window : Z)
  : py (option ShapeletClassifier) :=
  pool ← dict_get shapelets (l, dimension_subset, window);
  classifier_candidates ← build_classifier data dist pool binary l dimension_subset;
  bsf_loop bsf classifier_candidates.

(** The best classifier of one label: the counter of the label, whose
    progress is printed at [0] and after every combination, and the loops
    over dimension subsets and window lengths around the best-so-far
    loop. *)
Definition best_classifier (data : list series) (dist : dist_dict)
    (shapelets : shapelets_dict) (dimensions_subsets : list (list nat))
    (windows : list Z) (l : label) (binary : list Z)
  : py (option ShapeletClassifier) :=
  c ← Counter (shape0 dimensions_subsets * shape0 windows) l;
  _ ← printProgress c 0;
  py_foldl (fun bsf '(ds_i, dimension_subset) =>
    py_foldl (fun bsf '(w_i, window) =>
      bsf' ← search_combination data dist shapelets l binary bsf dimension_subset window;
      _ ← printProgress c (Z.of_nat ds_i * shape0 windows + Z.of_nat w_i + 1);
      Ok bsf')
      (enumerate windows) bsf)
    (enumerate dimensions_subsets) None.

(** [findingshapelets].  The progress counters of lines 158 to 167 are in
    [generate_shapelets], those of the loop over the labels in
    [best_classifier]. *)
Definition findingshapelets (self : ShapeletFinder) (data : list series)
    (target : list (list label)) : py (result * ShapeletFinder) :=
  let windows := calc_windows (sl_max self) (N_max self) in
  sigma ← estimate_sigma_min self data target windows;
  let unique_labels := elements (get_unique_targets target) in
  first ← list_get data 0;
  let dimensions_subsets := tail (powerset (seq 0 (shape1 first))) in
  let z_data := precompute_z_norm sigma data windows in
  '(shapelets, c) ← generate_shapelets self data target z_data
                                       dimensions_subsets windows;
  dist ← precompute_bmd data shapelets z_data unique_labels
                        dimensions_subsets windows;
  bsf_classifier ←
    py_foldl (fun (bsf_classifier : result) l =>
                let binary := binary_target l target in
                best ← best_classifier data dist shapelets dimensions_subsets
                                       windows l binary;
                Ok (<[l := (best, binary)]> bsf_classifier))
             unique_labels ∅;
  Ok (bsf_classifier,
      {| d_max := d_max self; N_max := N_max self; w_ext := w_ext self;
         sigma_min := Some sigma; sl_max := sl_max self; caches := c |}).

(** *** Properties of the helpers *)

Lemma insert_unique_elem x l y : y ∈ insert_unique x l <-> y = x \/ y ∈ l.
Proof.
  induction l as [|z l IH]; cbn.
  - rewrite list_elem_of_singleton, elem_of_nil. tauto.
  - destruct (Z.ltb_spec x z); [rewrite !elem_of_cons; tauto|].
    destruct (Z.eqb_spec x z) as [->|Hne].
    + rewrite elem_of_cons. tauto.
    + rewrite !elem_of_cons, IH. tauto.
Qed.

Lemma insert_unique_sorted x l :
  StronglySorted Z.lt l -> StronglySorted Z.lt (insert_unique x l).
Proof.
  induction 1 as [|z l Hs IH Hall]; cbn.
  - repeat constructor.
  - destruct (Z.ltb_spec x z) as [Hlt|Hge].
    + constructor; [now constructor|].
      constructor; [exact Hlt|].
      eapply List.Forall_impl; [|exact Hall]. cbn. intros; lia.
    + destruct (Z.eqb_spec x z) as [->|Hne]; [now constructor|].
      constructor; [exact IH|].
      apply Forall_forall. intros y Hy.
      apply insert_unique_elem in Hy as [->|Hy]; [lia|].
      rewrite Forall_forall in Hall. now apply Hall.
Qed.

Lemma np_unique_elem ids y : y ∈ np_unique ids <-> y ∈ ids.
Proof.
  induction ids as [|x ids IH]; cbn; [reflexivity|].
  rewrite insert_unique_elem, elem_of_cons, IH. reflexivity.
Qed.

Lemma np_unique_sorted ids : StronglySorted Z.lt (np_unique ids).
Proof.
  induction ids as [|x ids IH]; cbn; [constructor|].
  now apply insert_unique_sorted.
Qed.

Lemma strongly_sorted_lt_NoDup (l : list Z) : StronglySorted Z.lt l -> NoDup l.
Proof.
  induction 1 as [|z l Hs IH Hall]; constructor; [|exact IH].
  intros Hin. rewrite Forall_forall in Hall. specialize (Hall z Hin). lia.
Qed.

Lemma np_unique_NoDup ids : NoDup (np_unique ids).
Proof. apply strongly_sorted_lt_NoDup, np_unique_sorted. Qed.

Lemma np_unique_nonempty ids : ids <> [] -> np_unique ids <> [].
Proof.
  destruct ids as [|x ids]; [congruence|]. intros _ E.
  assert (H : x ∈ np_unique (x :: ids)) by (apply np_unique_elem; constructor).
  rewrite E in H. inversion H.
Qed.

(** Dropping the empty arrays does not change the concatenation, and
    leaves nothing exactly when every array is empty. *)
Lemma concat_filter_nonempty (ids : list (list Z)) :
  concat (List.filter (fun x => (0 <? length x)%nat) ids) = concat ids.
Proof.
  induction ids as [|x ids IH]; [reflexivity|].
  destruct x as [|i x]; cbn [List.filter length Nat.ltb Nat.leb concat app].
  - exact IH.
  - do 2 f_equal. exact IH.
Qed.

Lemma filter_nonempty_nil (ids : list (list Z)) :
  List.filter (fun x => (0 <? length x)%nat) ids = [] <-> Forall (fun x => x = []) ids.
Proof.
  induction ids as [|x ids IH]; cbn.
  - split; [constructor | reflexivity].
  - destruct x as [|i x]; cbn.
    + rewrite IH. split; [now constructor | now inversion 1].
    + split; [discriminate | inversion 1; discriminate].
Qed.

(** The start offset that [candidate_offsets] derives from one extremum
    index: shifted left by half the window, then clipped at [0] and at
    [n - shapelet_length]. *)
Definition start_offset (shapelet_length n i : Z) : Z :=
  let i := i - shapelet_length / 2 in
  let i := if i <? 0 then 0 else i in
  if i >? n - shapelet_length then n - shapelet_length else i.

(** The same in the words of the specification: the index shifted left by
    half the window length, clamped into [[0, n - shapelet_length]]. *)
Definition clamp (lo hi x : Z) : Z := Z.max lo (Z.min x hi).

Lemma start_offset_clamp shapelet_length n i :
  shapelet_length <= n ->
  start_offset shapelet_length n i
  = clamp 0 (n - shapelet_length) (i - shapelet_length / 2)
  /\ 0 <= start_offset shapelet_length n i <= n - shapelet_length.
Proof.
  intros H. unfold start_offset, clamp.
  destruct (Z.ltb_spec (i - shapelet_length / 2) 0);
    destruct (Z.gtb_spec 0 (n - shapelet_length));
    destruct (Z.gtb_spec (i - shapelet_length / 2) (n - shapelet_length)); lia.
Qed.

Lemma candidate_offsets_raises ids shapelet_length n :
  Forall (fun x => x = []) ids ->
  candidate_offsets ids shapelet_length n = Raise ValueError.
Proof.
  intros H. unfold candidate_offsets.
  apply filter_nonempty_nil in H. now rewrite H.
Qed.

Lemma candidate_offsets_ok ids shapelet_length n :
  ~ Forall (fun x => x = []) ids ->
  candidate_offsets ids shapelet_length n
  = Ok (np_unique (map (start_offset shapelet_length n) (concat ids))).
Proof.
  intros H. unfold candidate_offsets.
  rewrite <- filter_nonempty_nil in H.
  rewrite <- (concat_filter_nonempty ids).
  destruct (List.filter _ ids) as [|x l]; [congruence|].
  cbn [np_concatenate mbind py_bind]. rewrite !map_map. reflexivity.
Qed.

(** *** Runs related step by step *)

(** Two computations end alike: both return, with related values, or
    both raise the same exception. *)
Definition py_rel {A B} (R : A -> B -> Prop) (m1 : py A) (m2 : py B) : Prop :=
  match m1, m2 with
  | Ok a, Ok b => R a b
  | Raise e1, Raise e2 => e1 = e2
  | _, _ => False
  end.

Lemma py_rel_bind {A A' B B'} (R : A -> A' -> Prop) (S : B -> B' -> Prop)
    (m1 : py A) (m2 : py A') (k1 : A -> py B) (k2 : A' -> py B') :
  py_rel R m1 m2 ->
  (forall a a', R a a' -> py_rel S (k1 a) (k2 a')) ->
  py_rel S (m1 ≫= k1) (m2 ≫= k2).
Proof.
  destruct m1 as [a|e1], m2 as [a'|e2]; cbn; intros H Hk;
    try contradiction; [now apply Hk | exact H].
Qed.

Lemma py_rel_eq_refl {A} (m : py A) : py_rel eq m m.
Proof. destruct m; reflexivity. Qed.

Lemma py_rel_eq {A} (m1 m2 : py A) : py_rel eq m1 m2 <-> m1 = m2.
Proof.
  destruct m1, m2; cbn; split; intros H; try congruence; try contradiction;
    discriminate.
Qed.



Lemma py_foldl_rel {A B B'} (R : B -> B' -> Prop)
    (body1 : B -> A -> py B) (body2 : B' -> A -> py B') (xs : list A) b b' :
  R b b' ->
  (forall x c c', x ∈ xs -> R c c' -> py_rel R (body1 c x) (body2 c' x)) ->
  py_rel R (py_foldl body1 xs b) (py_foldl body2 xs b').
Proof.
  revert b b'. induction xs as [|x xs IH]; intros b b' Hb Hbody; cbn.
  - exact Hb.
  - apply (py_rel_bind R R).
    + apply Hbody; [constructor | exact Hb].
    + intros c c' Hc. apply IH; [exact Hc|].
      intros y d d' Hy. apply Hbody. now constructor.
Qed.

(** *** The caches are transparent *)

(** Every stored entry is what the factory computes for its key. *)
Definition cache_ok (factory : nat * nat -> py (list Z))
    (d : gmap (nat * nat) (list Z)) : Prop :=
  forall key v, d !! key = Some v -> factory key = Ok v.

Definition caches_ok (w_ext : Z) (data : list series) (c : extrema) : Prop :=
  cache_ok (minima_factory w_ext data) (minima c)
  /\ cache_ok (maxima_factory w_ext data) (maxima c)
  /\ cache_ok (derivative_minima_factory w_ext data) (derivative_minima c)
  /\ cache_ok (derivative_maxima_factory w_ext data) (derivative_maxima c).

Lemma cache_ok_empty factory : cache_ok factory ∅.
Proof. intros key v H. rewrite lookup_empty in H. discriminate. Qed.

Lemma caches_ok_reset w_ext data : caches_ok w_ext data reset_caches.
Proof. repeat split; apply cache_ok_empty. Qed.

Lemma keydefaultdict_get_sim (factory : nat * nat -> py (list Z))
    (d : gmap (nat * nat) (list Z)) (key : nat * nat) :
  cache_ok factory d ->
  py_rel (fun r v => r.1 = v /\ cache_ok factory r.2)
         (keydefaultdict_get factory d key) (factory key).
Proof.
  intros Hok. unfold keydefaultdict_get.
  destruct (d !! key) as [v|] eqn:E.
  - rewrite (Hok key v E). cbn. auto.
  - destruct (factory key) as [v|e] eqn:F; cbn; [|reflexivity].
    split; [reflexivity|].
    intros key' v' H. destruct (decide (key = key')) as [<-|Hne].
    + rewrite lookup_insert_eq in H. congruence.
    + rewrite lookup_insert_ne in H by exact Hne. now apply Hok.
Qed.

(** The index arrays of one axis and of a dimension subset, computed
    without any cache. *)
Definition axis_extrema_pure (w_ext : Z) (data : list series) (ts_id a : nat)
  : py (list (list Z)) :=
  mi ← minima_factory w_ext data (ts_id, a);
  ma ← maxima_factory w_ext data (ts_id, a);
  dmi ← derivative_minima_factory w_ext data (ts_id, a);
  dma ← derivative_maxima_factory w_ext data (ts_id, a);
  Ok [mi; ma; dmi; dma].

Definition collect_ids_pure (w_ext : Z) (data : list series) (ts_id : nat)
    (dim_s : list nat) : py (list (list Z)) :=
  py_foldl (fun ids a => four ← axis_extrema_pure w_ext data ts_id a; Ok (ids ++ four))
           dim_s [].

Lemma axis_extrema_sim w_ext data ts_id a c :
  caches_ok w_ext data c ->
  py_rel (fun r four => r.1 = four /\ caches_ok w_ext data r.2)
         (axis_extrema w_ext data ts_id a c)
         (axis_extrema_pure w_ext data ts_id a).
Proof.
  intros (H1 & H2 & H3 & H4). unfold axis_extrema, axis_extrema_pure.
  eapply py_rel_bind; [exact (keydefaultdict_get_sim _ _ (ts_id, a) H1)|].
  intros [mi d1] mi' [<- Hd1].
  eapply py_rel_bind; [exact (keydefaultdict_get_sim _ _ (ts_id, a) H2)|].
  intros [ma d2] ma' [<- Hd2].
  eapply py_rel_bind; [exact (keydefaultdict_get_sim _ _ (ts_id, a) H3)|].
  intros [dmi d3] dmi' [<- Hd3].
  eapply py_rel_bind; [exact (keydefaultdict_get_sim _ _ (ts_id, a) H4)|].
  intros [dma d4] dma' [<- Hd4].
  cbn. repeat split; assumption.
Qed.

Lemma collect_ids_sim w_ext data ts_id dim_s c :
  caches_ok w_ext data c ->
  py_rel (fun r ids => r.1 = ids /\ caches_ok w_ext data r.2)
         (collect_ids w_ext data ts_id dim_s c)
         (collect_ids_pure w_ext data ts_id dim_s).
Proof.
  intros Hc. unfold collect_ids, collect_ids_pure.
  apply (py_foldl_rel (fun r ids => r.1 = ids /\ caches_ok w_ext data r.2)).
  - split; [reflexivity | exact Hc].
  - intros a [ids c1] ids' _ [<- Hc1]. cbn [fst snd] in *.
    eapply py_rel_bind; [exact (axis_extrema_sim w_ext data ts_id a c1 Hc1)|].
    intros [four c2] four' [<- Hc2]. cbn. auto.
Qed.

(** *** Pruning one series *)

(** The four index arrays of axis [a] of series [ts], as the factories
    compute them. *)
Definition four_extrema (w_ext : Z) (ts : series) (a : nat) : list (list Z) :=
  [ argrelmin (column a ts) w_ext;
    argrelmax (column a ts) w_ext;
    argrelmin (np_diff (column a ts)) w_ext;
    argrelmax (np_diff (column a ts)) w_ext ].

(** An index is an extremum of the series on the dimension subset: it is
    in one of the four arrays of one of the axes. *)
Definition is_extremum (w_ext : Z) (ts : series) (dim_s : list nat) (i : Z) : Prop :=
  exists a ids, a ∈ dim_s /\ ids ∈ four_extrema w_ext ts a /\ i ∈ ids.

Lemma axis_extrema_pure_ok w_ext data ts_id ts a :
  data !! ts_id = Some ts -> (a < shape1 ts)%nat ->
  axis_extrema_pure w_ext data ts_id a = Ok (four_extrema w_ext ts a).
Proof.
  intros Hts Ha.
  assert (Hsig : axis_signal data (ts_id, a) = Ok (column a ts)).
  { unfold axis_signal, list_get. cbn [fst snd]. rewrite Hts.
    cbn [mbind py_bind]. apply Nat.ltb_lt in Ha. now rewrite Ha. }
  unfold axis_extrema_pure, minima_factory, maxima_factory,
    derivative_minima_factory, derivative_maxima_factory.
  rewrite Hsig. reflexivity.
Qed.

Lemma collect_ids_pure_app w_ext data ts_id ts dim_s acc :
  data !! ts_id = Some ts ->
  Forall (fun a => (a < shape1 ts)%nat) dim_s ->
  py_foldl (fun ids a => four ← axis_extrema_pure w_ext data ts_id a; Ok (ids ++ four))
           dim_s acc
  = Ok (acc ++ concat (map (four_extrema w_ext ts) dim_s)).
Proof.
  intros Hts H. revert acc. induction H as [|a dim_s Ha _ IH]; intros acc; cbn.
  - now rewrite app_nil_r.
  - rewrite (axis_extrema_pure_ok w_ext data ts_id ts a Hts Ha). cbn.
    rewrite IH. now rewrite <- app_assoc.
Qed.

Lemma collect_ids_pure_ok w_ext data ts_id ts dim_s :
  data !! ts_id = Some ts ->
  Forall (fun a => (a < shape1 ts)%nat) dim_s ->
  collect_ids_pure w_ext data ts_id dim_s
  = Ok (concat (map (four_extrema w_ext ts) dim_s)).
Proof. intros Hts H. exact (collect_ids_pure_app w_ext data ts_id ts dim_s [] Hts H). Qed.

Lemma collect_ids_ok w_ext data ts_id ts dim_s c :
  caches_ok w_ext data c ->
  data !! ts_id = Some ts ->
  Forall (fun a => (a < shape1 ts)%nat) dim_s ->
  exists c', collect_ids w_ext data ts_id dim_s c
             = Ok (concat (map (four_extrema w_ext ts) dim_s), c')
             /\ caches_ok w_ext data c'.
Proof.
  intros Hc Hts Hax.
  pose proof (collect_ids_sim w_ext data ts_id dim_s c Hc) as Hsim.
  rewrite (collect_ids_pure_ok w_ext data ts_id ts dim_s Hts Hax) in Hsim.
  destruct (collect_ids w_ext data ts_id dim_s c) as [[ids c']|e]; [|contradiction].
  cbn in Hsim. destruct Hsim as [-> Hc']. now exists c'.
Qed.

Lemma elem_of_concat {A} (x : A) (ls : list (list A)) :
  x ∈ concat ls <-> exists l, x ∈ l /\ l ∈ ls.
Proof.
  induction ls as [|l ls IH]; cbn.
  - split; [inversion 1|]. intros (l & _ & H). inversion H.
  - rewrite elem_of_app, IH. split.
    + intros [H|(l' & H1 & H2)]; [exists l | exists l'];
        (split; [assumption|]); [constructor | now constructor].
    + intros (l' & H1 & H2). apply elem_of_cons in H2 as [->|H2]; eauto.
Qed.

Lemma is_extremum_concat w_ext ts dim_s i :
  is_extremum w_ext ts dim_s i
  <-> i ∈ concat (concat (map (four_extrema w_ext ts) dim_s)).
Proof.
  unfold is_extremum. rewrite elem_of_concat. split.
  - intros (a & ids & Ha & Hids & Hi). exists ids. split; [exact Hi|].
    apply elem_of_concat. exists (four_extrema w_ext ts a).
    split; [exact Hids|]. now apply list_elem_of_fmap_2.
  - intros (ids & Hi & Hids). apply elem_of_concat in Hids as (four & Hids & Hfour).
    apply list_elem_of_fmap in Hfour as (a & -> & Ha). eauto.
Qed.

Lemma no_extremum_all_empty w_ext ts dim_s :
  (forall i, ~ is_extremum w_ext ts dim_s i) ->
  Forall (fun x => x = []) (concat (map (four_extrema w_ext ts) dim_s)).
Proof.
  intros H. apply Forall_forall. intros ids Hids.
  destruct ids as [|i ids]; [reflexivity|]. exfalso. apply (H i).
  apply is_extremum_concat, elem_of_concat. exists (i :: ids).
  split; [constructor | exact Hids].
Qed.

Lemma some_extremum_not_all_empty w_ext ts dim_s i :
  is_extremum w_ext ts dim_s i ->
  ~ Forall (fun x => x = []) (concat (map (four_extrema w_ext ts) dim_s)).
Proof.
  intros Hi Hall. apply is_extremum_concat, elem_of_concat in Hi
    as (ids & Hi & Hids).
  rewrite Forall_forall in Hall. rewrite (Hall ids Hids) in Hi. inversion Hi.
Qed.

(** [np_take] with indices in range. *)
Lemma np_getitem_ok {A} (a : list A) (i : Z) :
  0 <= i < shape0 a -> exists x, np_getitem a i = Ok x /\ a !! Z.to_nat i = Some x.
Proof.
  intros Hi. unfold np_getitem, shape0 in *.
  destruct (Z.ltb_spec i 0); [lia|].
  destruct (Z.ltb_spec i 0); [lia|].
  destruct (Z.leb_spec (Z.of_nat (length a)) i); [lia|]. cbn.
  destruct (lookup_lt_is_Some_2 a (Z.to_nat i)) as [x Hx]; [lia|].
  rewrite Hx. eauto.
Qed.

Lemma np_take_ok {A} (a : list A) (ids : list Z) :
  Forall (fun i => 0 <= i < shape0 a) ids ->
  exists xs, np_take a ids = Ok xs
             /\ Forall2 (fun i x => a !! Z.to_nat i = Some x) ids xs.
Proof.
  induction 1 as [|i ids Hi _ (xs & Hxs & Hall)]; cbn.
  - exists []. split; [reflexivity | constructor].
  - destruct (np_getitem_ok a i Hi) as (x & Hx & Hlook).
    rewrite Hx, Hxs. cbn. exists (x :: xs). split; [reflexivity|].
    now constructor.
Qed.

(** After the loop over the labels of a series, the pool of each of them
    contains every candidate of the series. *)
Lemma add_candidates_lookup shapelets all_shapelets l l' :
  (exists pool, all_shapelets !! l' = Some pool /\ shapelets ⊆ pool) ->
  exists pool, add_candidates shapelets all_shapelets l !! l' = Some pool
               /\ shapelets ⊆ pool.
Proof.
  intros (pool & Hpool & Hsub). unfold add_candidates.
  destruct (decide (l = l')) as [->|Hne].
  - rewrite Hpool, lookup_insert_eq. exists (pool ++ shapelets).
    split; [reflexivity|]. intros s Hs. apply elem_of_app. now right.
  - destruct (all_shapelets !! l); rewrite lookup_insert_ne by exact Hne; eauto.
Qed.

Lemma add_candidates_self shapelets all_shapelets l :
  exists pool, add_candidates shapelets all_shapelets l !! l = Some pool
               /\ shapelets ⊆ pool.
Proof.
  unfold add_candidates. destruct (all_shapelets !! l) as [old|];
    rewrite lookup_insert_eq; eexists; (split; [reflexivity|]).
  - intros s Hs. apply elem_of_app. now right.
  - reflexivity.
Qed.

Lemma add_candidates_all shapelets labels all_shapelets l :
  l ∈ labels ->
  exists pool, fold_left (add_candidates shapelets) labels all_shapelets !! l = Some pool
               /\ shapelets ⊆ pool.
Proof.
  assert (Hkeep : forall labels all_shapelets,
    (exists pool, all_shapelets !! l = Some pool /\ shapelets ⊆ pool) ->
    exists pool, fold_left (add_candidates shapelets) labels all_shapelets !! l = Some pool
                 /\ shapelets ⊆ pool).
  { clear labels all_shapelets. induction labels as [|l' labels IH]; intros all H; cbn.
    - exact H.
    - apply IH. now apply add_candidates_lookup. }
  revert all_shapelets. induction labels as [|l' labels IH]; intros all Hl; cbn.
  - inversion Hl.
  - apply elem_of_cons in Hl as [->|Hl].
    + apply Hkeep. apply add_candidates_self.
    + now apply IH.
Qed.

Lemma select_axes_ok dim_s z :
  dim_s <> [] -> exists zs, select_axes dim_s z = Ok zs /\ length zs = length z.
Proof.
  intros H. destruct dim_s as [|a dim_s]; [congruence|].
  eexists. split; [reflexivity|]. apply length_map.
Qed.

(** Where a series has an extremum on the dimension subset and the window
    fits, its start offsets are the distinct values of the extrema
    shifted left by half the window and clamped into
    [[0, length - window]]; the subsequences at these offsets are added to
    the pool of every label of the series. *)
Lemma prune_series_offsets w_ext data target z_data shapelet_length dim_s
    all_shapelets c ts_id ts z labels i0 :
  caches_ok w_ext data c ->
  data !! ts_id = Some ts ->
  Forall (fun a => (a < shape1 ts)%nat) dim_s ->
  shapelet_length <= shape0 ts ->
  z_data !! (ts_id, shapelet_length) = Some z ->
  shape0 z = shape0 ts - shapelet_length + 1 ->
  target !! ts_id = Some labels ->
  is_extremum w_ext ts dim_s i0 ->
  exists offsets zs shapelets c',
    prune_series w_ext data target z_data shapelet_length dim_s
                 (all_shapelets, c) (ts_id, ts)
    = Ok (fold_left (add_candidates shapelets) labels all_shapelets, c')
    /\ caches_ok w_ext data c'
    /\ NoDup offsets
    /\ (forall o, o ∈ offsets <->
          exists i, is_extremum w_ext ts dim_s i
                    /\ o = clamp 0 (shape0 ts - shapelet_length)
                                 (i - shapelet_length / 2))
    /\ select_axes dim_s z = Ok zs
    /\ Forall2 (fun o s => zs !! Z.to_nat o = Some s) offsets shapelets
    /\ (forall l, l ∈ labels ->
          exists pool,
            fold_left (add_candidates shapelets) labels all_shapelets !! l = Some pool
            /\ shapelets ⊆ pool).
Proof.
  intros Hc Hts Hax HL Hz Hzlen Hlab Hext.
  destruct (collect_ids_ok w_ext data ts_id ts dim_s c Hc Hts Hax) as (c' & Hcol & Hc').
  set (ids := concat (map (four_extrema w_ext ts) dim_s)) in *.
  set (offsets := np_unique (map (start_offset shapelet_length (shape0 ts)) (concat ids))).
  assert (Hdim : dim_s <> []).
  { destruct Hext as (a & _ & Ha & _). intros ->. inversion Ha. }
  destruct (select_axes_ok dim_s z Hdim) as (zs & Hzs & Hzslen).
  assert (Hmem : forall o, o ∈ offsets <->
            exists i, is_extremum w_ext ts dim_s i
                      /\ o = clamp 0 (shape0 ts - shapelet_length)
                                   (i - shapelet_length / 2)).
  { intros o. unfold offsets. rewrite np_unique_elem, list_elem_of_fmap.
    split.
    - intros (i & -> & H2). exists i. split; [now apply is_extremum_concat|].
      exact (proj1 (start_offset_clamp _ _ i HL)).
    - intros (i & H1 & ->). exists i. split; [|now apply is_extremum_concat].
      symmetry. exact (proj1 (start_offset_clamp _ _ i HL)). }
  assert (Hrange : Forall (fun o => 0 <= o < shape0 zs) offsets).
  { apply Forall_forall. intros o Ho. apply Hmem in Ho as (i & _ & ->).
    unfold shape0 in *. rewrite Hzslen. unfold clamp. lia. }
  destruct (np_take_ok zs offsets Hrange) as (shapelets & Htake & Hall).
  exists offsets, zs, shapelets, c'.
  split; [|split; [exact Hc'|split; [apply np_unique_NoDup|split; [exact Hmem|
    split; [exact Hzs|split; [exact Hall|]]]]]].
  - unfold prune_series. cbn [fst snd]. rewrite Hcol. cbn [mbind py_bind fst snd].
    unfold add_series_candidates.
    rewrite candidate_offsets_ok by exact (some_extremum_not_all_empty _ _ _ _ Hext).
    fold offsets. cbn [mbind py_bind]. unfold dict_get. rewrite Hz.
    cbn [mbind py_bind]. rewrite Hzs. cbn [mbind py_bind].
    unfold list_get. rewrite Hlab. cbn [mbind py_bind]. rewrite Htake. reflexivity.
  - intros l Hl. now apply add_candidates_all.
Qed.

(** A series without any extremum on the dimension subset makes the loop
    body raise [ValueError], from [np.concatenate] applied to the empty
    list of non-empty index arrays. *)
Lemma prune_series_raises w_ext data target z_data shapelet_length dim_s
    all_shapelets c ts_id ts :
  caches_ok w_ext data c ->
  data !! ts_id = Some ts ->
  Forall (fun a => (a < shape1 ts)%nat) dim_s ->
  (forall i, ~ is_extremum w_ext ts dim_s i) ->
  prune_series w_ext data target z_data shapelet_length dim_s
               (all_shapelets, c) (ts_id, ts)
  = Raise ValueError.
Proof.
  intros Hc Hts Hax Hnone.
  destruct (collect_ids_ok w_ext data ts_id ts dim_s c Hc Hts Hax) as (c' & Hcol & _).
  unfold prune_series. cbn [fst snd]. rewrite Hcol. cbn [mbind py_bind fst snd].
  unfold add_series_candidates.
  rewrite candidate_offsets_raises by now apply no_extremum_all_empty.
  reflexivity.
Qed.

(** C4: for a series whose window fits, the loop body of pruning has two
    outcomes.  If the series has an extremum on the dimension subset, its
    start offsets are, without repetition, the extrema shifted left by half
    the window length and clamped into [[0, length - window]], and the
    subsequences at these offsets are added to the pool of every label of
    the series, as the claim says.  If it has none, the claim gives it the
    empty set of offsets, whereas the code raises [ValueError]. *)
Theorem prune_series_cases w_ext data target z_data shapelet_length dim_s
    all_shapelets c ts_id ts z labels :
  caches_ok w_ext data c ->
  data !! ts_id = Some ts ->
  Forall (fun a => (a < shape1 ts)%nat) dim_s ->
  shapelet_length <= shape0 ts ->
  z_data !! (ts_id, shapelet_length) = Some z ->
  shape0 z = shape0 ts - shapelet_length + 1 ->
  target !! ts_id = Some labels ->
  ((forall i, ~ is_extremum w_ext ts dim_s i) ->
   prune_series w_ext data target z_data shapelet_length dim_s
                (all_shapelets, c) (ts_id, ts)
   = Raise ValueError)
  /\ ((exists i, is_extremum w_ext ts dim_s i) ->
      exists offsets zs shapelets c',
        prune_series w_ext data target z_data shapelet_length dim_s
                     (all_shapelets, c) (ts_id, ts)
        = Ok (fold_left (add_candidates shapelets) labels all_shapelets, c')
        /\ NoDup offsets
        /\ (forall o, o ∈ offsets <->
              exists i, is_extremum w_ext ts dim_s i
                        /\ o = clamp 0 (shape0 ts - shapelet_length)
                                     (i - shapelet_length / 2))
        /\ select_axes dim_s z = Ok zs
        /\ Forall2 (fun o s => zs !! Z.to_nat o = Some s) offsets shapelets
        /\ (forall l, l ∈ labels ->
              exists pool,
                fold_left (add_candidates shapelets) labels all_shapelets !! l
                = Some pool
                /\ shapelets ⊆ pool)).
Proof.
  intros Hc Hts Hax HL Hz Hzlen Hlab. split.
  - now apply prune_series_raises.
  - intros [i0 Hext].
    destruct (prune_series_offsets w_ext data target z_data shapelet_length dim_s
                all_shapelets c ts_id ts z labels i0 Hc Hts Hax HL Hz Hzlen Hlab Hext)
      as (offsets & zs & shapelets & c' & H1 & _ & H2 & H3 & H4 & H5 & H6).
    exists offsets, zs, shapelets, c'. auto 10.
Qed.

Lemma prune_series_caches_ok w_ext data target z_data shapelet_length dim_s st it st' :
  caches_ok w_ext data st.2 ->
  prune_series w_ext data target z_data shapelet_length dim_s st it = Ok st' ->
  caches_ok w_ext data st'.2.
Proof.
  intros Hc. unfold prune_series.
  pose proof (collect_ids_sim w_ext data it.1 dim_s st.2 Hc) as Hsim.
  destruct (collect_ids w_ext data it.1 dim_s st.2) as [r|e]; [|discriminate].
  destruct (collect_ids_pure w_ext data it.1 dim_s); [|contradiction].
  cbn in Hsim. destruct Hsim as [_ Hr]. cbn [mbind py_bind].
  destruct (add_series_candidates _ _ _ _ _ _ _ _); [|discriminate].
  cbn. intros [= <-]. exact Hr.
Qed.

(** A loop raises as soon as its body raises at one of the elements in
    every state that the loop can be in. *)
Lemma py_foldl_raises {A B} (P : B -> Prop) (body : B -> A -> py B)
    (xs : list A) (x0 : A) (acc : B) :
  P acc ->
  (forall x b b', P b -> body b x = Ok b' -> P b') ->
  x0 ∈ xs ->
  (forall b, P b -> exists e, body b x0 = Raise e) ->
  exists e, py_foldl body xs acc = Raise e.
Proof.
  intros Hacc Hstep Hin Hraise. revert acc Hacc.
  induction xs as [|x xs IH]; intros acc Hacc; [inversion Hin|].
  cbn. apply elem_of_cons in Hin as [<-|Hin].
  - destruct (Hraise acc Hacc) as [e ->]. now exists e.
  - destruct (body acc x) as [b'|e] eqn:E; [|now exists e].
    cbn. apply IH; [exact Hin|]. exact (Hstep x acc b' Hacc E).
Qed.

(** C8: pruning does not complete on data that contains a series without
    any extremum on the chosen dimension subset: it raises. *)
Theorem prune_shapelet_candidates_no_extrema (self : ShapeletFinder)
    data target z_data shapelet_length dim_s c ts_id ts :
  caches_ok (w_ext self) data c ->
  data !! ts_id = Some ts ->
  Forall (fun a => (a < shape1 ts)%nat) dim_s ->
  (forall a ids, a ∈ dim_s -> ids ∈ four_extrema (w_ext self) ts a -> ids = []) ->
  exists e,
    prune_shapelet_candidates self data target z_data shapelet_length dim_s c
    = Raise e.
Proof.
  intros Hc Hts Hax Hempty.
  assert (Hnone : forall i, ~ is_extremum (w_ext self) ts dim_s i).
  { intros i (a & ids & Ha & Hids & Hi). rewrite (Hempty a ids Ha Hids) in Hi.
    inversion Hi. }
  unfold prune_shapelet_candidates.
  destruct (py_foldl_raises
              (fun st : gmap label (list subseq) * extrema =>
                 caches_ok (w_ext self) data st.2)
              (prune_series (w_ext self) data target z_data shapelet_length dim_s)
              (enumerate data) (ts_id, ts) (∅, c)) as [e He].
  - exact Hc.
  - intros x b b' Hb. now apply prune_series_caches_ok.
  - now apply elem_of_enumerate.
  - intros [all c1] Hc1. exists ValueError.
    now apply prune_series_raises.
  - exists e. now rewrite He.
Qed.

(** *** Loops that return *)

Lemma py_map_ok {A B} (f : A -> py B) (g : A -> B) (xs : list A) :
  Forall (fun x => f x = Ok (g x)) xs -> py_map f xs = Ok (map g xs).
Proof.
  induction 1 as [|x xs Hx _ IH]; cbn; [reflexivity|]. now rewrite Hx, IH.
Qed.

Lemma py_map_Forall2 {A B} (f : A -> py B) (xs : list A) (ys : list B) :
  py_map f xs = Ok ys -> Forall2 (fun x y => f x = Ok y) xs ys.
Proof.
  revert ys. induction xs as [|x xs IH]; intros ys; cbn.
  - intros [= <-]. constructor.
  - destruct (f x) as [y|e] eqn:E; [|discriminate]. cbn.
    destruct (py_map f xs) as [ys'|e]; [|discriminate]. cbn.
    intros [= <-]. constructor; [exact E | now apply IH].
Qed.

Lemma py_map_total {A B} (f : A -> py B) (xs : list A) :
  Forall (fun x => exists y, f x = Ok y) xs -> exists ys, py_map f xs = Ok ys.
Proof.
  induction 1 as [|x xs [y Hy] _ [ys IH]]; cbn; [now exists []|].
  rewrite Hy, IH. now exists (y :: ys).
Qed.

(** A loop whose body keeps an invariant [P], moves the state along a
    preorder [R] and establishes [Q x] at element [x], where [Q x] is
    stable along [R]. *)
Lemma py_foldl_inv {A B} (P : B -> Prop) (R : B -> B -> Prop)
    (Q : A -> B -> Prop) (body : B -> A -> py B) (xs : list A) (acc : B) :
  (forall b, R b b) ->
  (forall b1 b2 b3, R b1 b2 -> R b2 b3 -> R b1 b3) ->
  (forall x b b', Q x b -> R b b' -> Q x b') ->
  (forall x b, x ∈ xs -> P b ->
     exists b', body b x = Ok b' /\ P b' /\ R b b' /\ Q x b') ->
  P acc ->
  exists b', py_foldl body xs acc = Ok b' /\ P b' /\ R acc b'
             /\ forall x, x ∈ xs -> Q x b'.
Proof.
  intros Hrefl Htrans Hstable. revert acc.
  induction xs as [|x xs IH]; intros acc Hbody Hacc; cbn.
  - exists acc. split; [reflexivity|]. split; [exact Hacc|].
    split; [apply Hrefl|]. intros x Hx. inversion Hx.
  - destruct (Hbody x acc) as (b & Hb & HP & HR & HQ); [constructor | exact Hacc|].
    rewrite Hb. cbn.
    destruct (IH b) as (b' & Hb' & HP' & HR' & HQ'); [|exact HP|].
    { intros y c Hy. apply Hbody. now constructor. }
    exists b'. split; [exact Hb'|]. split; [exact HP'|].
    split; [exact (Htrans _ _ _ HR HR')|].
    intros y Hy. apply elem_of_cons in Hy as [->|Hy]; [|now apply HQ'].
    exact (Hstable _ _ _ HQ HR').
Qed.

(** *** [build_classifier] on an empty pool *)

Lemma build_classifier_nil data dist target l dim_s :
  build_classifier data dist [] target l dim_s = Raise IndexError.
Proof. reflexivity. Qed.

(** C7: on an empty candidate pool [build_classifier] raises
    [IndexError], from reading the length of the first shapelet, where the
    claim expects the empty list of classifiers; and a combination with an
    empty pool makes the search of the best classifier of its label
    raise. *)
Theorem build_classifier_empty_pool (data : list series) (dist : dist_dict)
    (target : list Z) (l : label) (dim_s : list nat)
    (shapelets : shapelets_dict) (dimensions_subsets : list (list nat))
    (windows : list Z) (binary : list Z) :
  build_classifier data dist [] target l dim_s = Raise IndexError
  /\ (forall dimension_subset window,
        dimension_subset ∈ dimensions_subsets -> window ∈ windows ->
        shapelets !! (l, dimension_subset, window) = Some [] ->
        exists e, best_classifier data dist shapelets dimensions_subsets
                                  windows l binary = Raise e).
Proof.
  split; [reflexivity|].
  intros ds w Hds Hw Hpool. unfold best_classifier.
  destruct (Counter _ l) as [c|e]; [|now exists e]. cbn [mbind py_bind].
  destruct (printProgress c 0) as [[]|e]; [|now exists e]. cbn [mbind py_bind].
  apply list_elem_of_lookup_1 in Hds as [ds_i Hds].
  apply list_elem_of_lookup_1 in Hw as [w_i Hw].
  apply (py_foldl_raises (fun _ => True) _ (enumerate dimensions_subsets) (ds_i, ds) None);
    [exact I | auto | now apply elem_of_enumerate |].
  intros bsf _.
  apply (py_foldl_raises (fun _ => True) _ (enumerate windows) (w_i, w) bsf);
    [exact I | auto | now apply elem_of_enumerate |].
  intros bsf' _. exists IndexError.
  unfold search_combination, dict_get. rewrite Hpool. reflexivity.
Qed.

(** *** [precompute_bmd] stores best-matching distances *)

(** [m] is the best-matching distance of shapelet [s] to a series whose
    subsequences are [ts]: the minimum of the distances of [s] to the
    subsequences at all start positions. *)
Definition best_matching_distance (s : subseq) (ts : list subseq) (m : Q) : Prop :=
  m ∈ map (distance s) ts /\ forall t, t ∈ ts -> (m <= distance s t)%Q.

(** [v] is the best-matching distance that belongs under [key]. *)
Definition is_bmd (shapelets : shapelets_dict) (z_data : z_data_dict)
    (key : nat * nat * label * Z * list nat) (v : Q) : Prop :=
  let '(ts_id, shapelet_id, l, shapelet_length, axis) := key in
  exists pool s z ts,
    shapelets !! (l, axis, shapelet_length) = Some pool
    /\ pool !! shapelet_id = Some s
    /\ z_data !! (ts_id, shapelet_length) = Some z
    /\ select_axes axis z = Ok ts
    /\ best_matching_distance s ts v.

Definition bmd_good (shapelets : shapelets_dict) (z_data : z_data_dict)
    (dist : dist_dict) : Prop :=
  forall key v, dist !! key = Some v -> is_bmd shapelets z_data key v.

Definition dict_grows (dist dist' : dist_dict) : Prop :=
  forall key, is_Some (dist !! key) -> is_Some (dist' !! key).

Lemma dict_grows_refl (dist : dist_dict) : dict_grows dist dist.
Proof. intros key H. exact H. Qed.

Lemma dict_grows_trans (d1 d2 d3 : dist_dict) :
  dict_grows d1 d2 -> dict_grows d2 d3 -> dict_grows d1 d3.
Proof. intros H1 H2 key H. apply H2, H1, H. Qed.

Lemma dict_grows_insert (dist : dist_dict) (key : nat * nat * label * Z * list nat)
    (v : Q) : dict_grows dist (<[key := v]> dist).
Proof.
  intros key' H. destruct (decide (key = key')) as [<-|Hne].
  - rewrite lookup_insert_eq. eauto.
  - now rewrite lookup_insert_ne.
Qed.

Lemma bmd_good_insert (shapelets : shapelets_dict) (z_data : z_data_dict)
    (dist : dist_dict) (key : nat * nat * label * Z * list nat) (v : Q) :
  bmd_good shapelets z_data dist -> is_bmd shapelets z_data key v ->
  bmd_good shapelets z_data (<[key := v]> dist).
Proof.
  intros Hgood Hv key' v' H. destruct (decide (key = key')) as [<-|Hne].
  - rewrite lookup_insert_eq in H. now injection H as <-.
  - rewrite lookup_insert_ne in H by exact Hne. now apply Hgood.
Qed.

Lemma np_min_bmd s ts v :
  np_min (map (distance s) ts) = Ok v -> best_matching_distance s ts v.
Proof.
  intros H. apply np_min_spec in H as [Hin Hle]. split; [exact Hin|].
  intros t Ht. apply Hle. now apply list_elem_of_fmap_2.
Qed.

(** The loop over the shapelets of one label, entered at shapelet
    [start] with the counter at [i]. *)
Lemma bmd_store_pool (shapelets : shapelets_dict) (z_data : z_data_dict)
    (d_m : list Q) (ts_id : nat) (axis : list nat) (shapelet_length : Z) (l : label) :
  forall (rest : list subseq) (start i : nat) (dist : dist_dict),
    (forall j s, rest !! j = Some s ->
       exists v, d_m !! (i + j)%nat = Some v
                 /\ is_bmd shapelets z_data
                           (ts_id, (start + j)%nat, l, shapelet_length, axis) v) ->
    bmd_good shapelets z_data dist ->
    exists dist',
      py_foldl (fun '(dist, i) '(shapelet_id, _) =>
                  v ← list_get d_m i;
                  Ok (<[(ts_id, shapelet_id, l, shapelet_length, axis) := v]> dist, S i))
               (enumerate_from start rest) (dist, i)
      = Ok (dist', (i + length rest)%nat)
      /\ bmd_good shapelets z_data dist'
      /\ dict_grows dist dist'
      /\ forall j, (j < length rest)%nat ->
           is_Some (dist' !! (ts_id, (start + j)%nat, l, shapelet_length, axis)).
Proof.
  induction rest as [|s rest IH]; intros start i dist Hdm Hgood; cbn.
  - exists dist. rewrite Nat.add_0_r. split; [reflexivity|].
    split; [exact Hgood|]. split; [apply dict_grows_refl|]. intros j Hj. lia.
  - destruct (Hdm 0%nat s eq_refl) as (v & Hv & Hbmd).
    rewrite !Nat.add_0_r in *. unfold list_get. rewrite Hv. cbn [mbind py_bind].
    destruct (IH (S start) (S i)
                 (<[(ts_id, start, l, shapelet_length, axis) := v]> dist))
      as (dist' & Hrun & Hgood' & Hgrow & Hcov).
    + intros j s' Hj. destruct (Hdm (S j) s' Hj) as (v' & Hv' & Hbmd').
      exists v'. replace (S i + j)%nat with (i + S j)%nat by lia.
      replace (S start + j)%nat with (start + S j)%nat by lia. auto.
    + now apply bmd_good_insert.
    + exists dist'. replace (i + S (length rest))%nat with (S i + length rest)%nat by lia.
      split; [exact Hrun|]. split; [exact Hgood'|].
      split; [exact (dict_grows_trans _ _ _ (dict_grows_insert _ _ _) Hgrow)|].
      intros [|j] Hj.
      * rewrite Nat.add_0_r. apply Hgrow. rewrite lookup_insert_eq. eauto.
      * replace (start + S j)%nat with (S start + j)%nat by lia. apply Hcov. lia.
Qed.

(** The loop over the labels, entered with the counter at the length of
    the part [pre] of [muh] that belongs to the labels already done. *)
Lemma bmd_store_labels (shapelets : shapelets_dict) (z_data : z_data_dict)
    (d_m : list Q) (ts_id : nat) (axis : list nat) (shapelet_length : Z)
    (z ts : list subseq) :
  z_data !! (ts_id, shapelet_length) = Some z ->
  select_axes axis z = Ok ts ->
  forall (labels : list label) (pools : list (list subseq)) (pre : list subseq)
         (dist : dist_dict),
    Forall2 (fun l pool => shapelets !! (l, axis, shapelet_length) = Some pool)
            labels pools ->
    (forall p s, (pre ++ concat pools) !! p = Some s ->
       exists v, d_m !! p = Some v /\ best_matching_distance s ts v) ->
    bmd_good shapelets z_data dist ->
    exists r,
      py_foldl (bmd_store_label shapelets d_m ts_id axis shapelet_length)
               labels (dist, length pre) = Ok r
      /\ bmd_good shapelets z_data r.1
      /\ dict_grows dist r.1
      /\ forall l pool (shapelet_id : nat),
           l ∈ labels -> shapelets !! (l, axis, shapelet_length) = Some pool ->
           (shapelet_id < length pool)%nat ->
           is_Some (r.1 !! (ts_id, shapelet_id, l, shapelet_length, axis)).
Proof.
  intros Hz Hts labels pools pre dist Hpools. revert pre dist.
  induction Hpools as [|l pool labels pools Hpool _ IH]; intros pre dist Hdm Hgood.
  - exists (dist, length pre). cbn. split; [reflexivity|].
    split; [exact Hgood|]. split; [apply dict_grows_refl|].
    intros l pool sid Hl. inversion Hl.
  - destruct (bmd_store_pool shapelets z_data d_m ts_id axis shapelet_length l
                             pool 0%nat (length pre) dist)
      as (dist1 & Hrun & Hgood1 & Hgrow1 & Hcov1).
    + intros j s Hj. destruct (Hdm (length pre + j)%nat s) as (v & Hv & Hbmd).
      { cbn [concat]. rewrite lookup_app_r by lia.
        replace (length pre + j - length pre)%nat with j by lia.
        now apply lookup_app_l_Some. }
      exists v. split; [exact Hv|]. cbn. exists pool, s, z, ts. auto.
    + exact Hgood.
    + assert (Hstep : bmd_store_label shapelets d_m ts_id axis shapelet_length
                                      (dist, length pre) l
                      = Ok (dist1, (length pre + length pool)%nat)).
      { unfold bmd_store_label, dict_get. rewrite Hpool. exact Hrun. }
      cbn [py_foldl]. rewrite Hstep. cbn [mbind py_bind].
      destruct (IH (pre ++ pool) dist1) as (r & Hr & Hgood' & Hgrow' & Hcov').
      * intros p s Hp. apply Hdm. cbn [concat]. now rewrite app_assoc.
      * exact Hgood1.
      * rewrite length_app in Hr. exists r. split; [exact Hr|].
        split; [exact Hgood'|].
        split; [exact (dict_grows_trans _ _ _ Hgrow1 Hgrow')|].
        intros l' pool' sid Hl' Hpool' Hsid.
        apply elem_of_cons in Hl' as [->|Hl'].
        -- apply Hgrow'. assert (pool' = pool) as -> by congruence.
           exact (Hcov1 sid Hsid).
        -- now apply (Hcov' l' pool').
Qed.

Lemma min_axis1_rows (muh ts : list subseq) :
  ts <> [] ->
  exists d_m,
    min_axis1 (distance_matrix3D muh ts) (length ts) = Ok d_m
    /\ forall p s, muh !! p = Some s ->
         exists v, d_m !! p = Some v /\ best_matching_distance s ts v.
Proof.
  intros Hts. unfold min_axis1, distance_matrix3D.
  destruct ts as [|t ts]; [congruence|]. cbn [length].
  destruct (py_map_total np_min (map (fun s => map (distance s) (t :: ts)) muh))
    as [d_m Hd_m].
  { apply Forall_forall. intros row Hrow.
    apply list_elem_of_fmap in Hrow as (s & -> & _).
    apply np_min_nonempty. discriminate. }
  exists d_m. split; [exact Hd_m|].
  apply py_map_Forall2 in Hd_m. intros p s Hp.
  assert (Hrow : map (fun s => map (distance s) (t :: ts)) muh !! p
                 = Some (map (distance s) (t :: ts))).
  { rewrite list_lookup_fmap, Hp. reflexivity. }
  destruct (Forall2_lookup_l _ _ _ _ _ Hd_m Hrow) as (v & Hv & Hmin).
  exists v. split; [exact Hv | now apply np_min_bmd].
Qed.

(** What one block stores: an entry for every shapelet of every label. *)
Definition bmd_covers (shapelets : shapelets_dict) (unique_labels : list label)
    (ts_id : nat) (axis : list nat) (shapelet_length : Z) (dist : dist_dict) : Prop :=
  forall l pool (shapelet_id : nat),
    l ∈ unique_labels -> shapelets !! (l, axis, shapelet_length) = Some pool ->
    (shapelet_id < length pool)%nat ->
    is_Some (dist !! (ts_id, shapelet_id, l, shapelet_length, axis)).

Lemma bmd_block_spec (shapelets : shapelets_dict) (z_data : z_data_dict)
    (unique_labels : list label) (ts_id : nat) (axis : list nat)
    (dist : dist_dict) (shapelet_length : Z) (z : list subseq) :
  unique_labels <> [] ->
  (forall l, l ∈ unique_labels ->
     is_Some (shapelets !! (l, axis, shapelet_length))) ->
  z_data !! (ts_id, shapelet_length) = Some z -> z <> [] -> axis <> [] ->
  bmd_good shapelets z_data dist ->
  exists dist',
    bmd_block shapelets z_data unique_labels ts_id axis dist shapelet_length = Ok dist'
    /\ bmd_good shapelets z_data dist'
    /\ dict_grows dist dist'
    /\ bmd_covers shapelets unique_labels ts_id axis shapelet_length dist'.
Proof.
  intros Hlabels Hpools Hz Hzne Haxis Hgood. unfold bmd_block.
  destruct (py_map_total
              (fun l => dict_get shapelets (l, axis, shapelet_length)) unique_labels)
    as [pools Hmap].
  { apply Forall_forall. intros l Hl. destruct (Hpools l Hl) as [pool Hpool].
    exists pool. unfold dict_get. now rewrite Hpool. }
  rewrite Hmap. cbn [mbind py_bind].
  assert (HF : Forall2 (fun l pool => shapelets !! (l, axis, shapelet_length) = Some pool)
                       unique_labels pools).
  { apply py_map_Forall2 in Hmap. eapply Forall2_impl; [exact Hmap|].
    intros l pool. unfold dict_get.
    destruct (shapelets !! (l, axis, shapelet_length)); [congruence | discriminate]. }
  assert (Hne : pools <> []).
  { intros ->. apply Forall2_nil_inv_r in HF. contradiction. }
  destruct pools as [|pool0 pools0] eqn:Epools; [congruence|].
  rewrite <- Epools in *. clear Epools Hne.
  replace (np_concatenate pools) with (Ok (concat pools))
    by (destruct pools; [inversion HF; subst; congruence | reflexivity]).
  cbn [mbind py_bind]. unfold dict_get at 1. rewrite Hz. cbn [mbind py_bind].
  destruct (select_axes_ok axis z Haxis) as (ts & Hts & Hlen).
  rewrite Hts. cbn [mbind py_bind].
  assert (Htsne : ts <> []).
  { intros ->. destruct z; [congruence | discriminate]. }
  destruct (min_axis1_rows (concat pools) ts Htsne) as (d_m & Hd_m & Hrows).
  rewrite Hd_m. cbn [mbind py_bind].
  destruct (bmd_store_labels shapelets z_data d_m ts_id axis shapelet_length z ts
              Hz Hts unique_labels pools [] dist HF)
    as (r & Hr & Hgood' & Hgrow & Hcov); [exact Hrows | exact Hgood |].
  cbn [length] in Hr. rewrite Hr. cbn [mbind py_bind].
  exists r.1. split; [reflexivity|]. split; [exact Hgood'|].
  split; [exact Hgrow | exact Hcov].
Qed.

(** A subsequence restricted to a dimension subset, in the words of the
    specification: every sample keeps its values on the axes of the
    subset, in the order of the subset. *)
Definition restrict_to (axis : list nat) (sub : subseq) : subseq :=
  map (fun sample => map (fun a => nth a sample 0%Q) axis) sub.

(** Column [k] of the restriction is the column of the [k]-th axis of the
    subset. *)
Lemma restrict_to_column (axis : list nat) (sub : subseq) (k a : nat) :
  axis !! k = Some a -> column k (restrict_to axis sub) = column a sub.
Proof.
  intros Hk. unfold column, restrict_to. rewrite map_map. apply map_ext.
  intros sample.
  rewrite (nth_lookup_Some (map (fun a => nth a sample 0%Q) axis) k 0%Q
             (nth a sample 0%Q)); [reflexivity|].
  rewrite list_lookup_fmap, Hk. reflexivity.
Qed.

Lemma select_axes_restrict (axis : list nat) (z : list subseq) :
  axis <> [] -> select_axes axis z = Ok (map (restrict_to axis) z).
Proof. destruct axis; [congruence | reflexivity]. Qed.

(** When the progress display returns, [precompute_bmd] returns; every
    entry of its dictionary is a best-matching distance, and there is an
    entry for every series, dimension subset, window and shapelet. *)
Lemma precompute_bmd_returns (data : list series) (shapelets : shapelets_dict)
    (z_data : z_data_dict) (unique_labels : list label)
    (dimensions_subsets : list (list nat)) (windows : list Z) :
  progress_returns (shape0 data) "calculating min dist" ->
  unique_labels <> [] ->
  (forall l axis shapelet_length,
     l ∈ unique_labels -> axis ∈ dimensions_subsets -> shapelet_length ∈ windows ->
     is_Some (shapelets !! (l, axis, shapelet_length))) ->
  (forall (ts_id : nat) shapelet_length,
     (ts_id < length data)%nat -> shapelet_length ∈ windows ->
     exists z, z_data !! (ts_id, shapelet_length) = Some z /\ z <> []) ->
  Forall (fun axis => axis <> []) dimensions_subsets ->
  exists dist,
    precompute_bmd data shapelets z_data unique_labels dimensions_subsets windows
    = Ok dist
    /\ bmd_good shapelets z_data dist
    /\ forall (ts_id : nat) axis w,
         (ts_id < length data)%nat -> axis ∈ dimensions_subsets -> w ∈ windows ->
         bmd_covers shapelets unique_labels ts_id axis w dist.
Proof.
  intros (c & Hc & Hprint) Hlabels Hpools Hz Hax.
  unfold precompute_bmd. rewrite Hc. cbn [mbind py_bind].
  rewrite Hprint. cbn [mbind py_bind].
  pose (P := bmd_good shapelets z_data).
  pose (Qw := fun ts_id axis w (d : dist_dict) =>
                bmd_covers shapelets unique_labels ts_id axis w d).
  pose (Qa := fun ts_id axis (d : dist_dict) =>
                forall w, w ∈ windows -> Qw ts_id axis w d).
  pose (Qt := fun ts_id (d : dist_dict) =>
                forall axis, axis ∈ dimensions_subsets -> Qa ts_id axis d).
  assert (Hstable : forall ts_id axis w d d', Qw ts_id axis w d -> dict_grows d d' ->
                                              Qw ts_id axis w d').
  { intros ts_id axis w d d' HQ Hg l pool sid Hl Hp Hs.
    exact (Hg _ (HQ l pool sid Hl Hp Hs)). }
  destruct (py_foldl_inv P dict_grows Qt
    (fun dist ts_id =>
       dist' ← bmd_series shapelets z_data unique_labels dimensions_subsets windows
                          dist ts_id;
       _ ← printProgress c (Z.of_nat ts_id + 1);
       Ok dist')
    (seq 0 (length data)) ∅) as (dist & Hrun & Hgood & _ & Hcov).
  - apply dict_grows_refl.
  - apply dict_grows_trans.
  - intros ts_id d d' HQ Hg axis Haxis w Hw.
    exact (Hstable _ _ _ _ _ (HQ axis Haxis w Hw) Hg).
  - intros ts_id d Hts Hd. apply elem_of_seq in Hts.
    destruct (py_foldl_inv P dict_grows (Qa ts_id)
                (fun dist axis =>
                   py_foldl (bmd_block shapelets z_data unique_labels ts_id axis)
                            windows dist)
                dimensions_subsets d) as (d' & Hrun' & HP' & HR' & HQ');
      [apply dict_grows_refl | apply dict_grows_trans | | | exact Hd |].
    + intros axis d1 d2 HQ Hg w Hw. exact (Hstable _ _ _ _ _ (HQ w Hw) Hg).
    + intros axis d1 Haxis Hd1.
      apply (py_foldl_inv P dict_grows (Qw ts_id axis)); [apply dict_grows_refl
        | apply dict_grows_trans | apply Hstable | | exact Hd1].
      intros w d2 Hw Hd2.
      destruct (Hz ts_id w) as (z & Hzw & Hzne); [lia | exact Hw |].
      apply (bmd_block_spec shapelets z_data unique_labels ts_id axis d2 w z);
        [exact Hlabels | | exact Hzw | exact Hzne | | exact Hd2].
      * intros l Hl. now apply Hpools.
      * rewrite Forall_forall in Hax. now apply Hax.
    + exists d'. unfold bmd_series. rewrite Hrun'. cbn [mbind py_bind].
      rewrite Hprint. cbn [mbind py_bind]. auto.
  - intros key v H. rewrite lookup_empty in H. discriminate.
  - exists dist. split; [exact Hrun|]. split; [exact Hgood|].
    intros ts_id axis w Hts Haxis Hw.
    apply Hcov; [apply elem_of_seq; lia | exact Haxis | exact Hw].
Qed.

(** C2: when the progress display returns, [precompute_bmd] returns, and
    under the key (series id, shapelet id, label, window length, dimension
    subset) the dictionary holds the best-matching distance: the minimum,
    over the subsequences of that length of the series, each restricted to
    the axes of the dimension subset, of the distance between the shapelet
    and the subsequence. *)
Theorem precompute_bmd_spec (data : list series) (shapelets : shapelets_dict)
    (z_data : z_data_dict) (unique_labels : list label)
    (dimensions_subsets : list (list nat)) (windows : list Z) :
  progress_returns (shape0 data) "calculating min dist" ->
  unique_labels <> [] ->
  (forall l axis shapelet_length,
     l ∈ unique_labels -> axis ∈ dimensions_subsets -> shapelet_length ∈ windows ->
     is_Some (shapelets !! (l, axis, shapelet_length))) ->
  (forall (ts_id : nat) shapelet_length,
     (ts_id < length data)%nat -> shapelet_length ∈ windows ->
     exists z, z_data !! (ts_id, shapelet_length) = Some z /\ z <> []) ->
  Forall (fun axis => axis <> []) dimensions_subsets ->
  exists dist,
    precompute_bmd data shapelets z_data unique_labels dimensions_subsets windows
    = Ok dist
    /\ forall (ts_id shapelet_id : nat) l shapelet_length axis pool s z,
         (ts_id < length data)%nat -> axis ∈ dimensions_subsets ->
         shapelet_length ∈ windows -> l ∈ unique_labels ->
         shapelets !! (l, axis, shapelet_length) = Some pool ->
         pool !! shapelet_id = Some s ->
         z_data !! (ts_id, shapelet_length) = Some z ->
         exists m,
           dist !! (ts_id, shapelet_id, l, shapelet_length, axis) = Some m
           /\ best_matching_distance s (map (restrict_to axis) z) m.
Proof.
  intros Hprogress Hlabels Hpools Hz Hax.
  destruct (precompute_bmd_returns data shapelets z_data unique_labels
              dimensions_subsets windows Hprogress Hlabels Hpools Hz Hax)
    as (dist & Hrun & Hgood & Hcov).
  exists dist. split; [exact Hrun|].
  intros ts_id sid l w axis pool s z Hts Haxis Hw Hl Hpool Hs Hzw.
  destruct (Hcov ts_id axis w Hts Haxis Hw l pool sid Hl Hpool) as [m Hm];
    [now apply lookup_lt_Some in Hs|].
  exists m. split; [exact Hm|].
  destruct (Hgood _ _ Hm) as (pool' & s' & z' & ts' & H1 & H2 & H3 & H4 & H5).
  assert (pool' = pool) as -> by congruence.
  assert (s' = s) as -> by congruence.
  assert (z' = z) as -> by congruence.
  rewrite select_axes_restrict in H4
    by (rewrite Forall_forall in Hax; now apply Hax).
  injection H4 as <-. exact H5.
Qed.

(** *** Two runs *)






(** Two finders are set up alike for a run on [data] and [target]: they
    have the same options, their caches hold only extrema of [data], and
    [sigma_min] is the same or is estimated to the same value. *)
Definition same_setup (self1 self2 : ShapeletFinder) (data : list series)
    (target : list (list label)) : Prop :=
  d_max self1 = d_max self2 /\ N_max self1 = N_max self2
  /\ w_ext self1 = w_ext self2 /\ sl_max self1 = sl_max self2
  /\ estimate_sigma_min self1 data target (calc_windows (sl_max self1) (N_max self1))
     = estimate_sigma_min self2 data target (calc_windows (sl_max self2) (N_max self2))
  /\ caches_ok (w_ext self1) data (caches self1)
  /\ caches_ok (w_ext self2) data (caches self2).



Lemma same_setup_refl (self : ShapeletFinder) data target :
  caches_ok (w_ext self) data (caches self) -> same_setup self self data target.
Proof. intros H. unfold same_setup. auto 10. Qed.

(** Finders built from the same options are set up alike. *)
Lemma same_setup_init d N w s sl (self1 self2 : ShapeletFinder) data target :
  init d N w s sl = Ok self1 -> init d N w s sl = Ok self2 ->
  same_setup self1 self2 data target.
Proof.
  intros [= <-] [= <-]. apply same_setup_refl. apply caches_ok_reset.
Qed.



(** *** A run without windows *)

Lemma calc_windows_nil sl_max N_max : N_max < 1 -> calc_windows sl_max N_max = [].
Proof.
  intros H. unfold calc_windows, py_range.
  replace (Z.to_nat (N_max + 1 - 1)) with 0%nat by lia. reflexivity.
Qed.

Lemma py_foldl_skip {A B} (body : B -> A -> py B) (xs : list A) (acc : B) :
  (forall x b, x ∈ xs -> body b x = Ok b) -> py_foldl body xs acc = Ok acc.
Proof.
  induction xs as [|x xs IH]; intros H; cbn; [reflexivity|].
  rewrite H by constructor. cbn. apply IH. intros y b Hy. apply H. now constructor.
Qed.

Lemma py_foldl_insert {V} (f : label -> py V) (g : label -> V)
    (labels : list label) (acc : gmap label V) :
  (forall l, l ∈ labels -> f l = Ok (g l)) ->
  exists m,
    py_foldl (fun (d : gmap label V) l => v ← f l; Ok (<[l := v]> d)) labels acc = Ok m
    /\ forall l, m !! l = if decide (l ∈ labels) then Some (g l) else acc !! l.
Proof.
  revert acc. induction labels as [|l0 labels IH]; intros acc Hf; cbn.
  - exists acc. split; [reflexivity|]. intros l.
    destruct (decide (l ∈ [])) as [H|_]; [inversion H | reflexivity].
  - rewrite Hf by constructor. cbn.
    destruct (IH (<[l0 := g l0]> acc)) as (m & Hm & Hlook).
    { intros l Hl. apply Hf. now constructor. }
    exists m. split; [exact Hm|]. intros l. rewrite Hlook.
    destruct (decide (l ∈ labels)) as [Hin|Hnin].
    + rewrite decide_True by now constructor. reflexivity.
    + destruct (decide (l = l0)) as [->|Hne].
      * rewrite decide_True by constructor. apply lookup_insert_eq.
      * rewrite decide_False by (rewrite elem_of_cons; tauto).
        now apply lookup_insert_ne.
Qed.

Lemma py_foldl_returns {A B} (body : B -> A -> py B) (xs : list A) (acc : B) :
  (forall x b, x ∈ xs -> exists b', body b x = Ok b') ->
  exists res, py_foldl body xs acc = Ok res.
Proof.
  revert acc. induction xs as [|x xs IH]; intros acc H; cbn; [now exists acc|].
  destruct (H x acc) as [b' ->]; [constructor|]. cbn.
  apply IH. intros y b Hy. apply H. now constructor.
Qed.

Lemma generate_shapelets_no_windows (self : ShapeletFinder) (data : list series)
    (target : list (list label)) (z_data : z_data_dict)
    (dimensions_subsets : list (list nat)) :
  quiet_progress ->
  generate_shapelets self data target z_data dimensions_subsets []
  = Ok (∅, caches self).
Proof.
  intros Hquiet. unfold generate_shapelets.
  destruct (Hquiet (shape0 dimensions_subsets * shape0 (@nil Z))
                   "generating shapelets"%string) as (c & -> & _).
  cbn [mbind py_bind]. apply py_foldl_skip. intros [i [|a ds]] st _; reflexivity.
Qed.

Lemma precompute_bmd_no_windows (data : list series) (shapelets : shapelets_dict)
    (z_data : z_data_dict) (unique_labels : list label)
    (dimensions_subsets : list (list nat)) :
  quiet_progress ->
  precompute_bmd data shapelets z_data unique_labels dimensions_subsets [] = Ok ∅.
Proof.
  intros Hquiet. unfold precompute_bmd.
  destruct (Hquiet (shape0 data) "calculating min dist"%string) as (c & -> & Hprint).
  cbn [mbind py_bind]. rewrite Hprint. cbn [mbind py_bind].
  apply py_foldl_skip. intros ts_id dist _. unfold bmd_series.
  rewrite py_foldl_skip by (intros axis d _; reflexivity).
  cbn [mbind py_bind]. rewrite Hprint. reflexivity.
Qed.

Lemma best_classifier_no_windows (data : list series) (dist : dist_dict)
    (shapelets : shapelets_dict) (dimensions_subsets : list (list nat))
    (l : label) (binary : list Z) :
  quiet_progress ->
  best_classifier data dist shapelets dimensions_subsets [] l binary = Ok None.
Proof.
  intros Hquiet. unfold best_classifier.
  destruct (Hquiet (shape0 dimensions_subsets * shape0 (@nil Z)) l) as (c & -> & Hprint).
  cbn [mbind py_bind]. rewrite Hprint. cbn [mbind py_bind].
  apply py_foldl_skip. intros [i ds] bsf _. reflexivity.
Qed.

(** C6 (amended): nothing validates the configuration.  The constructor
    stores every [d_max], [N_max], [w_ext], [sigma_min] and [sl_max] as
    given and never raises.  [findingshapelets] does not refuse a
    configuration either: with [N_max < 1] there is no window, and on
    data that are not empty, with [sigma_min] supplied or every series
    labeled, the run returns whenever the progress display does not
    raise. *)
Theorem findingshapelets_no_validation :
  (forall d N w s sl,
     init d N w s sl
     = Ok {| d_max := d; N_max := N; w_ext := w; sigma_min := s; sl_max := sl;
             caches := reset_caches |})
  /\ (forall (self : ShapeletFinder) (data : list series) (target : list (list label)),
        N_max self < 1 ->
        data <> [] ->
        is_Some (sigma_min self) \/ Forall (fun labels => labels <> []) target ->
        quiet_progress ->
        exists res self', findingshapelets self data target = Ok (res, self')).
Proof.
  split; [reflexivity|].
  intros self data target HN Hdata Hsigma Hquiet. unfold findingshapelets.
  rewrite (calc_windows_nil (sl_max self) (N_max self) HN).
  assert (Hest : exists sigma, estimate_sigma_min self data target [] = Ok sigma).
  { unfold estimate_sigma_min. destruct Hsigma as [[s Hs]|Hlab].
    - rewrite Hs. now exists s.
    - destruct (sigma_min self) as [s|]; [now exists s|].
      exists 0%Q. now apply estimate_sigma_min_loop_labeled. }
  destruct Hest as [sigma ->]. cbn [mbind py_bind].
  destruct data as [|first data]; [congruence|].
  cbn [list_get lookup list_lookup mbind py_bind].
  rewrite (generate_shapelets_no_windows _ _ _ _ _ Hquiet). cbn [mbind py_bind].
  rewrite (precompute_bmd_no_windows _ _ _ _ _ Hquiet). cbn [mbind py_bind].
  destruct (py_foldl_returns
              (fun (bsf_classifier : result) l =>
                 best ← best_classifier (first :: data) ∅ ∅
                          (tail (powerset (seq 0 (shape1 first)))) []
                          l (binary_target l target);
                 Ok (<[l := (best, binary_target l target)]> bsf_classifier))
              (elements (get_unique_targets target)) ∅) as [res Hres].
  { intros l bsf _. rewrite (best_classifier_no_windows _ _ _ _ _ _ Hquiet).
    eexists. reflexivity. }
  rewrite Hres. cbn [mbind py_bind]. eexists _, _. reflexivity.
Qed.

(** *** Further properties of the windows and the labels *)

(** X1: with at least one window, the last window is [sl_max] itself; and
    for [sl_max >= 0] the windows never decrease and stay in
    [[0, sl_max]]. *)
Theorem calc_windows_reaches_sl_max sl_max N_max :
  1 <= N_max ->
  last (calc_windows sl_max N_max) = Some sl_max
  /\ (0 <= sl_max ->
      (forall (i j : nat) x y,
         calc_windows sl_max N_max !! i = Some x ->
         calc_windows sl_max N_max !! j = Some y -> (i <= j)%nat -> x <= y)
      /\ Forall (fun w => 0 <= w <= sl_max) (calc_windows sl_max N_max)).
Proof.
  intros HN. split.
  - rewrite last_lookup, calc_windows_length.
    unfold calc_windows. rewrite list_lookup_fmap, py_range_lookup by lia.
    cbn. f_equal. replace (1 + Z.of_nat (Init.Nat.pred (Z.to_nat N_max))) with N_max by lia.
    apply Z.div_mul. lia.
  - intros Hsl. split.
    + intros i j x y Hi Hj Hij.
      apply calc_windows_lookup in Hi as [Hi ->].
      apply calc_windows_lookup in Hj as [Hj ->].
      apply Z.div_le_mono; [lia | nia].
    + apply Forall_forall. intros w Hw.
      apply list_elem_of_lookup in Hw as [i Hi].
      apply calc_windows_lookup in Hi as [Hi ->]. split.
      * apply Z.div_pos; nia.
      * apply Z.div_le_upper_bound; nia.
Qed.

Lemma fold_left_union_elem (row : list label) (labels : gset label) (l : label) :
  l ∈ fold_left (fun labels l => labels ∪ {[ l ]}) row labels <-> l ∈ labels \/ l ∈ row.
Proof.
  revert labels. induction row as [|x row IH]; intros labels; cbn.
  - rewrite elem_of_nil. tauto.
  - rewrite IH, elem_of_union, elem_of_singleton, elem_of_cons. tauto.
Qed.

Lemma get_unique_targets_fold (target : list (list label)) (acc : gset label)
    (l : label) :
  l ∈ fold_left (fun labels row =>
                   fold_left (fun labels l => labels ∪ {[ l ]}) row labels) target acc
  <-> l ∈ acc \/ exists row, row ∈ target /\ l ∈ row.
Proof.
  revert acc. induction target as [|row target IH]; intros acc; cbn.
  - split; [now left|]. intros [H|(row & H & _)]; [exact H | inversion H].
  - rewrite IH, fold_left_union_elem. split.
    + intros [[H|H]|(row' & H1 & H2)]; [now left | right | right].
      * exists row. split; [constructor | exact H].
      * exists row'. split; [now constructor | exact H2].
    + intros [H|(row' & H1 & H2)]; [now left; left|].
      apply elem_of_cons in H1 as [->|H1]; [now left; right|].
      right. now exists row'.
Qed.

(** X2: the unique targets are exactly the labels that occur in some row
    of the target. *)
Theorem get_unique_targets_spec (target : list (list label)) (l : label) :
  l ∈ get_unique_targets target <-> exists row, row ∈ target /\ l ∈ row.
Proof.
  unfold get_unique_targets. rewrite get_unique_targets_fold.
  split; [|now right]. intros [Hempty|Hex]; [|exact Hex].
  now apply elem_of_empty in Hempty.
Qed.

(** *** Further properties of the comparison *)

(** X3: the comparison has no answer for equal classifiers: both orders
    of two classifiers are answered [1] exactly when their gains and their
    [f_c_delta] are equal.  The best-so-far loop then replaces the one by
    the other, whichever comes second: of two such classifiers the search
    keeps the one it meets last. *)
Theorem cmp_classifier_both_one (A B : ShapeletClassifier) :
  ((cmp_classifier (Some A) (Some B) = Ok 1 /\ cmp_classifier (Some B) (Some A) = Ok 1)
   <-> ((information_gain A == information_gain B)%Q
        /\ (f_c_delta A == f_c_delta B)%Q))
  /\ ((information_gain A == information_gain B)%Q ->
      (f_c_delta A == f_c_delta B)%Q ->
      bsf_loop None [A; B] = Ok (Some B) /\ bsf_loop None [B; A] = Ok (Some A)).
Proof.
  assert (Htie : forall X Y : ShapeletClassifier,
             (information_gain X == information_gain Y)%Q ->
             (f_c_delta X == f_c_delta Y)%Q -> ~ beats X Y).
  { intros X Y Hg Hf [H|[_ H]].
    - rewrite Hg in H. exact (Qlt_irrefl _ H).
    - rewrite Hf in H. exact (Qlt_irrefl _ H). }
  split.
  2: { intros Hg Hf. cbn [bsf_loop]. rewrite !bsf_step_first. cbn [mbind py_bind].
       rewrite (bsf_step_replaces B A) by now apply Htie.
       rewrite (bsf_step_replaces A B) by (apply Htie; now symmetry).
       split; reflexivity. }
  rewrite !cmp_classifier_not_beats. unfold beats. split.
  - intros [HAB HBA].
    assert (Hg : (information_gain A == information_gain B)%Q).
    { destruct (Q_dec (information_gain A) (information_gain B)) as [[H|H]|H];
        [tauto | tauto | exact H]. }
    split; [exact Hg|].
    destruct (Q_dec (f_c_delta A) (f_c_delta B)) as [[H|H]|H]; [| |exact H].
    + exfalso. apply HAB. now right.
    + exfalso. apply HBA. right. split; [now symmetry | exact H].
  - intros [Hg Hf]. split; intros [H|[_ H]].
    + rewrite Hg in H. exact (Qlt_irrefl _ H).
    + rewrite Hf in H. exact (Qlt_irrefl _ H).
    + rewrite Hg in H. exact (Qlt_irrefl _ H).
    + rewrite Hf in H. exact (Qlt_irrefl _ H).
Qed.

(** *** Further properties of [precompute_z_norm] *)

Lemma z_norm_series_lookup (sigma : Q) (w : Z) (data : list series) :
  forall (start : nat) (z0 : z_data_dict) (i : nat) (w' : Z),
    fold_left (fun z '(ts_id, ts) =>
                 <[(ts_id, w) := z_normalize sigma (subsequences ts w)]> z)
              (enumerate_from start data) z0 !! (i, w')
    = if decide (w' = w /\ (start <= i)%nat)
      then match data !! (i - start)%nat with
           | Some ts => Some (z_normalize sigma (subsequences ts w))
           | None => z0 !! (i, w')
           end
      else z0 !! (i, w').
Proof.
  induction data as [|ts data IH]; intros start z0 i w'; cbn.
  - destruct (decide _); reflexivity.
  - rewrite IH.
    destruct (decide (w' = w /\ (S start <= i)%nat)) as [[-> Hle]|Hn].
    + rewrite decide_True by (split; [reflexivity | lia]).
      replace (i - start)%nat with (S (i - S start)) by lia. cbn.
      destruct (data !! (i - S start)%nat); [reflexivity|].
      apply lookup_insert_ne. intros [= ->]. lia.
    + destruct (decide (w' = w /\ (start <= i)%nat)) as [[-> Hle]|Hn'].
      * assert (i = start) as -> by lia. rewrite Nat.sub_diag. cbn.
        apply lookup_insert_eq.
      * apply lookup_insert_ne. intros Heq. injection Heq as H1 H2.
        destruct Hn'. split; [congruence | lia].
Qed.

(** X4: [precompute_z_norm] fills exactly the keys (series id, window) of
    the series of the data and the windows to test, each with the
    normalised subsequences of that series at that window length. *)
Theorem precompute_z_norm_lookup (sigma : Q) (data : list series) (windows : list Z)
    (ts_id : nat) (w : Z) :
  precompute_z_norm sigma data windows !! (ts_id, w)
  = if decide (w ∈ windows)
    then (fun ts => z_normalize sigma (subsequences ts w)) <$> data !! ts_id
    else None.
Proof.
  unfold precompute_z_norm.
  assert (H : forall z0 : z_data_dict,
    fold_left (fun z w0 =>
                 fold_left (fun z '(ts_id, ts) =>
                              <[(ts_id, w0) := z_normalize sigma (subsequences ts w0)]> z)
                           (enumerate data) z)
              windows z0 !! (ts_id, w)
    = if decide (w ∈ windows)
      then match data !! ts_id with
           | Some ts => Some (z_normalize sigma (subsequences ts w))
           | None => z0 !! (ts_id, w)
           end
      else z0 !! (ts_id, w)).
  { induction windows as [|w0 windows IH]; intros z0; cbn.
    - rewrite decide_False by apply not_elem_of_nil. reflexivity.
    - rewrite IH. unfold enumerate. rewrite !z_norm_series_lookup.
      rewrite Nat.sub_0_r.
      destruct (decide (w = w0)) as [->|Hne].
      + rewrite (decide_True (P := w0 ∈ w0 :: windows)) by constructor.
        rewrite (decide_True (P := w0 = w0 /\ _)) by (split; [reflexivity | lia]).
        destruct (decide (w0 ∈ windows)); destruct (data !! ts_id); reflexivity.
      + rewrite (decide_False (P := w = w0 /\ _)) by tauto.
        destruct (decide (w ∈ windows)) as [Hin|Hnin].
        * rewrite decide_True by now constructor. reflexivity.
        * rewrite decide_False by (rewrite elem_of_cons; tauto). reflexivity. }
  rewrite H, lookup_empty. destruct (decide _); [|reflexivity].
  destruct (data !! ts_id); reflexivity.
Qed.

(** *** Runs that raise *)

Lemma estimate_sigma_min_loop_no_windows (data : list series) (target : list (list label)) :
  forall (id : nat) (acc : Q),
    (forall k, (k < length target)%nat -> is_Some (data !! (id + k)%nat)) ->
    (exists k, target !! k = Some []) ->
    estimate_sigma_min_loop data [] id target acc = Raise ValueError.
Proof.
  induction target as [|labels rest IH]; intros id acc Hdata [k Hk].
  - rewrite lookup_nil in Hk. discriminate.
  - cbn [estimate_sigma_min_loop]. destruct labels as [|l labels]; cbn [length Nat.eqb].
    + destruct (Hdata 0%nat) as [ts Hts]; [cbn; lia|].
      rewrite Nat.add_0_r in Hts. unfold list_get. rewrite Hts. reflexivity.
    + apply IH.
      * intros j Hj. replace (S id + j)%nat with (id + S j)%nat by lia.
        apply Hdata. cbn. lia.
      * destruct k as [|k]; [discriminate|]. now exists k.
Qed.

(** X5: without windows ([N_max < 1]) and without a supplied [sigma_min],
    a target with an unlabeled series makes the run raise [ValueError]: the
    estimate asks for the minimum of the empty list of windows. *)
Theorem findingshapelets_no_windows_unlabeled (self : ShapeletFinder)
    (data : list series) (target : list (list label)) :
  N_max self < 1 ->
  sigma_min self = None ->
  length data = length target ->
  (exists id, target !! id = Some []) ->
  findingshapelets self data target = Raise ValueError.
Proof.
  intros HN Hsigma Hlen Hun. unfold findingshapelets.
  rewrite (calc_windows_nil _ _ HN). unfold estimate_sigma_min. rewrite Hsigma.
  rewrite estimate_sigma_min_loop_no_windows; [reflexivity | | exact Hun].
  intros k Hk. apply lookup_lt_is_Some_2. cbn. lia.
Qed.

Lemma estimate_sigma_min_loop_no_data (windows : list Z) (target : list (list label)) :
  forall (id : nat) (acc : Q),
    estimate_sigma_min_loop [] windows id target acc = Ok acc
    \/ estimate_sigma_min_loop [] windows id target acc = Raise IndexError.
Proof.
  induction target as [|labels rest IH]; intros id acc; cbn [estimate_sigma_min_loop].
  - now left.
  - destruct labels as [|l labels]; cbn [length Nat.eqb].
    + right. reflexivity.
    + apply IH.
Qed.

(** X6: on empty data the run raises [IndexError], whatever the finder and
    the target are: either the estimate reads the series of an unlabeled
    row, or the axes are read off [data[0]]. *)
Theorem findingshapelets_empty_data (self : ShapeletFinder) (target : list (list label)) :
  findingshapelets self [] target = Raise IndexError.
Proof.
  unfold findingshapelets, estimate_sigma_min.
  destruct (sigma_min self) as [s|]; [reflexivity|].
  destruct (estimate_sigma_min_loop_no_data
              (calc_windows (sl_max self) (N_max self)) target 0%nat 0%Q) as [-> | ->];
    reflexivity.
Qed.

Lemma powerset_tail_nonempty {A} (s : list A) : s <> [] -> tail (powerset s) <> [].
Proof.
  destruct s as [|x s]; [congruence|]. intros _.
  unfold powerset. cbn [length seq map concat combinations app tail].
  destruct (combinations 0 s) eqn:E; [destruct s; discriminate|].
  discriminate.
Qed.

Lemma get_unique_targets_unlabeled (target : list (list label)) :
  Forall (fun row => row = []) target -> elements (get_unique_targets target) = [].
Proof.
  intros H. apply elements_empty_iff. apply elem_of_equiv_empty. intros l Hl.
  unfold get_unique_targets in Hl. apply get_unique_targets_fold in Hl
    as [Hl|(row & Hrow & Hl)].
  - now apply elem_of_empty in Hl.
  - rewrite Forall_forall in H. rewrite (H row Hrow) in Hl. inversion Hl.
Qed.

Lemma precompute_bmd_no_labels (data : list series) (shapelets : shapelets_dict)
    (z_data : z_data_dict) (dimensions_subsets : list (list nat)) (windows : list Z) :
  data <> [] -> dimensions_subsets <> [] -> windows <> [] ->
  exists e,
    precompute_bmd data shapelets z_data [] dimensions_subsets windows = Raise e
    /\ (progress_returns (shape0 data) "calculating min dist" -> e = ValueError).
Proof.
  intros Hd Ha Hw. unfold precompute_bmd.
  destruct (Counter _ _) as [c|e] eqn:Hc; cbn [mbind py_bind].
  - destruct (printProgress c 0) as [[]|e] eqn:Hprint; cbn [mbind py_bind].
    + destruct data as [|ts data]; [congruence|].
      destruct dimensions_subsets as [|axis dims]; [congruence|].
      destruct windows as [|w windows]; [congruence|].
      exists ValueError. split; [reflexivity | auto].
    + exists e. split; [reflexivity|]. intros (c' & Hc' & Hprint').
      rewrite Hc in Hc'. injection Hc' as <-. rewrite Hprint' in Hprint. discriminate.
  - exists e. split; [reflexivity|]. intros (c' & Hc' & _).
    rewrite Hc in Hc'. discriminate.
Qed.

(** X7: when no series carries a label, a run with at least one window on
    data with at least one axis never returns: [precompute_bmd] raises,
    and if nothing raises before, namely its progress display, it raises
    [ValueError] on concatenating the pools of no label. *)
Theorem findingshapelets_no_labels (self : ShapeletFinder) (data : list series)
    (target : list (list label)) (first : series) :
  Forall (fun row => row = []) target ->
  data !! 0%nat = Some first -> (1 <= shape1 first)%nat ->
  1 <= N_max self ->
  (forall dimensions_subsets windows,
     dimensions_subsets <> [] -> windows <> [] ->
     forall shapelets z_data,
     exists e,
       precompute_bmd data shapelets z_data [] dimensions_subsets windows = Raise e
       /\ (progress_returns (shape0 data) "calculating min dist" -> e = ValueError))
  /\ exists e, findingshapelets self data target = Raise e.
Proof.
  intros Hun Hfirst Haxes HN.
  assert (Hdata : data <> []) by (intros ->; discriminate).
  split.
  - intros dims windows Hd Hw shapelets z_data. now apply precompute_bmd_no_labels.
  - unfold findingshapelets.
    destruct (estimate_sigma_min self data target _) as [sigma|e]; [|now exists e].
    cbn [mbind py_bind]. unfold list_get. rewrite Hfirst. cbn [mbind py_bind].
    destruct (generate_shapelets self data target _ _ _) as [[shapelets c]|e];
      [|now exists e].
    cbn [mbind py_bind]. rewrite (get_unique_targets_unlabeled target Hun).
    destruct (precompute_bmd_no_labels data shapelets
                (precompute_z_norm sigma data (calc_windows (sl_max self) (N_max self)))
                (tail (powerset (seq 0 (shape1 first))))
                (calc_windows (sl_max self) (N_max self))) as (e & -> & _);
      [exact Hdata | | | now exists e].
    + apply powerset_tail_nonempty. destruct (shape1 first); [lia | discriminate].
    + intros E. apply (f_equal length) in E. rewrite calc_windows_length in E.
      cbn in E. lia.
Qed.

(** *** What pruning returns *)

(** An invariant that every step of a loop extends from the elements done
    to the next one holds of the result, if the loop returns. *)
Lemma py_foldl_ok_inv {A B} (I : list A -> B -> Prop) (body : B -> A -> py B)
    (xs : list A) (acc res : B) :
  I [] acc ->
  (forall pre x b b', I pre b -> body b x = Ok b' -> I (pre ++ [x]) b') ->
  py_foldl body xs acc = Ok res ->
  I xs res.
Proof.
  intros Hacc Hstep.
  assert (H : forall pre acc, I pre acc -> py_foldl body xs acc = Ok res -> I (pre ++ xs) res).
  { clear acc Hacc. induction xs as [|x xs IH]; intros pre acc Hpre; cbn.
    - intros [= <-]. now rewrite app_nil_r.
    - destruct (body acc x) as [b|e] eqn:E; [|discriminate]. cbn. intros Hrun.
      replace (pre ++ x :: xs) with ((pre ++ [x]) ++ xs) by now rewrite <- app_assoc.
      apply (IH _ b); [|exact Hrun]. exact (Hstep _ _ _ _ Hpre E). }
  exact (H [] acc Hacc).
Qed.

Lemma candidate_offsets_nonempty ids shapelet_length n offsets :
  candidate_offsets ids shapelet_length n = Ok offsets -> offsets <> [].
Proof.
  unfold candidate_offsets.
  destruct (List.filter _ ids) as [|x l] eqn:E; [discriminate|].
  cbn [np_concatenate mbind py_bind]. intros [= <-].
  apply np_unique_nonempty.
  assert (Hx : x <> []).
  { assert (Hin : In x (List.filter (fun x => (0 <? length x)%nat) ids))
      by (rewrite E; now left).
    apply filter_In in Hin as [_ Hlen]. destruct x; [discriminate | congruence]. }
  destruct x as [|i x]; [congruence|]. discriminate.
Qed.

Lemma np_take_length {A} (a : list A) (ids : list Z) (xs : list A) :
  np_take a ids = Ok xs -> length xs = length ids.
Proof.
  revert xs. induction ids as [|i ids IH]; intros xs; cbn.
  - now intros [= <-].
  - destruct (np_getitem a i); [|discriminate]. cbn.
    destruct (np_take a ids) as [ys|]; [|discriminate]. cbn.
    intros [= <-]. cbn. f_equal. now apply IH.
Qed.

Lemma prune_series_step w_ext data target z_data shapelet_length dim_s st it st' :
  prune_series w_ext data target z_data shapelet_length dim_s st it = Ok st' ->
  exists labels shapelets,
    target !! it.1 = Some labels /\ shapelets <> []
    /\ st'.1 = fold_left (add_candidates shapelets) labels st.1.
Proof.
  unfold prune_series.
  destruct (collect_ids w_ext data it.1 dim_s st.2) as [r|e]; [|discriminate].
  cbn [mbind py_bind]. unfold add_series_candidates.
  destruct (candidate_offsets r.1 shapelet_length (shape0 it.2)) as [offsets|e] eqn:Hoff;
    [|discriminate].
  cbn [mbind py_bind].
  destruct (dict_get z_data (it.1, shapelet_length)) as [z|e]; [|discriminate].
  cbn [mbind py_bind].
  destruct (select_axes dim_s z) as [zs|e]; [|discriminate].
  cbn [mbind py_bind]. unfold list_get.
  destruct (target !! it.1) as [labels|]; [|discriminate].
  cbn [mbind py_bind].
  destruct (np_take zs offsets) as [shapelets|e] eqn:Htake; [|discriminate].
  cbn [mbind py_bind]. intros [= <-]. exists labels, shapelets.
  split; [reflexivity|]. split; [|reflexivity].
  apply candidate_offsets_nonempty in Hoff. apply np_take_length in Htake.
  destruct shapelets; [|discriminate]. destruct offsets; [congruence | discriminate].
Qed.

Lemma add_candidates_dom shapelets labels (all_shapelets : gmap label (list subseq)) l :
  is_Some (fold_left (add_candidates shapelets) labels all_shapelets !! l)
  <-> is_Some (all_shapelets !! l) \/ l ∈ labels.
Proof.
  revert all_shapelets. induction labels as [|l0 labels IH]; intros all; cbn.
  - rewrite elem_of_nil. tauto.
  - rewrite IH, elem_of_cons. unfold add_candidates.
    destruct (decide (l0 = l)) as [->|Hne].
    + destruct (all !! l) as [p|] eqn:E; rewrite lookup_insert_eq; split; eauto.
    + destruct (all !! l0); rewrite lookup_insert_ne by exact Hne;
        (split; [intros [H|H]; [now left | right; now right]
                |intros [H|[H|H]]; [now left | exfalso; apply Hne; now symmetry
                                   | now right]]).
Qed.

Lemma add_candidates_nonempty shapelets labels (all_shapelets : gmap label (list subseq)) :
  shapelets <> [] ->
  (forall l p, all_shapelets !! l = Some p -> p <> []) ->
  forall l p, fold_left (add_candidates shapelets) labels all_shapelets !! l = Some p ->
              p <> [].
Proof.
  intros Hne. revert all_shapelets. induction labels as [|l0 labels IH]; intros all Hall; cbn.
  - exact Hall.
  - apply IH. intros l p. unfold add_candidates.
    destruct (all !! l0) as [old|] eqn:E;
      (destruct (decide (l0 = l)) as [->|Hd];
       [rewrite lookup_insert_eq | rewrite lookup_insert_ne by exact Hd; apply Hall]).
    + intros [= <-]. destruct old; [exact Hne | discriminate].
    + intros [= <-]. exact Hne.
Qed.

(** The state of the pruning loop after the series in [pre]: the pools
    are those of the labels of these series, and none is empty. *)
Definition pruned (target : list (list label)) (pre : list (nat * series))
    (st : gmap label (list subseq) * extrema) : Prop :=
  (forall l, is_Some (st.1 !! l)
             <-> exists it labels, it ∈ pre /\ target !! it.1 = Some labels /\ l ∈ labels)
  /\ (forall l p, st.1 !! l = Some p -> p <> []).

Lemma prune_loop_pruned w_ext data target z_data shapelet_length dim_s c st :
  py_foldl (prune_series w_ext data target z_data shapelet_length dim_s)
           (enumerate data) (∅, c) = Ok st ->
  pruned target (enumerate data) st.
Proof.
  apply (py_foldl_ok_inv (pruned target)).
  - split.
    + intros l. cbn. rewrite lookup_empty. split.
      * intros [x Hx]. discriminate.
      * intros (it & labels & Hit & _). inversion Hit.
    + intros l p. cbn. rewrite lookup_empty. discriminate.
  - intros pre it b b' [Hdom Hne] Hstep.
    apply prune_series_step in Hstep as (labels & shapelets & Hlab & Hsh & Hb').
    split.
    + intros l. rewrite Hb', add_candidates_dom, Hdom. split.
      * intros [(it0 & labels0 & Hin & H1 & H2)|Hl].
        -- exists it0, labels0. split; [apply elem_of_app; now left | auto].
        -- exists it, labels. split; [apply elem_of_app; right; constructor | auto].
      * intros (it0 & labels0 & Hin & H1 & H2).
        apply elem_of_app in Hin as [Hin|Hin].
        -- left. now exists it0, labels0.
        -- apply list_elem_of_singleton in Hin as ->. right. congruence.
    + rewrite Hb'. now apply add_candidates_nonempty.
Qed.

(** X8: when pruning returns, its dictionary has a pool for exactly the
    labels that the series of the data carry. *)
Theorem prune_shapelet_candidates_labels (self : ShapeletFinder) data target z_data
    shapelet_length dim_s c r :
  prune_shapelet_candidates self data target z_data shapelet_length dim_s c = Ok r ->
  forall l,
    is_Some (r.1 !! l)
    <-> exists (ts_id : nat) labels,
          (ts_id < length data)%nat /\ target !! ts_id = Some labels /\ l ∈ labels.
Proof.
  unfold prune_shapelet_candidates.
  destruct (py_foldl _ _ _) as [st|e] eqn:Hrun; [|discriminate].
  cbn [mbind py_bind]. intros [= <-] l. cbn [fst].
  rewrite lookup_fmap, fmap_is_Some.
  destruct (prune_loop_pruned _ _ _ _ _ _ _ _ Hrun) as [Hdom _]. rewrite Hdom. split.
  - intros ([i ts] & labels & Hin & Hlab & Hl). apply elem_of_enumerate in Hin.
    exists i, labels. split; [now apply lookup_lt_Some in Hin | auto].
  - intros (i & labels & Hi & Hlab & Hl).
    destruct (lookup_lt_is_Some_2 data i Hi) as [ts Hts].
    exists (i, ts), labels. split; [now apply elem_of_enumerate | auto].
Qed.

(** X9: the clustering is never given an empty pool: every pool that
    pruning returns is the clustering of at least one candidate. *)
Theorem prune_shapelet_candidates_clusters_nonempty (self : ShapeletFinder) data target
    z_data shapelet_length dim_s c r :
  prune_shapelet_candidates self data target z_data shapelet_length dim_s c = Ok r ->
  forall l pool,
    r.1 !! l = Some pool ->
    exists candidates, candidates <> [] /\ pool = nn_centers (d_max self) candidates.
Proof.
  unfold prune_shapelet_candidates.
  destruct (py_foldl _ _ _) as [st|e] eqn:Hrun; [|discriminate].
  cbn [mbind py_bind]. intros [= <-] l pool. cbn [fst].
  rewrite lookup_fmap. destruct (st.1 !! l) as [candidates|] eqn:E; [|discriminate].
  cbn. intros [= <-]. exists candidates. split; [|reflexivity].
  destruct (prune_loop_pruned _ _ _ _ _ _ _ _ Hrun) as [_ Hne]. exact (Hne l _ E).
Qed.

(** *** A window longer than the series *)

Lemma start_offset_long shapelet_length n i :
  n < shapelet_length -> start_offset shapelet_length n i = n - shapelet_length.
Proof.
  intros H. unfold start_offset.
  destruct (Z.ltb_spec (i - shapelet_length / 2) 0);
    [destruct (Z.gtb_spec 0 (n - shapelet_length))
    |destruct (Z.gtb_spec (i - shapelet_length / 2) (n - shapelet_length))]; lia.
Qed.

Lemma np_unique_constant (x : Z) (l : list Z) :
  l <> [] -> Forall (fun y => y = x) l -> np_unique l = [x].
Proof.
  intros Hne H. induction H as [|y l -> _ IH]; [congruence|].
  destruct l as [|z l]; [reflexivity|].
  change (np_unique (x :: z :: l)) with (insert_unique x (np_unique (z :: l))).
  rewrite IH by discriminate. cbn.
  rewrite Z.ltb_irrefl, Z.eqb_refl. reflexivity.
Qed.

(** X10: a window longer than the series is not refused.  All extrema of
    the series are clamped to the same negative offset
    [length - window], and taking the candidates then raises [IndexError]
    when the stack of subsequences has fewer than [window - length]
    entries, in particular when it is empty. *)
Theorem prune_series_long_window w_ext data target z_data shapelet_length dim_s
    all_shapelets c ts_id ts z labels i0 :
  caches_ok w_ext data c ->
  data !! ts_id = Some ts ->
  Forall (fun a => (a < shape1 ts)%nat) dim_s ->
  shape0 ts < shapelet_length ->
  is_extremum w_ext ts dim_s i0 ->
  z_data !! (ts_id, shapelet_length) = Some z ->
  shape0 z < shapelet_length - shape0 ts ->
  target !! ts_id = Some labels ->
  candidate_offsets (concat (map (four_extrema w_ext ts) dim_s))
                    shapelet_length (shape0 ts)
  = Ok [shape0 ts - shapelet_length]
  /\ prune_series w_ext data target z_data shapelet_length dim_s
                  (all_shapelets, c) (ts_id, ts)
     = Raise IndexError.
Proof.
  intros Hc Hts Hax Hlong Hext Hz Hzlen Hlab.
  assert (Hoff : candidate_offsets (concat (map (four_extrema w_ext ts) dim_s))
                                   shapelet_length (shape0 ts)
                 = Ok [shape0 ts - shapelet_length]).
  { rewrite candidate_offsets_ok by exact (some_extremum_not_all_empty _ _ _ _ Hext).
    f_equal. apply np_unique_constant.
    - apply is_extremum_concat in Hext.
      destruct (concat (concat _)); [inversion Hext | discriminate].
    - apply Forall_forall. intros o Ho. apply list_elem_of_fmap in Ho as (i & -> & _).
      now apply start_offset_long. }
  split; [exact Hoff|].
  destruct (collect_ids_ok w_ext data ts_id ts dim_s c Hc Hts Hax) as (c' & Hcol & _).
  unfold prune_series. cbn [fst snd]. rewrite Hcol. cbn [mbind py_bind fst snd].
  unfold add_series_candidates. rewrite Hoff. cbn [mbind py_bind].
  unfold dict_get. rewrite Hz. cbn [mbind py_bind].
  assert (Hdim : dim_s <> []).
  { destruct Hext as (a & _ & Ha & _). intros ->. inversion Ha. }
  destruct (select_axes_ok dim_s z Hdim) as (zs & -> & Hzs). cbn [mbind py_bind].
  unfold list_get. rewrite Hlab. cbn [mbind py_bind np_take].
  unfold np_getitem. unfold shape0 in *. rewrite Hzs.
  destruct (Z.ltb_spec (Z.of_nat (length ts) - shapelet_length) 0); [|lia].
  destruct (Z.ltb_spec (Z.of_nat (length ts) - shapelet_length + Z.of_nat (length z)) 0);
    [reflexivity | lia].
Qed.

(** *** Extrema that are already cached *)

Lemma keydefaultdict_get_present `{Countable K} {V} (factory : K -> py V)
    (d : gmap K V) (key : K) (v : V) :
  d !! key = Some v -> keydefaultdict_get factory d key = Ok (v, d).
Proof. intros E. unfold keydefaultdict_get. now rewrite E. Qed.

(** The index arrays of an axis as the caches hold them. *)
Definition cached_extrema (c : extrema) (ts_id a : nat) : list (list Z) :=
  [ default [] (minima c !! (ts_id, a));
    default [] (maxima c !! (ts_id, a));
    default [] (derivative_minima c !! (ts_id, a));
    default [] (derivative_maxima c !! (ts_id, a)) ].

Definition all_cached (c : extrema) (ts_id : nat) (dim_s : list nat) : Prop :=
  forall a, a ∈ dim_s ->
    is_Some (minima c !! (ts_id, a)) /\ is_Some (maxima c !! (ts_id, a))
    /\ is_Some (derivative_minima c !! (ts_id, a))
    /\ is_Some (derivative_maxima c !! (ts_id, a)).

(** X11: index arrays that are in the caches are returned as they are
    stored, whatever the data and [w_ext] are now: the caches are keyed by
    the series id alone, so a finder that is not reset prunes new data with
    the extrema of the old. *)
Theorem collect_ids_reads_cache (w_ext : Z) (data : list series) (ts_id : nat)
    (dim_s : list nat) (c : extrema) :
  all_cached c ts_id dim_s ->
  collect_ids w_ext data ts_id dim_s c
  = Ok (concat (map (cached_extrema c ts_id) dim_s), c).
Proof.
  intros Hall. unfold collect_ids.
  assert (H : forall acc,
    py_foldl (fun '(ids, c) a =>
                '(four, c') ← axis_extrema w_ext data ts_id a c;
                Ok (ids ++ four, c'))
             dim_s (acc, c)
    = Ok (acc ++ concat (map (cached_extrema c ts_id) dim_s), c)).
  { induction dim_s as [|a dim_s IH]; intros acc; cbn [py_foldl map concat].
    - now rewrite app_nil_r.
    - destruct (Hall a) as ([mi Hmi] & [ma Hma] & [dmi Hdmi] & [dma Hdma]);
        [constructor|].
      assert (Hax : axis_extrema w_ext data ts_id a c = Ok (cached_extrema c ts_id a, c)).
      { unfold axis_extrema, cached_extrema.
        rewrite (keydefaultdict_get_present _ _ _ _ Hmi). cbn [mbind py_bind].
        rewrite (keydefaultdict_get_present _ _ _ _ Hma). cbn [mbind py_bind].
        rewrite (keydefaultdict_get_present _ _ _ _ Hdmi). cbn [mbind py_bind].
        rewrite (keydefaultdict_get_present _ _ _ _ Hdma). cbn [mbind py_bind].
        rewrite Hmi, Hma, Hdmi, Hdma. destruct c. reflexivity. }
      rewrite Hax. cbn [mbind py_bind]. rewrite IH.
      + now rewrite <- app_assoc.
      + intros a' Ha'. apply Hall. now constructor. }
  exact (H []).
Qed.

(** *** What [build_classifier] returns *)

Lemma enumerate_from_length {A} (xs : list A) (start : nat) :
  length (enumerate_from start xs) = length xs.
Proof. revert start. induction xs as [|x xs IH]; intros start; cbn; [|rewrite IH]; reflexivity. Qed.

Lemma enumerate_lt {A} (xs : list A) (i : nat) (x : A) :
  (i, x) ∈ enumerate xs -> (i < length xs)%nat.
Proof. intros H. apply elem_of_enumerate in H. now apply lookup_lt_Some in H. Qed.

(** [dist_X] of shapelet [shapelet_id]: its cached distance to every
    series, in the order of the series. *)
Definition cached_distances (data : list series) (dist : dist_dict)
    (shapelet_id : nat) (l : label) (shapelet_length : Z) (dim_s : list nat) : list Q :=
  map (fun ts_id => default 0%Q (dist !! (ts_id, shapelet_id, l, shapelet_length, dim_s)))
      (seq 0 (length data)).

Lemma build_classifier_ok (data : list series) (dist : dist_dict) (pool : list subseq)
    (target : list Z) (l : label) (dim_s : list nat) (first : subseq) :
  pool !! 0%nat = Some first ->
  (forall shapelet_id ts_id : nat,
     (shapelet_id < length pool)%nat -> (ts_id < length data)%nat ->
     is_Some (dist !! (ts_id, shapelet_id, l, shape0 first, dim_s))) ->
  build_classifier data dist pool target l dim_s
  = Ok (map (fun '(shapelet_id, shapelet) =>
               fit_precomputed shapelet dim_s
                 (cached_distances data dist shapelet_id l (shape0 first) dim_s) target)
            (enumerate pool)).
Proof.
  intros Hfirst Hkeys. unfold build_classifier, list_get. rewrite Hfirst.
  cbn [mbind py_bind]. apply py_map_ok. apply Forall_forall. intros [sid s] Hin.
  apply enumerate_lt in Hin.
  rewrite (py_map_ok _ (fun ts_id => default 0%Q
                          (dist !! (ts_id, sid, l, shape0 first, dim_s)))).
  - reflexivity.
  - apply Forall_forall. intros ts_id Hts. apply elem_of_seq in Hts.
    destruct (Hkeys sid ts_id Hin) as [v Hv]; [lia|].
    unfold dict_get. now rewrite Hv.
Qed.

(** A comprehension whose elements can only raise [e] raises [e] as soon
    as one of them does. *)
Lemma py_map_raises {A B} (f : A -> py B) (e : exn) (xs : list A) (x0 : A) :
  (forall x, x ∈ xs -> (exists y, f x = Ok y) \/ f x = Raise e) ->
  x0 ∈ xs -> f x0 = Raise e ->
  py_map f xs = Raise e.
Proof.
  induction xs as [|x xs IH]; intros Hall Hin Hx0; [inversion Hin|]. cbn.
  destruct (Hall x) as [[y Hy]| ->]; [constructor | | reflexivity].
  rewrite Hy. cbn.
  apply elem_of_cons in Hin as [->|Hin]; [congruence|].
  rewrite IH; [reflexivity | | exact Hin | exact Hx0].
  intros z Hz. apply Hall. now constructor.
Qed.

Lemma py_map_ok_or_raises {A B} (f : A -> py B) (e : exn) (xs : list A) :
  (forall x, x ∈ xs -> (exists y, f x = Ok y) \/ f x = Raise e) ->
  (exists ys, py_map f xs = Ok ys) \/ py_map f xs = Raise e.
Proof.
  induction xs as [|x xs IH]; intros Hall; cbn; [left; now exists []|].
  destruct (Hall x) as [[y Hy]| ->]; [constructor | | now right].
  rewrite Hy. cbn. destruct IH as [[ys ->]| ->]; [| |now right].
  - intros z Hz. apply Hall. now constructor.
  - left. now eexists.
Qed.

Lemma build_classifier_missing (data : list series) (dist : dist_dict) (pool : list subseq)
    (target : list Z) (l : label) (dim_s : list nat) (first : subseq)
    (shapelet_id ts_id : nat) :
  pool !! 0%nat = Some first ->
  (shapelet_id < length pool)%nat -> (ts_id < length data)%nat ->
  dist !! (ts_id, shapelet_id, l, shape0 first, dim_s) = None ->
  build_classifier data dist pool target l dim_s = Raise KeyError.
Proof.
  intros Hfirst Hsid Hts Hnone. unfold build_classifier, list_get. rewrite Hfirst.
  cbn [mbind py_bind].
  assert (Hinner : forall sid,
    (exists ys, py_map (fun ts_id => dict_get dist (ts_id, sid, l, shape0 first, dim_s))
                       (seq 0 (length data)) = Ok ys)
    \/ py_map (fun ts_id => dict_get dist (ts_id, sid, l, shape0 first, dim_s))
              (seq 0 (length data)) = Raise KeyError).
  { intros sid. apply py_map_ok_or_raises. intros i _. unfold dict_get.
    destruct (dist !! (i, sid, l, shape0 first, dim_s)); [left; now eexists | now right]. }
  destruct (lookup_lt_is_Some_2 pool shapelet_id Hsid) as [s Hs].
  apply (py_map_raises _ KeyError _ (shapelet_id, s)).
  - intros [sid s'] _. destruct (Hinner sid) as [[ys ->]| ->]; [left | now right].
    now eexists.
  - now apply elem_of_enumerate.
  - rewrite (py_map_raises _ KeyError _ ts_id); [reflexivity | | |].
    + intros i _. unfold dict_get.
      destruct (dist !! (i, shapelet_id, l, shape0 first, dim_s));
        [left; now eexists | now right].
    + apply elem_of_seq. lia.
    + unfold dict_get. now rewrite Hnone.
Qed.

(** X12: on a pool that is not empty, [build_classifier] looks the
    distances up under the length of the first shapelet.  If the cache has
    an entry for every shapelet of the pool and every series, the result is
    one classifier per shapelet, in the order of the pool, each fitted to
    the cached distances of its shapelet; if one entry is missing, the
    result is [KeyError]. *)
Theorem build_classifier_spec (data : list series) (dist : dist_dict) (pool : list subseq)
    (target : list Z) (l : label) (dim_s : list nat) (first : subseq) :
  pool !! 0%nat = Some first ->
  ((forall shapelet_id ts_id : nat,
      (shapelet_id < length pool)%nat -> (ts_id < length data)%nat ->
      is_Some (dist !! (ts_id, shapelet_id, l, shape0 first, dim_s))) ->
   build_classifier data dist pool target l dim_s
   = Ok (map (fun '(shapelet_id, shapelet) =>
                fit_precomputed shapelet dim_s
                  (cached_distances data dist shapelet_id l (shape0 first) dim_s) target)
             (enumerate pool)))
  /\ (forall shapelet_id ts_id : nat,
        (shapelet_id < length pool)%nat -> (ts_id < length data)%nat ->
        dist !! (ts_id, shapelet_id, l, shape0 first, dim_s) = None ->
        build_classifier data dist pool target l dim_s = Raise KeyError).
Proof.
  intros Hfirst. split.
  - now apply build_classifier_ok.
  - intros sid ts_id. now apply build_classifier_missing.
Qed.

(** *** [precompute_bmd] serves [build_classifier] *)

(** X13: the distances that [precompute_bmd] stores are those that
    [build_classifier] looks up.  When the progress display returns, for a
    label, a dimension subset and a window of the run, on a pool whose
    first shapelet has the length of the window, [build_classifier] on the
    precomputed cache returns one classifier per shapelet of the pool. *)
Theorem precompute_bmd_then_build_classifier (data : list series)
    (shapelets : shapelets_dict) (z_data : z_data_dict) (unique_labels : list label)
    (dimensions_subsets : list (list nat)) (windows : list Z)
    (target : list Z) (l : label) (axis : list nat) (w : Z)
    (pool : list subseq) (first : subseq) :
  progress_returns (shape0 data) "calculating min dist" ->
  unique_labels <> [] ->
  (forall l axis shapelet_length,
     l ∈ unique_labels -> axis ∈ dimensions_subsets -> shapelet_length ∈ windows ->
     is_Some (shapelets !! (l, axis, shapelet_length))) ->
  (forall (ts_id : nat) shapelet_length,
     (ts_id < length data)%nat -> shapelet_length ∈ windows ->
     exists z, z_data !! (ts_id, shapelet_length) = Some z /\ z <> []) ->
  Forall (fun axis => axis <> []) dimensions_subsets ->
  l ∈ unique_labels -> axis ∈ dimensions_subsets -> w ∈ windows ->
  shapelets !! (l, axis, w) = Some pool ->
  pool !! 0%nat = Some first -> shape0 first = w ->
  exists dist classifiers,
    precompute_bmd data shapelets z_data unique_labels dimensions_subsets windows
    = Ok dist
    /\ build_classifier data dist pool target l axis = Ok classifiers
    /\ length classifiers = length pool.
Proof.
  intros Hprogress Hlabels Hpools Hz Hax Hl Haxis Hw Hpool Hfirst Hlen.
  destruct (precompute_bmd_returns data shapelets z_data unique_labels
              dimensions_subsets windows Hprogress Hlabels Hpools Hz Hax)
    as (dist & Hrun & _ & Hcov).
  exists dist. eexists. split; [exact Hrun|]. split.
  - apply (build_classifier_ok data dist pool target l axis first Hfirst).
    intros sid ts_id Hsid Hts. rewrite Hlen.
    exact (Hcov ts_id axis w Hts Haxis Hw l pool sid Hl Hpool Hsid).
  - rewrite length_map. apply enumerate_from_length.
Qed.

(** *** The classifier that the search keeps *)

Lemma py_foldl_app {A B} (body : B -> A -> py B) (xs ys : list A) (acc : B) :
  py_foldl body (xs ++ ys) acc = py_foldl body xs acc ≫= py_foldl body ys.
Proof.
  revert acc. induction xs as [|x xs IH]; intros acc; cbn; [reflexivity|].
  destruct (body acc x) as [b|e]; cbn; [apply IH | reflexivity].
Qed.

(** All pairs of a dimension subset and a window, in the order of the two
    nested loops. *)
Definition combinations_to_search (dimensions_subsets : list (list nat))
    (windows : list Z) : list (list nat * Z) :=
  concat (map (fun ds => map (pair ds) windows) dimensions_subsets).

Lemma elem_of_combinations_to_search dimensions_subsets windows ds w :
  (ds, w) ∈ combinations_to_search dimensions_subsets windows
  <-> ds ∈ dimensions_subsets /\ w ∈ windows.
Proof.
  unfold combinations_to_search. rewrite elem_of_concat. split.
  - intros (row & Hin & Hrow). apply list_elem_of_fmap in Hrow as (ds' & -> & Hds').
    apply list_elem_of_fmap in Hin as (w' & [= -> ->] & Hw'). auto.
  - intros [Hds Hw]. exists (map (pair ds) windows). split.
    + now apply (list_elem_of_fmap_2 (pair ds)).
    + now apply (list_elem_of_fmap_2 (fun ds => map (pair ds) windows)).
Qed.

Lemma py_foldl_nested {A B C} (f : C -> A -> B -> py C) (xs : list A) (ys : list B)
    (acc : C) :
  py_foldl (fun c x => py_foldl (fun c y => f c x y) ys c) xs acc
  = py_foldl (fun c p => f c p.1 p.2) (concat (map (fun x => map (pair x) ys) xs)) acc.
Proof.
  revert acc. induction xs as [|x xs IH]; intros acc; cbn [py_foldl map concat];
    [reflexivity|].
  rewrite py_foldl_app.
  assert (Hinner : forall c, py_foldl (fun c y => f c x y) ys c
                             = py_foldl (fun c p => f c p.1 p.2) (map (pair x) ys) c).
  { clear. induction ys as [|y ys IHy]; intros c; cbn; [reflexivity|].
    destruct (f c x y); cbn; [apply IHy | reflexivity]. }
  rewrite Hinner. destruct (py_foldl _ (map (pair x) ys) acc); cbn; [apply IH | reflexivity].
Qed.

(** The classifiers built for one combination. *)
Definition built (data : list series) (dist : dist_dict) (shapelets : shapelets_dict)
    (l : label) (binary : list Z) (p : list nat * Z)
    (candidates : list ShapeletClassifier) : Prop :=
  exists pool, shapelets !! (l, p.1, p.2) = Some pool
               /\ build_classifier data dist pool binary l p.1 = Ok candidates.

Lemma build_classifier_nonempty (data : list series) (dist : dist_dict)
    (pool : list subseq) (binary : list Z) (l : label) (dim_s : list nat)
    (candidates : list ShapeletClassifier) :
  build_classifier data dist pool binary l dim_s = Ok candidates -> candidates <> [].
Proof.
  unfold build_classifier. destruct pool as [|first pool]; [discriminate|].
  cbn [list_get lookup list_lookup mbind py_bind]. intros H.
  apply py_map_Forall2 in H. apply Forall2_length in H.
  destruct candidates; [discriminate | discriminate].
Qed.

(** The state of the search after the combinations [pre]: every one of
    them had candidates, the classifier kept is one of their candidates,
    and none of their candidates beats it. *)
Definition searched (data : list series) (dist : dist_dict) (shapelets : shapelets_dict)
    (l : label) (binary : list Z) (pre : list (list nat * Z))
    (bsf : option ShapeletClassifier) : Prop :=
  (forall p, p ∈ pre -> exists candidates,
       built data dist shapelets l binary p candidates /\ candidates <> [])
  /\ (forall b, bsf = Some b ->
        exists p candidates, p ∈ pre /\ built data dist shapelets l binary p candidates
                             /\ b ∈ candidates)
  /\ (forall p candidates x,
        p ∈ pre -> built data dist shapelets l binary p candidates -> x ∈ candidates ->
        exists b, bsf = Some b /\ ~ beats x b).

(** A loop over [enumerate(xs)] that returns: a loop over [xs] whose body
    returns what the body of the former returns, returns the same. *)
Lemma py_foldl_enumerate_ok {A B} (body : B -> nat -> A -> py B)
    (body' : B -> A -> py B) :
  (forall b i x b', body b i x = Ok b' -> body' b x = Ok b') ->
  forall (xs : list A) (start : nat) (acc res : B),
    py_foldl (fun b '(i, x) => body b i x) (enumerate_from start xs) acc = Ok res ->
    py_foldl body' xs acc = Ok res.
Proof.
  intros Hbody. induction xs as [|x xs IH]; intros start acc res; cbn; [auto|].
  destruct (body acc start x) as [b'|e] eqn:E; [|discriminate].
  rewrite (Hbody _ _ _ _ E). cbn. apply IH.
Qed.

Lemma progress_after_ok {B} (m : py B) (progress : py ()) (res : B) :
  (b ← m; _ ← progress; Ok b) = Ok res -> m = Ok res.
Proof. destruct m as [b|e]; [|discriminate]. destruct progress; cbn; congruence. Qed.

(** A search that returns went through all combinations. *)
Lemma best_classifier_combinations (data : list series) (dist : dist_dict)
    (shapelets : shapelets_dict) (dimensions_subsets : list (list nat))
    (windows : list Z) (l : label) (binary : list Z) (best : option ShapeletClassifier) :
  best_classifier data dist shapelets dimensions_subsets windows l binary = Ok best ->
  py_foldl (fun bsf p => search_combination data dist shapelets l binary bsf p.1 p.2)
           (combinations_to_search dimensions_subsets windows) None
  = Ok best.
Proof.
  unfold best_classifier.
  destruct (Counter _ l) as [c|e]; [|discriminate]. cbn [mbind py_bind].
  destruct (printProgress c 0) as [[]|e]; [|discriminate]. cbn [mbind py_bind].
  intros Hrun. unfold combinations_to_search.
  rewrite <- (py_foldl_nested
                (fun bsf ds w => search_combination data dist shapelets l binary bsf ds w)).
  revert Hrun. unfold enumerate.
  apply (py_foldl_enumerate_ok
           (fun bsf ds_i dimension_subset =>
              py_foldl (fun bsf '(w_i, window) =>
                          bsf' ← search_combination data dist shapelets l binary bsf
                                                    dimension_subset window;
                          _ ← printProgress c (Z.of_nat ds_i * shape0 windows
                                               + Z.of_nat w_i + 1);
                          Ok bsf')
                       (enumerate_from 0 windows) bsf)).
  intros bsf ds_i ds bsf'.
  apply (py_foldl_enumerate_ok
           (fun bsf w_i window =>
              bsf' ← search_combination data dist shapelets l binary bsf ds window;
              _ ← printProgress c (Z.of_nat ds_i * shape0 windows + Z.of_nat w_i + 1);
              Ok bsf')).
  intros b w_i w b'. apply progress_after_ok.
Qed.

Lemma best_classifier_searched (data : list series) (dist : dist_dict)
    (shapelets : shapelets_dict) (dimensions_subsets : list (list nat))
    (windows : list Z) (l : label) (binary : list Z) (best : option ShapeletClassifier) :
  best_classifier data dist shapelets dimensions_subsets windows l binary = Ok best ->
  searched data dist shapelets l binary
           (combinations_to_search dimensions_subsets windows) best.
Proof.
  intros Hrun. apply best_classifier_combinations in Hrun. revert Hrun.
  apply (py_foldl_ok_inv (searched data dist shapelets l binary)).
  - split; [|split].
    + intros p Hp. inversion Hp.
    + discriminate.
    + intros p cands x Hp. inversion Hp.
  - intros pre p bsf bsf' (Hall & Hin & Hbest). cbn beta.
    unfold search_combination, dict_get.
    destruct (shapelets !! (l, p.1, p.2)) as [pool|] eqn:Hpool; [|discriminate].
    cbn [mbind py_bind].
    destruct (build_classifier data dist pool binary l p.1) as [cands|e] eqn:Hbuild;
      [|discriminate].
    cbn [mbind py_bind]. intros Hloop.
    assert (Hbuilt : built data dist shapelets l binary p cands) by now exists pool.
    assert (Hne : cands <> []) by exact (build_classifier_nonempty _ _ _ _ _ _ _ Hbuild).
    assert (Hsame : forall cands', built data dist shapelets l binary p cands' ->
                                   cands' = cands).
    { intros cands' (pool' & H1 & H2). congruence. }
    destruct (bsf_loop_not_beaten cands bsf) as (best' & Hrun & Hfrom & Hsome & Hnb).
    rewrite Hloop in Hrun. injection Hrun as <-.
    destruct bsf' as [b'|]; [|exfalso; now apply Hsome].
    destruct (Hnb b' eq_refl) as [Hcands Hprev].
    split; [|split].
    + intros q Hq. apply elem_of_app in Hq as [Hq|Hq]; [now apply Hall|].
      apply list_elem_of_singleton in Hq as ->. now exists cands.
    + intros b [= <-]. destruct Hfrom as [Hbsf|(c & [= <-] & Hc)].
      * destruct (Hin b' (eq_sym Hbsf)) as (q & cq & Hq & Hbq & Hbin).
        exists q, cq. split; [apply elem_of_app; now left | auto].
      * exists p, cands. split; [apply elem_of_app; right; constructor | auto].
    + intros q cq x Hq Hbq Hx. exists b'. split; [reflexivity|].
      apply elem_of_app in Hq as [Hq|Hq].
      * destruct (Hbest q cq x Hq Hbq Hx) as (b0 & Hb0 & Hxb0).
        destruct (Hprev b0 Hb0) as [->|Hb0b']; [exact Hxb0|].
        exact (beats_neg_trans x b0 b' Hxb0 Hb0b').
      * apply list_elem_of_singleton in Hq as ->.
        rewrite (Hsame cq Hbq) in Hx. now apply Hcands.
Qed.

(** X14: when the search of the best classifier of a label returns, every
    combination of a dimension subset and a window had a pool and
    candidates; the classifier kept was built for one of the combinations,
    and no classifier built for any combination beats it. *)
Theorem best_classifier_not_beaten (data : list series) (dist : dist_dict)
    (shapelets : shapelets_dict) (dimensions_subsets : list (list nat))
    (windows : list Z) (l : label) (binary : list Z) (best : option ShapeletClassifier) :
  best_classifier data dist shapelets dimensions_subsets windows l binary = Ok best ->
  (forall b, best = Some b ->
     exists ds w pool candidates,
       ds ∈ dimensions_subsets /\ w ∈ windows
       /\ shapelets !! (l, ds, w) = Some pool
       /\ build_classifier data dist pool binary l ds = Ok candidates
       /\ b ∈ candidates)
  /\ (forall ds w,
        ds ∈ dimensions_subsets -> w ∈ windows ->
        exists pool candidates b,
          shapelets !! (l, ds, w) = Some pool
          /\ build_classifier data dist pool binary l ds = Ok candidates
          /\ best = Some b
          /\ forall x, x ∈ candidates -> ~ beats x b).
Proof.
  intros Hrun. apply best_classifier_searched in Hrun as (Hall & Hin & Hbest). split.
  - intros b Hb. destruct (Hin b Hb) as ([ds w] & cands & Hp & (pool & H1 & H2) & Hb').
    apply elem_of_combinations_to_search in Hp as [Hds Hw].
    exists ds, w, pool, cands. auto.
  - intros ds w Hds Hw.
    assert (Hp : (ds, w) ∈ combinations_to_search dimensions_subsets windows)
      by now apply elem_of_combinations_to_search.
    destruct (Hall _ Hp) as (cands & Hbuilt & Hne).
    destruct cands as [|x0 cands]; [congruence|].
    destruct (Hbest _ _ x0 Hp Hbuilt) as (b & Hb & _); [constructor|].
    destruct Hbuilt as (pool & H1 & H2).
    exists pool, (x0 :: cands), b. split; [exact H1|]. split; [exact H2|].
    split; [exact Hb|]. intros x Hx.
    destruct (Hbest (ds, w) (x0 :: cands) x Hp) as (b' & Hb' & Hnb);
      [now exists pool | exact Hx |].
    congruence.
Qed.

(** *** What a run returns and leaves behind *)

Lemma label_loop_result {V} (f : label -> py V) (labels : list label)
    (m : gmap label V) :
  py_foldl (fun (d : gmap label V) l => v ← f l; Ok (<[l := v]> d)) labels ∅ = Ok m ->
  forall l,
    (l ∈ labels -> exists v, f l = Ok v /\ m !! l = Some v)
    /\ (l ∉ labels -> m !! l = None).
Proof.
  intros Hrun l.
  apply (py_foldl_ok_inv
           (fun pre (d : gmap label V) =>
              (l ∈ pre -> exists v, f l = Ok v /\ d !! l = Some v)
              /\ (l ∉ pre -> d !! l = None))) in Hrun; [exact Hrun | |].
  - split; [intros H; inversion H | intros _; apply lookup_empty].
  - intros pre l0 d d' [Hin Hnin]. destruct (f l0) as [v|e] eqn:E; [|discriminate].
    cbn. intros [= <-]. destruct (decide (l0 = l)) as [->|Hne].
    + split; [|intros H; exfalso; apply H, elem_of_app; right; constructor].
      intros _. exists v. split; [exact E | apply lookup_insert_eq].
    + rewrite lookup_insert_ne by exact Hne. split.
      * intros H. apply elem_of_app in H as [H|H]; [now apply Hin|].
        apply list_elem_of_singleton in H. congruence.
      * intros H. apply Hnin. intros H'. apply H, elem_of_app. now left.
Qed.

(** X15: the result of a run has an entry for exactly the labels of the
    target, each with the binary target of its label; and when the finder
    has at least one window and the data at least one axis, each entry
    holds a classifier. *)
Theorem findingshapelets_result (self : ShapeletFinder) (data : list series)
    (target : list (list label)) (res : result) (self' : ShapeletFinder) :
  findingshapelets self data target = Ok (res, self') ->
  (forall l, l ∉ get_unique_targets target -> res !! l = None)
  /\ (forall l, l ∈ get_unique_targets target ->
        exists best,
          res !! l = Some (best, binary_target l target)
          /\ (1 <= N_max self ->
              (forall first, data !! 0%nat = Some first -> (1 <= shape1 first)%nat) ->
              is_Some best)).
Proof.
  unfold findingshapelets.
  destruct (estimate_sigma_min self data target _) as [sigma|e]; [|discriminate].
  cbn [mbind py_bind]. unfold list_get.
  destruct (data !! 0%nat) as [first|] eqn:Hfirst; [|discriminate].
  cbn [mbind py_bind].
  destruct (generate_shapelets self data target _ _ _) as [[shapelets c]|e];
    [|discriminate].
  cbn [mbind py_bind].
  destruct (precompute_bmd _ _ _ _ _ _) as [dist|e]; [|discriminate].
  cbn [mbind py_bind].
  destruct (py_foldl _ (elements (get_unique_targets target)) ∅) as [m|e] eqn:Hloop;
    [|discriminate].
  cbn [mbind py_bind]. intros [= <- _].
  pose proof (label_loop_result
                (fun l => best ← best_classifier data dist shapelets
                                   (tail (powerset (seq 0 (shape1 first))))
                                   (calc_windows (sl_max self) (N_max self))
                                   l (binary_target l target);
                          Ok (best, binary_target l target))
                (elements (get_unique_targets target)) m) as Hres.
  assert (Hloop' :
    py_foldl (fun (d : result) l =>
                v ← (best ← best_classifier data dist shapelets
                               (tail (powerset (seq 0 (shape1 first))))
                               (calc_windows (sl_max self) (N_max self))
                               l (binary_target l target);
                     Ok (best, binary_target l target));
                Ok (<[l := v]> d))
             (elements (get_unique_targets target)) ∅ = Ok m).
  { rewrite <- Hloop. clear. generalize (∅ : result).
    induction (elements (get_unique_targets target)) as [|l ls IH]; intros acc; cbn;
      [reflexivity|].
    destruct (best_classifier _ _ _ _ _ _ _); cbn; [apply IH | reflexivity]. }
  specialize (Hres Hloop'). split.
  - intros l Hl. apply (Hres l). now rewrite elem_of_elements.
  - intros l Hl. destruct (proj1 (Hres l)) as (v & Hv & Hm);
      [now rewrite elem_of_elements|].
    destruct (best_classifier data dist shapelets _ _ l (binary_target l target))
      as [best|e] eqn:Hbest; [|discriminate].
    cbn in Hv. injection Hv as <-. exists best. split; [exact Hm|].
    intros HN Haxes.
    apply best_classifier_searched in Hbest as (Hall & _ & Hkept).
    assert (Hds : exists ds, ds ∈ tail (powerset (seq 0 (shape1 first)))).
    { destruct (tail (powerset (seq 0 (shape1 first)))) as [|ds dims] eqn:E.
      - exfalso. revert E. apply powerset_tail_nonempty.
        specialize (Haxes first eq_refl). destruct (shape1 first); [lia | discriminate].
      - exists ds. constructor. }
    assert (Hw : exists w, w ∈ calc_windows (sl_max self) (N_max self)).
    { destruct (calc_windows (sl_max self) (N_max self)) as [|w ws] eqn:E.
      - apply (f_equal length) in E. rewrite calc_windows_length in E. cbn in E. lia.
      - exists w. constructor. }
    destruct Hds as [ds Hds]. destruct Hw as [w Hw].
    assert (Hp : (ds, w) ∈ combinations_to_search
                              (tail (powerset (seq 0 (shape1 first))))
                              (calc_windows (sl_max self) (N_max self)))
      by now apply elem_of_combinations_to_search.
    destruct (Hall _ Hp) as (cands & Hbuilt & Hne).
    destruct cands as [|x cands]; [congruence|].
    destruct (Hkept _ _ x Hp Hbuilt) as (b & -> & _); [constructor | eauto].
Qed.

(** X16: a run that returns leaves the five options as they were, except
    that [sigma_min] now holds the value used by the run; from then on the
    estimate returns this value whatever the data, the target and the
    windows are: a finder estimates [sigma_min] once in its life. *)
Theorem findingshapelets_keeps_sigma_min (self : ShapeletFinder) (data : list series)
    (target : list (list label)) (res : result) (self' : ShapeletFinder) :
  findingshapelets self data target = Ok (res, self') ->
  exists sigma,
    estimate_sigma_min self data target (calc_windows (sl_max self) (N_max self))
    = Ok sigma
    /\ sigma_min self' = Some sigma
    /\ d_max self' = d_max self /\ N_max self' = N_max self
    /\ w_ext self' = w_ext self /\ sl_max self' = sl_max self
    /\ forall data' target' windows',
         estimate_sigma_min self' data' target' windows' = Ok sigma.
Proof.
  unfold findingshapelets.
  destruct (estimate_sigma_min self data target _) as [sigma|e]; [|discriminate].
  cbn [mbind py_bind].
  destruct (list_get data 0) as [first|e]; [|discriminate].
  cbn [mbind py_bind].
  destruct (generate_shapelets self data target _ _ _) as [[shapelets c]|e];
    [|discriminate].
  cbn [mbind py_bind].
  destruct (precompute_bmd _ _ _ _ _ _) as [dist|e]; [|discriminate].
  cbn [mbind py_bind].
  destruct (py_foldl _ _ _) as [m|e]; [|discriminate].
  cbn [mbind py_bind]. intros [= _ <-]. exists sigma. cbn. auto 10.
Qed.

(** *** [Evaluation.eval] *)

(** [pickle.dump(dict(result), file)] into the result file: an effect
    outside the finder, which may raise. *)
Variable pickle_dump : result -> py ().

(** The attributes of an [Evaluation], whose classifier class [c] is
    [ShapeletFinder]: for each option the list of values to test. *)
Record Evaluation : Type := {
  eval_d_max : list Q;
  eval_sigma_min : list (option Q);
  eval_sl_max : list Z;
  eval_n_max : list Z;
  eval_w_ext : list Z
}.

(** [Evaluation.eval]; the arguments [mode] and [result_file_name] are not
    read.  The finder [sml] is local to the call. *)
Definition eval (self : Evaluation) (data : list series) (states : list (list label))
  : py result :=
  d_max ← list_get (eval_d_max self) 0;
  sigma_min ← list_get (eval_sigma_min self) 0;
  N_max ← list_get (eval_n_max self) 0;
  w_ext ← list_get (eval_w_ext self) 0;
  sl_max ← list_get (eval_sl_max self) 0;
  sml ← init d_max N_max w_ext sigma_min sl_max;
  r ← findingshapelets sml data states;
  _ ← pickle_dump r.1;
  let sml := reset r.2 in
  Ok r.1.

(** X17: [Evaluation.eval] tests one configuration only: the first value
    of each of the five lists.  The other values are never read, and an
    empty list makes the call raise [IndexError] before any finder is
    built. *)
Theorem eval_first_values (self : Evaluation) (data : list series)
    (states : list (list label)) :
  (forall d s n w sl,
     head (eval_d_max self) = Some d -> head (eval_sigma_min self) = Some s ->
     head (eval_n_max self) = Some n -> head (eval_w_ext self) = Some w ->
     head (eval_sl_max self) = Some sl ->
     eval self data states
     = eval {| eval_d_max := [d]; eval_sigma_min := [s]; eval_sl_max := [sl];
               eval_n_max := [n]; eval_w_ext := [w] |} data states)
  /\ (eval_d_max self = [] \/ eval_sigma_min self = [] \/ eval_n_max self = []
      \/ eval_w_ext self = [] \/ eval_sl_max self = [] ->
      eval self data states = Raise IndexError).
Proof.
  destruct self as [ds ss sls ns ws]. cbn [eval_d_max eval_sigma_min eval_sl_max
                                          eval_n_max eval_w_ext]. split.
  - intros d s n w sl Hd Hs Hn Hw Hsl.
    destruct ds as [|d' ds]; [discriminate|]. destruct ss as [|s' ss]; [discriminate|].
    destruct ns as [|n' ns]; [discriminate|]. destruct ws as [|w' ws]; [discriminate|].
    destruct sls as [|sl' sls]; [discriminate|].
    cbn in Hd, Hs, Hn, Hw, Hsl.
    injection Hd as ->. injection Hs as ->. injection Hn as ->.
    injection Hw as ->. injection Hsl as ->. reflexivity.
  - intros H. unfold eval. cbn [eval_d_max eval_sigma_min eval_sl_max
                                 eval_n_max eval_w_ext].
    destruct ds as [|d ds]; [reflexivity|]. destruct ss as [|s ss]; [reflexivity|].
    destruct ns as [|n ns]; [reflexivity|]. destruct ws as [|w ws]; [reflexivity|].
    destruct sls as [|sl sls]; [reflexivity|].
    destruct H as [H|[H|[H|[H|H]]]]; discriminate.
Qed.

End Finder.

(** ** [shapelets_evaluation.evaluation] *)

(** The label whose training data and classifier the script evaluates. *)
Definition insert_upright : label :=
  "59d638667bfe0b5f22bd6449: Pitasc - Insert Upright".

(** [row[lo:hi]] *)
Definition slice {A} (lo hi : nat) (row : list A) : list A :=
  firstn (hi - lo) (skipn lo row).

(** [np.array(ts_data)[:, 0:3]]: the list of rows is a two-dimensional
    array when it is not empty and its rows have one length; otherwise the
    array has one dimension and the slice raises [IndexError]. *)
Definition first_three_columns (ts_data : list (list Q)) : py (list (list Q)) :=
  match ts_data with
  | [] => Raise IndexError
  | row :: _ =>
      if forallb (fun r => (length r =? length row)%nat) ts_data
      then Ok (map (slice 0 3) ts_data)
      else Raise IndexError
  end.

(** [data_nd[:, lo:hi] = src]: the columns are replaced row by row; NumPy
    raises [ValueError] when [src] has not the width of the slice. *)
Definition assign_columns (lo hi : nat) (data_nd src : list (list Q))
  : py (list (list Q)) :=
  py_map (fun '(row, s) =>
            if (length (slice lo hi row) =? length s)%nat
            then Ok (firstn lo row ++ s ++ skipn hi row)
            else Raise ValueError)
         (combine data_nd src).

(** Lines 30 to 39: the series handed to the classifier, from the samples
    of the first training series of the label; a sample is the list of its
    values. *)
Definition prepare_series (data_of_interest : list (list Q)) : py (list (list Q)) :=
  data_nd ← first_three_columns data_of_interest;
  let temp := map (slice 0 1) data_nd in
  data_nd ← assign_columns 0 1 data_nd (map (slice 1 2) data_nd);
  assign_columns 1 2 data_nd temp.

(** The loop over [ds]: some distance is below the threshold. *)
Definition below_threshold (ds : list Q) (classifier_threshold : Q) : bool :=
  existsb (fun distance => Qltb distance classifier_threshold) ds.

Section ShapeletsEvaluation.

(** [cls.predict_all(data_nd)] of the module [classifier]: the minima and
    the sequence of distances [ds]. *)
Variable predict_all : ShapeletClassifier -> list (list Q) -> list Q * list Q.

(** [evaluation(dataset)], with the training data of the data set
    ([dataset.get_training_data()]) and the stored result
    ([get_classifier_data()]) as arguments. *)
Definition evaluation (dict_training_data : gmap label (list (list (list Q))))
    (result : gmap label (option ShapeletClassifier * list Z)) : py bool :=
  training ← dict_get dict_training_data insert_upright;
  data_of_interest ← list_get training 0;
  data_nd ← prepare_series data_of_interest;
  entry ← dict_get result insert_upright;
  match entry.1 with
  | None => Raise AttributeError
  | Some cls =>
      let ds := (predict_all cls data_nd).2 in
      let classifier_threshold := delta cls in
      Ok (below_threshold ds classifier_threshold)
  end.

Lemma below_threshold_min (ds : list Q) (classifier_threshold : Q) :
  below_threshold ds classifier_threshold = true
  <-> exists m, np_min ds = Ok m /\ (m < classifier_threshold)%Q.
Proof.
  unfold below_threshold. rewrite existsb_exists. split.
  - intros (d & Hd & Hlt). apply Qltb_lt in Hlt. apply list_elem_of_In in Hd.
    destruct (np_min_nonempty ds) as [m Hm]; [intros ->; inversion Hd|].
    exists m. split; [exact Hm|].
    apply np_min_spec in Hm as [_ Hle]. exact (Qle_lt_trans _ _ _ (Hle d Hd) Hlt).
  - intros (m & Hm & Hlt). apply np_min_spec in Hm as [Hin _].
    exists m. split; [now apply list_elem_of_In | now apply Qltb_lt].
Qed.

(** X18: when [evaluation] returns, the stored result holds a classifier
    for the label, and the answer is [True] exactly when the smallest of
    the distances that the classifier predicts for the prepared series,
    the best-matching distance, is strictly below the classifier's
    [delta]; without any distance the answer is [False]. *)
Theorem evaluation_spec (dict_training_data : gmap label (list (list (list Q))))
    (result : gmap label (option ShapeletClassifier * list Z)) (flag : bool) :
  evaluation dict_training_data result = Ok flag ->
  exists training data_of_interest data_nd cls binary,
    dict_training_data !! insert_upright = Some training
    /\ training !! 0%nat = Some data_of_interest
    /\ prepare_series data_of_interest = Ok data_nd
    /\ result !! insert_upright = Some (Some cls, binary)
    /\ (flag = true
        <-> exists m, np_min (predict_all cls data_nd).2 = Ok m /\ (m < delta cls)%Q)
    /\ ((predict_all cls data_nd).2 = [] -> flag = false).
Proof.
  unfold evaluation, dict_get, list_get.
  destruct (dict_training_data !! insert_upright) as [training|]; [|discriminate].
  cbn [mbind py_bind].
  destruct (training !! 0%nat) as [data_of_interest|] eqn:Hfirst; [|discriminate].
  cbn [mbind py_bind].
  destruct (prepare_series data_of_interest) as [data_nd|e] eqn:Hprep; [|discriminate].
  cbn [mbind py_bind].
  destruct (result !! insert_upright) as [[[cls|] binary]|]; try discriminate.
  cbn. intros [= <-].
  exists training, data_of_interest, data_nd, cls, binary.
  split; [reflexivity|]. split; [exact Hfirst|]. split; [exact Hprep|].
  split; [reflexivity|]. split; [apply below_threshold_min|].
  intros ->. reflexivity.
Qed.

End ShapeletsEvaluation.

(** The first three values of a sample with the first two exchanged. *)
Definition exchanged (row : list Q) : list Q :=
  match row with
  | a :: b :: rest => b :: a :: firstn 1 rest
  | _ => row
  end.

Lemma assign_columns_rows (lo hi : nat) (data_nd src : list (list Q))
    (g : list Q -> list Q -> list Q) :
  Forall (fun '(row, s) => length (slice lo hi row) = length s
                           /\ firstn lo row ++ s ++ skipn hi row = g row s)
         (combine data_nd src) ->
  assign_columns lo hi data_nd src = Ok (map (fun '(row, s) => g row s) (combine data_nd src)).
Proof.
  intros H. unfold assign_columns.
  induction H as [|[row s] rest [Hlen Hrow] _ IH]; cbn; [reflexivity|].
  apply Nat.eqb_eq in Hlen. rewrite Hlen. cbn. rewrite IH. cbn. now rewrite Hrow.
Qed.

(** X19: for samples with one common number of at least two values, the
    series handed to the classifier consists of the first three values of
    every sample with the first two exchanged. *)
Theorem prepare_series_exchanges (data_of_interest : list (list Q)) (width : nat) :
  data_of_interest <> [] ->
  Forall (fun row => length row = width) data_of_interest ->
  (2 <= width)%nat ->
  prepare_series data_of_interest = Ok (map exchanged data_of_interest).
Proof.
  intros Hne Hwidth H2. unfold prepare_series.
  assert (Hfirst : first_three_columns data_of_interest
                   = Ok (map (slice 0 3) data_of_interest)).
  { unfold first_three_columns. destruct data_of_interest as [|row rest]; [congruence|].
    replace (forallb _ (row :: rest)) with true; [reflexivity|].
    symmetry. apply forallb_forall. intros r Hr. apply Nat.eqb_eq.
    rewrite Forall_forall in Hwidth.
    rewrite (Hwidth r) by now apply list_elem_of_In.
    rewrite (Hwidth row) by constructor. reflexivity. }
  rewrite Hfirst. cbn [mbind py_bind].
  set (data_nd := map (slice 0 3) data_of_interest).
  assert (Hstep1 : assign_columns 0 1 data_nd (map (slice 1 2) data_nd)
                   = Ok (map (fun row => match row with
                                         | a :: b :: rest => b :: b :: firstn 1 rest
                                         | _ => row
                                         end) data_of_interest)).
  { rewrite (assign_columns_rows 0 1 _ _
               (fun row s => match row with
                             | a :: b :: rest => b :: b :: rest
                             | _ => row
                             end)).
    - f_equal. unfold data_nd. clear -Hwidth H2.
      induction Hwidth as [|row rest Hrow _ IH]; [reflexivity|].
      cbn [map combine]. rewrite IH. f_equal.
      destruct row as [|a [|b [|c row]]]; cbn in *; try lia; reflexivity.
    - unfold data_nd. clear -Hwidth H2.
      induction Hwidth as [|row rest Hrow _ IH]; [constructor|].
      cbn [map combine]. constructor; [|exact IH].
      destruct row as [|a [|b [|c row]]]; cbn in *; try lia; auto. }
  rewrite Hstep1. cbn [mbind py_bind].
  rewrite (assign_columns_rows 1 2 _ _
             (fun row s => match row, s with
                           | a :: b :: rest, [t] => a :: t :: rest
                           | _, _ => row
                           end)).
  - f_equal. unfold data_nd. clear -Hwidth H2.
    induction Hwidth as [|row rest Hrow _ IH]; [reflexivity|].
    cbn [map combine]. rewrite IH. f_equal.
    destruct row as [|a [|b [|c row]]]; cbn in *; try lia; reflexivity.
  - unfold data_nd. clear -Hwidth H2.
    induction Hwidth as [|row rest Hrow _ IH]; [constructor|].
    cbn [map combine]. constructor; [|exact IH].
    destruct row as [|a [|b [|c row]]]; cbn in *; try lia; auto.
Qed.

(** ** Reference collaborators

    Executable stand-ins for the collaborators, on which the theorems above
    are exercised.  [scipy_argrelmin] and [scipy_argrelmax] follow
    [scipy.signal.argrelextrema] with [mode='clip']; subsequences are the
    sliding windows with stride one; the standard deviation is exact
    whenever the variance is the square of a rational; the distance is the
    squared Euclidean distance, which orders subsequences like the
    Euclidean distance does; clustering keeps the first candidate of every
    group within the radius; the classifier fit counts correctly separated
    series instead of computing an entropy; the progress display prints
    nothing and never raises. *)

Definition clip_get (x : list Q) (i : Z) : Q :=
  nth (Z.to_nat (Z.max 0 (Z.min i (shape0 x - 1)))) x 0%Q.

Definition argrelextrema (comparator : Q -> Q -> bool) (x : list Q) (order : Z)
  : list Z :=
  List.filter
    (fun i => forallb (fun shift =>
                         comparator (clip_get x i) (clip_get x (i + shift))
                         && comparator (clip_get x i) (clip_get x (i - shift)))
                      (py_range 1 (order + 1)))
    (py_range 0 (shape0 x)).

Definition scipy_argrelmin (x : list Q) (order : Z) : list Z :=
  argrelextrema Qltb x order.

Definition scipy_argrelmax (x : list Q) (order : Z) : list Z :=
  argrelextrema Qgtb x order.

Definition sliding_subsequences (ts : series) (w : Z) : list subseq :=
  map (fun i => firstn (Z.to_nat w) (skipn (Z.to_nat i) ts))
      (py_range 0 (shape0 ts - w + 1)).

Definition Qsum (v : list Q) : Q := fold_right Qplus 0%Q v.

Definition Qmean (v : list Q) : Q :=
  Qred (Qsum v / inject_Z (Z.of_nat (length v))).

(** The square root of a rational square, and a lower approximation of the
    root otherwise. *)
Definition Qsqrt (q : Q) : Q :=
  let r := Qred q in Z.sqrt (Qnum r) # Pos.sqrt (Qden r).

Definition population_std (v : list Q) : Q :=
  let m := Qmean v in Qsqrt (Qmean (map (fun x => (x - m) * (x - m))%Q v)).

Definition ref_std_axis1 (subs : list subseq) : list (list Q) :=
  map (fun s => map (fun a => population_std (column a s)) (seq 0 (shape1 s))) subs.

Definition ref_z_normalize (sigma : Q) (subs : list subseq) : list subseq :=
  map (fun s =>
         map (fun row =>
                imap (fun a x =>
                        let col := column a s in
                        let sd := population_std col in
                        if Qltb sigma sd then Qred ((x - Qmean col) / sd) else x)
                     row)
             s)
      subs.

Definition sq_distance (s t : subseq) : Q :=
  Qred (Qsum (map (fun '(r1, r2) =>
                     Qsum (map (fun '(a, b) => ((a - b) * (a - b))%Q) (combine r1 r2)))
                  (combine s t))).

Fixpoint greedy_centers (fuel : nat) (radius : Q) (pool : list subseq) : list subseq :=
  match fuel, pool with
  | S fuel', c :: rest =>
      c :: greedy_centers fuel' radius
             (List.filter (fun s => Qltb (radius * radius) (sq_distance c s)) rest)
  | _, _ => []
  end.

Definition ref_nn_centers (radius : Q) (pool : list subseq) : list subseq :=
  greedy_centers (length pool) radius pool.

(** The number of series on the right side of threshold [t]. *)
Definition separated (t : Q) (dist_X : list Q) (target : list Z) : Z :=
  Z.of_nat (length (List.filter (fun '(d, y) => if Qltb d t then y =? 1 else y =? 0)
                                (combine dist_X target))).

Definition counting_fit (s : subseq) (dims : list nat) (dist_X : list Q)
    (target : list Z) : ShapeletClassifier :=
  let best := fold_left (fun b t => if separated b dist_X target <? separated t dist_X target
                                    then t else b) dist_X 0%Q in
  {| shapelet := s; dim_s := dims; delta := best;
     information_gain := separated best dist_X target # Pos.of_nat (length target);
     f_c_delta := 0 |}.

Definition ref_Counter (total : Z) (prefix : string) : py () := Ok ().
Definition ref_printProgress (c : ()) (iteration : Z) : py () := Ok ().

Lemma ref_progress_returns (total : Z) (prefix : string) :
  progress_returns () ref_Counter ref_printProgress total prefix.
Proof. exists (). split; reflexivity. Qed.

Definition ref_findingshapelets :=
  findingshapelets scipy_argrelmin scipy_argrelmax ref_std_axis1 sliding_subsequences
                   ref_z_normalize sq_distance ref_nn_centers counting_fit
                   () ref_Counter ref_printProgress.

(** Two series with one axis that alternate around their mean, the first
    labeled [A], the second [B]; and a flat series, which has no extremum. *)
Definition zigzag_up : series := [[0%Q]; [2%Q]; [0%Q]; [2%Q]; [0%Q]].
Definition zigzag_late : series := [[0%Q]; [0%Q]; [4%Q]; [0%Q]; [0%Q]].
Definition flat : series := [[1%Q]; [1%Q]; [1%Q]; [1%Q]].

Definition two_series : list series := [zigzag_up; zigzag_late].
Definition two_labels : list (list label) := [["A"%string]; ["B"%string]].

(** Case analysis on the membership in an explicit list. *)
Ltac elem_cases H :=
  repeat (apply elem_of_cons in H as [H|H]; [try subst|]);
  try (apply elem_of_nil in H; contradiction).

(** ** Worked examples *)

Definition unlabeled_finder : ShapeletFinder :=
  {| d_max := 1 # 2; N_max := 1; w_ext := 1; sigma_min := None; sl_max := 2;
     caches := reset_caches |}.

Example estimate_sigma_min_two :
  estimate_sigma_min ref_std_axis1 sliding_subsequences unlabeled_finder
                     two_series [["A"%string]; []] [2]
  = Ok 2%Q.
Proof. reflexivity. Qed.

Lemma estimate_sigma_min_spec_witness :
  exists s,
    estimate_sigma_min ref_std_axis1 sliding_subsequences unlabeled_finder
                       two_series [["A"%string]; []] [2] = Ok s
    /\ (forall v, unlabeled_std ref_std_axis1 sliding_subsequences
                                two_series [["A"%string]; []] 2 v -> (v <= s)%Q)
    /\ ((exists id : nat, [["A"%string]; []] !! id = Some []) ->
        exists v, unlabeled_std ref_std_axis1 sliding_subsequences
                                two_series [["A"%string]; []] 2 v /\ (v == s)%Q).
Proof.
  apply (proj2 (proj2 (estimate_sigma_min_spec ref_std_axis1 sliding_subsequences
                         unlabeled_finder two_series [["A"%string]; []] [2])) 2);
    try reflexivity.
  - constructor.
  - intros w' Hw'. elem_cases Hw'. lia.
  - intros [|[|id]] ts v Ht Hd; try discriminate.
    injection Hd as <-. vm_compute. split; [discriminate|].
    intros Hin. elem_cases Hin; discriminate.
Defined.

(** A flat series has no extremum: [argrelextrema] compares strictly. *)
Lemma flat_no_extremum (a : nat) (ids : list Z) :
  a ∈ [0%nat] -> ids ∈ four_extrema scipy_argrelmin scipy_argrelmax 1 flat a ->
  ids = [].
Proof.
  intros Ha Hids. elem_cases Ha. vm_compute in Hids. elem_cases Hids; reflexivity.
Qed.

Example prune_flat :
  prune_shapelet_candidates scipy_argrelmin scipy_argrelmax ref_nn_centers
      unlabeled_finder [flat] [["A"%string]]
      (precompute_z_norm sliding_subsequences ref_z_normalize 0 [flat] [2])
      2 [0%nat] reset_caches
  = Raise ValueError.
Proof. reflexivity. Qed.

Lemma prune_series_cases_witness :
  prune_series scipy_argrelmin scipy_argrelmax 1 [flat] [["A"%string]]
      (precompute_z_norm sliding_subsequences ref_z_normalize 0 [flat] [2])
      2 [0%nat] (∅, reset_caches) (0%nat, flat)
  = Raise ValueError.
Proof.
  apply (prune_series_cases scipy_argrelmin scipy_argrelmax 1 [flat]
           [["A"%string]]
           (precompute_z_norm sliding_subsequences ref_z_normalize 0 [flat] [2])
           2 [0%nat] ∅ reset_caches 0%nat flat
           (ref_z_normalize 0 (sliding_subsequences flat 2)) ["A"%string]).
  - apply caches_ok_reset.
  - reflexivity.
  - repeat constructor.
  - vm_compute. discriminate.
  - reflexivity.
  - reflexivity.
  - reflexivity.
  - intros i (a & ids & Ha & Hids & Hi).
    rewrite (flat_no_extremum a ids Ha Hids) in Hi. now apply elem_of_nil in Hi.
Defined.

Lemma prune_shapelet_candidates_no_extrema_witness :
  exists e,
    prune_shapelet_candidates scipy_argrelmin scipy_argrelmax ref_nn_centers
        unlabeled_finder [zigzag_up; flat] [["A"%string]; ["A"%string]]
        (precompute_z_norm sliding_subsequences ref_z_normalize 0 [zigzag_up; flat] [2])
        2 [0%nat] reset_caches
    = Raise e.
Proof.
  apply (prune_shapelet_candidates_no_extrema scipy_argrelmin scipy_argrelmax
           ref_nn_centers unlabeled_finder [zigzag_up; flat] _ _ 2 [0%nat]
           reset_caches 1%nat flat).
  - apply caches_ok_reset.
  - reflexivity.
  - repeat constructor.
  - intros a ids. apply flat_no_extremum.
Defined.

(** On the series with extrema the offsets are the clamped, shifted
    indices: the extrema [1; 2; 3] of [zigzag_up] give the offsets
    [0; 1; 2] for windows of length 2. *)
Example candidate_offsets_zigzag :
  candidate_offsets (four_extrema scipy_argrelmin scipy_argrelmax 1 zigzag_up 0) 2 5
  = Ok [0; 1; 2].
Proof. reflexivity. Qed.

Lemma build_classifier_empty_pool_witness :
  exists e,
    best_classifier counting_fit () ref_Counter ref_printProgress two_series ∅
                    {[ ("A"%string, [0%nat], 2) := [] ]}
                    [[0%nat]] [2] "A"%string [1; 0]
    = Raise e.
Proof.
  apply (proj2 (build_classifier_empty_pool counting_fit () ref_Counter ref_printProgress
                  two_series ∅ [1; 0]
                  "A"%string [0%nat] {[ ("A"%string, [0%nat], 2) := [] ]}
                  [[0%nat]] [2] [1; 0]) [0%nat] 2).
  - constructor.
  - constructor.
  - reflexivity.
Defined.

(** The pools and the normalised subsequences of a small run. *)
Definition small_pools : gmap (label * list nat * Z) (list subseq) :=
  list_to_map [ (("A"%string, [0%nat], 2), [[[(-1)%Q]; [1%Q]]; [[1%Q]; [(-1)%Q]]]);
                (("B"%string, [0%nat], 2), [[[0%Q]; [0%Q]]; [[(-1)%Q]; [1%Q]]]) ].

Definition small_z_data : gmap (nat * Z) (list subseq) :=
  precompute_z_norm sliding_subsequences ref_z_normalize 0 two_series [2].

(** These are the pools that pruning and clustering produce: the extrema
    [1; 2; 3] of [zigzag_up] give the offsets [0; 1; 2], the extrema
    [1; 2] of [zigzag_late] the offsets [0; 1]. *)
Example prune_two_series :
  (r ← prune_shapelet_candidates scipy_argrelmin scipy_argrelmax ref_nn_centers
         unlabeled_finder two_series two_labels small_z_data 2 [0%nat] reset_caches;
   Ok (r.1 !! "A"%string, r.1 !! "B"%string))
  = Ok (small_pools !! ("A"%string, [0%nat], 2), small_pools !! ("B"%string, [0%nat], 2)).
Proof. vm_compute. reflexivity. Qed.

Lemma precompute_bmd_spec_witness :
  exists dist,
    precompute_bmd sq_distance () ref_Counter ref_printProgress two_series small_pools
                   small_z_data ["A"%string; "B"%string] [[0%nat]] [2] = Ok dist
    /\ forall (ts_id shapelet_id : nat) l shapelet_length axis pool s z,
         (ts_id < length two_series)%nat -> axis ∈ [[0%nat]] ->
         shapelet_length ∈ [2] -> l ∈ ["A"%string; "B"%string] ->
         small_pools !! (l, axis, shapelet_length) = Some pool ->
         pool !! shapelet_id = Some s ->
         small_z_data !! (ts_id, shapelet_length) = Some z ->
         exists m,
           dist !! (ts_id, shapelet_id, l, shapelet_length, axis) = Some m
           /\ best_matching_distance sq_distance s (map (restrict_to axis) z) m.
Proof.
  apply (precompute_bmd_spec sq_distance () ref_Counter ref_printProgress two_series
           small_pools small_z_data ["A"%string; "B"%string] [[0%nat]] [2]).
  - apply ref_progress_returns.
  - discriminate.
  - intros l axis w Hl Hax Hw. elem_cases Hl; elem_cases Hax; elem_cases Hw;
      vm_compute; eauto.
  - intros ts_id w Hts Hw. elem_cases Hw.
    destruct ts_id as [|[|ts_id]]; [| |cbn in Hts; lia];
      (eexists; split; [vm_compute; reflexivity | discriminate]).
  - repeat constructor; discriminate.
Defined.

Example precompute_bmd_small :
  (dist ← precompute_bmd sq_distance () ref_Counter ref_printProgress two_series
                         small_pools small_z_data
                         ["A"%string; "B"%string] [[0%nat]] [2];
   Ok (dist !! (0%nat, 0%nat, "A"%string, 2, [0%nat]),
       dist !! (0%nat, 0%nat, "B"%string, 2, [0%nat]),
       dist !! (1%nat, 0%nat, "B"%string, 2, [0%nat])))
  = Ok (Some 0%Q, Some 2%Q, Some 0%Q).
Proof. vm_compute. reflexivity. Qed.

(** A complete run, and a second run on the finder it leaves behind. *)
Definition search_finder : ShapeletFinder :=
  {| d_max := 1 # 2; N_max := 1; w_ext := 1; sigma_min := None; sl_max := 2;
     caches := reset_caches |}.

Definition is_ok {A} (m : py A) : bool :=
  match m with Ok _ => true | Raise _ => false end.

Example search_run_ok :
  is_ok (ref_findingshapelets search_finder two_series two_labels) = true.
Proof. vm_compute. reflexivity. Qed.

Example search_run_labels :
  (r ← ref_findingshapelets search_finder two_series two_labels;
   Ok (snd <$> r.1 !! "A"%string, snd <$> r.1 !! "B"%string, sigma_min r.2))
  = Ok (Some [1; 0], Some [0; 1], Some 0%Q).
Proof. vm_compute. reflexivity. Qed.








(** C6, as stated, fails: a finder with [d_max = 0], [N_max = 0] and
    [sl_max = 1], on series of five samples, is built without error and,
    with a progress display that does not raise, its run returns a result;
    so does the run of a finder with [d_max = 0] and [sl_max = 2] that
    searches one window length. *)
Lemma configuration_not_validated :
  init 0 0 1 None 1
  = Ok {| d_max := 0; N_max := 0; w_ext := 1; sigma_min := None; sl_max := 1;
          caches := reset_caches |}
  /\ is_ok (ref_findingshapelets
              {| d_max := 0; N_max := 0; w_ext := 1; sigma_min := None; sl_max := 1;
                 caches := reset_caches |}
              two_series two_labels) = true
  /\ init 0 1 1 None 2
     = Ok {| d_max := 0; N_max := 1; w_ext := 1; sigma_min := None; sl_max := 2;
             caches := reset_caches |}
  /\ is_ok (ref_findingshapelets
              {| d_max := 0; N_max := 1; w_ext := 1; sigma_min := None; sl_max := 2;
                 caches := reset_caches |}
              two_series two_labels) = true.
Proof. vm_compute. auto. Qed.

Lemma findingshapelets_no_validation_witness :
  exists res self',
    ref_findingshapelets
      {| d_max := 0; N_max := 0; w_ext := 1; sigma_min := None; sl_max := 1;
         caches := reset_caches |}
      two_series two_labels = Ok (res, self').
Proof.
  apply (proj2 (findingshapelets_no_validation
                  scipy_argrelmin scipy_argrelmax ref_std_axis1 sliding_subsequences
                  ref_z_normalize sq_distance ref_nn_centers counting_fit
                  () ref_Counter ref_printProgress)).
  - cbn. lia.
  - discriminate.
  - right. repeat constructor; discriminate.
  - intros total prefix. apply ref_progress_returns.
Defined.

(** ** Further worked examples *)

Lemma calc_windows_reaches_sl_max_witness :
  last (calc_windows 10 3) = Some 10
  /\ (0 <= 10 ->
      (forall (i j : nat) x y,
         calc_windows 10 3 !! i = Some x ->
         calc_windows 10 3 !! j = Some y -> (i <= j)%nat -> x <= y)
      /\ Forall (fun w => 0 <= w <= 10) (calc_windows 10 3)).
Proof. apply (calc_windows_reaches_sl_max 10 3). lia. Defined.

Lemma findingshapelets_no_windows_unlabeled_witness :
  ref_findingshapelets
    {| d_max := 1 # 2; N_max := 0; w_ext := 1; sigma_min := None; sl_max := 2;
       caches := reset_caches |}
    two_series [["A"%string]; []]
  = Raise ValueError.
Proof.
  apply (findingshapelets_no_windows_unlabeled
           scipy_argrelmin scipy_argrelmax ref_std_axis1 sliding_subsequences
           ref_z_normalize sq_distance ref_nn_centers counting_fit
           () ref_Counter ref_printProgress).
  - cbn. lia.
  - reflexivity.
  - reflexivity.
  - exists 1%nat. reflexivity.
Defined.

Lemma findingshapelets_no_labels_witness :
  exists e, ref_findingshapelets search_finder two_series [[]; []] = Raise e.
Proof.
  apply (proj2 (findingshapelets_no_labels
                  scipy_argrelmin scipy_argrelmax ref_std_axis1 sliding_subsequences
                  ref_z_normalize sq_distance ref_nn_centers counting_fit
                  () ref_Counter ref_printProgress
                  search_finder two_series [[]; []] zigzag_up
                  ltac:(repeat constructor) eq_refl ltac:(cbn; lia) ltac:(cbn; lia))).
Defined.

Example prune_two_series_ok :
  is_ok (prune_shapelet_candidates scipy_argrelmin scipy_argrelmax ref_nn_centers
           unlabeled_finder two_series two_labels small_z_data 2 [0%nat] reset_caches)
  = true.
Proof. vm_compute. reflexivity. Qed.

Lemma prune_shapelet_candidates_labels_witness :
  match prune_shapelet_candidates scipy_argrelmin scipy_argrelmax ref_nn_centers
          unlabeled_finder two_series two_labels small_z_data 2 [0%nat] reset_caches with
  | Ok r =>
      forall l,
        is_Some (r.1 !! l)
        <-> exists (ts_id : nat) labels,
              (ts_id < length two_series)%nat
              /\ two_labels !! ts_id = Some labels /\ l ∈ labels
  | Raise _ => False
  end.
Proof.
  pose proof prune_two_series_ok as Hok.
  destruct (prune_shapelet_candidates scipy_argrelmin scipy_argrelmax ref_nn_centers
              unlabeled_finder two_series two_labels small_z_data 2 [0%nat] reset_caches)
    as [r|e] eqn:Hrun; [|discriminate Hok].
  exact (prune_shapelet_candidates_labels
           scipy_argrelmin scipy_argrelmax ref_nn_centers
           unlabeled_finder two_series two_labels small_z_data 2 [0%nat] reset_caches
           r Hrun).
Defined.

Lemma prune_shapelet_candidates_clusters_nonempty_witness :
  match prune_shapelet_candidates scipy_argrelmin scipy_argrelmax ref_nn_centers
          unlabeled_finder two_series two_labels small_z_data 2 [0%nat] reset_caches with
  | Ok r =>
      forall l pool,
        r.1 !! l = Some pool ->
        exists candidates,
          candidates <> [] /\ pool = ref_nn_centers (d_max unlabeled_finder) candidates
  | Raise _ => False
  end.
Proof.
  pose proof prune_two_series_ok as Hok.
  destruct (prune_shapelet_candidates scipy_argrelmin scipy_argrelmax ref_nn_centers
              unlabeled_finder two_series two_labels small_z_data 2 [0%nat] reset_caches)
    as [r|e] eqn:Hrun; [|discriminate Hok].
  exact (prune_shapelet_candidates_clusters_nonempty
           scipy_argrelmin scipy_argrelmax ref_nn_centers
           unlabeled_finder two_series two_labels small_z_data 2 [0%nat] reset_caches
           r Hrun).
Defined.

(** A window of seven samples on a series of five: the stack of
    subsequences is empty, every extremum is moved to the offset [-2], and
    indexing the stack raises. *)
Lemma prune_series_long_window_witness :
  candidate_offsets (concat (map (four_extrema scipy_argrelmin scipy_argrelmax 1 zigzag_up)
                                 [0%nat]))
                    7 (shape0 zigzag_up)
  = Ok [shape0 zigzag_up - 7]
  /\ prune_series scipy_argrelmin scipy_argrelmax 1 [zigzag_up] [["A"%string]]
       (precompute_z_norm sliding_subsequences ref_z_normalize 0 [zigzag_up] [7])
       7 [0%nat] (∅, reset_caches) (0%nat, zigzag_up)
     = Raise IndexError.
Proof.
  apply (prune_series_long_window scipy_argrelmin scipy_argrelmax 1 [zigzag_up]
           [["A"%string]]
           (precompute_z_norm sliding_subsequences ref_z_normalize 0 [zigzag_up] [7])
           7 [0%nat] ∅ reset_caches 0%nat zigzag_up [] ["A"%string] 2).
  - apply caches_ok_reset.
  - reflexivity.
  - repeat constructor.
  - vm_compute. reflexivity.
  - exists 0%nat, [2]. split; [constructor|]. split; [|constructor].
    vm_compute. constructor.
  - reflexivity.
  - vm_compute. reflexivity.
  - reflexivity.
Defined.

(** Caches filled for series 0 by an earlier run on other data. *)
Definition stale_caches : extrema :=
  {| minima := {[ (0%nat, 0%nat) := [7] ]};
     maxima := {[ (0%nat, 0%nat) := [8; 9] ]};
     derivative_minima := {[ (0%nat, 0%nat) := [] ]};
     derivative_maxima := {[ (0%nat, 0%nat) := [6] ]} |}.

Lemma collect_ids_reads_cache_witness :
  collect_ids scipy_argrelmin scipy_argrelmax 1 two_series 0 [0%nat] stale_caches
  = Ok (concat (map (cached_extrema stale_caches 0) [0%nat]), stale_caches).
Proof.
  apply (collect_ids_reads_cache scipy_argrelmin scipy_argrelmax 1 two_series 0
           [0%nat] stale_caches).
  intros a Ha. elem_cases Ha. repeat split; eexists; reflexivity.
Defined.

(** The distances of the first pool of the small run. *)
Definition small_dist : dist_dict :=
  match precompute_bmd sq_distance () ref_Counter ref_printProgress two_series
          small_pools small_z_data ["A"%string; "B"%string] [[0%nat]] [2] with
  | Ok dist => dist
  | Raise _ => ∅
  end.

Lemma build_classifier_spec_witness :
  build_classifier counting_fit two_series small_dist [[[(-1)%Q]; [1%Q]]; [[1%Q]; [(-1)%Q]]]
                   [1; 0] "A"%string [0%nat]
  = Ok (map (fun '(shapelet_id, shapelet) =>
               counting_fit shapelet [0%nat]
                 (cached_distances two_series small_dist shapelet_id "A"%string
                                   (shape0 [[(-1)%Q]; [1%Q]]) [0%nat]) [1; 0])
            (enumerate [[[(-1)%Q]; [1%Q]]; [[1%Q]; [(-1)%Q]]])).
Proof.
  apply (proj1 (build_classifier_spec counting_fit two_series small_dist
                  [[[(-1)%Q]; [1%Q]]; [[1%Q]; [(-1)%Q]]] [1; 0] "A"%string [0%nat]
                  [[(-1)%Q]; [1%Q]] eq_refl)).
  intros shapelet_id ts_id Hs Ht.
  destruct shapelet_id as [|[|shapelet_id]]; [| |cbn in Hs; lia];
    (destruct ts_id as [|[|ts_id]]; [| |cbn in Ht; lia]);
    vm_compute; eauto.
Defined.

Lemma precompute_bmd_then_build_classifier_witness :
  exists dist classifiers,
    precompute_bmd sq_distance () ref_Counter ref_printProgress two_series small_pools
                   small_z_data ["A"%string; "B"%string] [[0%nat]] [2] = Ok dist
    /\ build_classifier counting_fit two_series dist
                        [[[(-1)%Q]; [1%Q]]; [[1%Q]; [(-1)%Q]]] [1; 0] "A"%string [0%nat]
       = Ok classifiers
    /\ length classifiers = length [[[(-1)%Q]; [1%Q]]; [[1%Q]; [(-1)%Q]]].
Proof.
  apply (precompute_bmd_then_build_classifier sq_distance counting_fit
           () ref_Counter ref_printProgress two_series
           small_pools small_z_data ["A"%string; "B"%string] [[0%nat]] [2] [1; 0]
           "A"%string [0%nat] 2 [[[(-1)%Q]; [1%Q]]; [[1%Q]; [(-1)%Q]]]
           [[(-1)%Q]; [1%Q]]).
  - apply ref_progress_returns.
  - discriminate.
  - intros l axis w Hl Hax Hw. elem_cases Hl; elem_cases Hax; elem_cases Hw;
      vm_compute; eauto.
  - intros ts_id w Hts Hw. elem_cases Hw.
    destruct ts_id as [|[|ts_id]]; [| |cbn in Hts; lia];
      (eexists; split; [vm_compute; reflexivity | discriminate]).
  - repeat constructor; discriminate.
  - repeat constructor.
  - repeat constructor.
  - repeat constructor.
  - vm_compute. reflexivity.
  - reflexivity.
  - reflexivity.
Defined.

Example best_classifier_small_ok :
  is_ok (best_classifier counting_fit () ref_Counter ref_printProgress two_series
                         small_dist small_pools [[0%nat]] [2] "A"%string [1; 0])
  = true.
Proof. vm_compute. reflexivity. Qed.

Lemma best_classifier_not_beaten_witness :
  match best_classifier counting_fit () ref_Counter ref_printProgress two_series
                        small_dist small_pools [[0%nat]] [2] "A"%string [1; 0] with
  | Ok best =>
      forall ds w,
        ds ∈ [[0%nat]] -> w ∈ [2] ->
        exists pool candidates b,
          small_pools !! ("A"%string, ds, w) = Some pool
          /\ build_classifier counting_fit two_series small_dist pool [1; 0] "A"%string ds
             = Ok candidates
          /\ best = Some b
          /\ forall x, x ∈ candidates -> ~ beats x b
  | Raise _ => False
  end.
Proof.
  pose proof best_classifier_small_ok as Hok.
  destruct (best_classifier counting_fit () ref_Counter ref_printProgress two_series
                            small_dist small_pools [[0%nat]] [2] "A"%string [1; 0])
    as [best|e] eqn:Hrun; [|discriminate Hok].
  exact (proj2 (best_classifier_not_beaten counting_fit () ref_Counter ref_printProgress
                  two_series small_dist
                  small_pools [[0%nat]] [2] "A"%string [1; 0] best Hrun)).
Defined.

Lemma findingshapelets_result_witness :
  match ref_findingshapelets search_finder two_series two_labels with
  | Ok (res, self') =>
      (forall l, l ∉ get_unique_targets two_labels -> res !! l = None)
      /\ (forall l, l ∈ get_unique_targets two_labels ->
            exists best,
              res !! l = Some (best, binary_target l two_labels)
              /\ (1 <= N_max search_finder ->
                  (forall first, two_series !! 0%nat = Some first ->
                                 (1 <= shape1 first)%nat) ->
                  is_Some best))
  | Raise _ => False
  end.
Proof.
  pose proof search_run_ok as Hok.
  destruct (ref_findingshapelets search_finder two_series two_labels)
    as [[res self']|e] eqn:Hrun; [|discriminate Hok].
  exact (findingshapelets_result
           scipy_argrelmin scipy_argrelmax ref_std_axis1 sliding_subsequences
           ref_z_normalize sq_distance ref_nn_centers counting_fit
           () ref_Counter ref_printProgress
           search_finder two_series two_labels res self' Hrun).
Defined.

Lemma findingshapelets_keeps_sigma_min_witness :
  match ref_findingshapelets search_finder two_series two_labels with
  | Ok (res, self') =>
      exists sigma,
        estimate_sigma_min ref_std_axis1 sliding_subsequences search_finder two_series
          two_labels (calc_windows (sl_max search_finder) (N_max search_finder))
        = Ok sigma
        /\ sigma_min self' = Some sigma
        /\ d_max self' = d_max search_finder /\ N_max self' = N_max search_finder
        /\ w_ext self' = w_ext search_finder /\ sl_max self' = sl_max search_finder
        /\ forall data' target' windows',
             estimate_sigma_min ref_std_axis1 sliding_subsequences self' data' target'
                                windows' = Ok sigma
  | Raise _ => False
  end.
Proof.
  pose proof search_run_ok as Hok.
  destruct (ref_findingshapelets search_finder two_series two_labels)
    as [[res self']|e] eqn:Hrun; [|discriminate Hok].
  exact (findingshapelets_keeps_sigma_min
           scipy_argrelmin scipy_argrelmax ref_std_axis1 sliding_subsequences
           ref_z_normalize sq_distance ref_nn_centers counting_fit
           () ref_Counter ref_printProgress
           search_finder two_series two_labels res self' Hrun).
Defined.

(** Writing the result file succeeds. *)
Definition ref_pickle_dump (r : result) : py () := Ok ().

Definition ref_eval :=
  eval scipy_argrelmin scipy_argrelmax ref_std_axis1 sliding_subsequences
       ref_z_normalize sq_distance ref_nn_centers counting_fit
       () ref_Counter ref_printProgress ref_pickle_dump.

Lemma eval_first_values_witness :
  ref_eval {| eval_d_max := [1 # 2; 3%Q]; eval_sigma_min := [None; Some 1%Q];
              eval_sl_max := [2; 4]; eval_n_max := [1; 2]; eval_w_ext := [1; 5] |}
           two_series two_labels
  = ref_eval {| eval_d_max := [1 # 2]; eval_sigma_min := [None];
                eval_sl_max := [2]; eval_n_max := [1]; eval_w_ext := [1] |}
             two_series two_labels.
Proof.
  apply (proj1 (eval_first_values
                  scipy_argrelmin scipy_argrelmax ref_std_axis1 sliding_subsequences
                  ref_z_normalize sq_distance ref_nn_centers counting_fit
                  () ref_Counter ref_printProgress ref_pickle_dump
                  {| eval_d_max := [1 # 2; 3%Q]; eval_sigma_min := [None; Some 1%Q];
                     eval_sl_max := [2; 4]; eval_n_max := [1; 2]; eval_w_ext := [1; 5] |}
                  two_series two_labels));
    reflexivity.
Defined.

(** A stand-in for [predict_all]: the distances of the shapelet to the
    windows of the series. *)
Definition ref_predict_all (cls : ShapeletClassifier) (data_nd : list (list Q))
  : list Q * list Q :=
  let ds := map (sq_distance (shapelet cls))
                (sliding_subsequences data_nd (shape0 (shapelet cls))) in
  (ds, ds).

Definition upright_training : gmap label (list (list (list Q))) :=
  {[ insert_upright := [ [[1%Q; 2%Q; 3%Q; 4%Q]; [5%Q; 6%Q; 7%Q; 8%Q]] ] ]}.

Definition upright_result : gmap label (option ShapeletClassifier * list Z) :=
  {[ insert_upright :=
       (Some {| shapelet := [[2%Q; 1%Q; 3%Q]]; dim_s := [0%nat; 1%nat; 2%nat];
                delta := 1 # 2; information_gain := 1; f_c_delta := 0 |},
        [1]) ]}.

Example evaluation_upright :
  evaluation ref_predict_all upright_training upright_result = Ok true.
Proof. vm_compute. reflexivity. Qed.

Lemma evaluation_spec_witness :
  exists training data_of_interest data_nd cls binary,
    upright_training !! insert_upright = Some training
    /\ training !! 0%nat = Some data_of_interest
    /\ prepare_series data_of_interest = Ok data_nd
    /\ upright_result !! insert_upright = Some (Some cls, binary)
    /\ (true = true
        <-> exists m, np_min (ref_predict_all cls data_nd).2 = Ok m /\ (m < delta cls)%Q)
    /\ ((ref_predict_all cls data_nd).2 = [] -> true = false).
Proof.
  apply (evaluation_spec ref_predict_all upright_training upright_result true).
  vm_compute. reflexivity.
Defined.

Lemma prepare_series_exchanges_witness :
  prepare_series [[1%Q; 2%Q; 3%Q; 4%Q]; [5%Q; 6%Q; 7%Q; 8%Q]]
  = Ok (map exchanged [[1%Q; 2%Q; 3%Q; 4%Q]; [5%Q; 6%Q; 7%Q; 8%Q]]).
Proof.
  apply (prepare_series_exchanges [[1%Q; 2%Q; 3%Q; 4%Q]; [5%Q; 6%Q; 7%Q; 8%Q]] 4).
  - discriminate.
  - repeat constructor.
  - lia.
Defined.

Lemma cmp_classifier_both_one_witness :
  bsf_loop None [mk_classifier 1 (1 # 4); mk_classifier (2 # 2) (2 # 8)]
  = Ok (Some (mk_classifier (2 # 2) (2 # 8)))
  /\ bsf_loop None [mk_classifier (2 # 2) (2 # 8); mk_classifier 1 (1 # 4)]
     = Ok (Some (mk_classifier 1 (1 # 4))).
Proof.
  apply (proj2 (cmp_classifier_both_one (mk_classifier 1 (1 # 4))
                  (mk_classifier (2 # 2) (2 # 8))));
    reflexivity.
Defined.
